(** * Token lifecycle and credential store of instagram_auth

    A shallow embedding of [src/token_manager.py] (class [TokenManager]) and
    of the OAuth flow of [src/auth.py] (class [MetaAuth]), with the
    properties of the specification stated and proved over it.

    The program:
    - [Py]: the fragment of Python the two modules run on (JSON-shaped
      values, exceptions, truthiness, subscripting, the UTF-8 codec);
    - [Eff]: the effects of the program (the Snowflake table, the clocks,
      the replies to [requests.get], the log written by [st.error]) as a
      state-and-exception monad;
    - [TokenManager], [MetaAuth]: the methods, statement by statement.

    The proofs:
    - [Terms]: the vocabulary of the statements;
    - [Codec], [Run], [Vault], [Table], [Store], [Lifecycle]: the codec,
      frames, the vault, the table and the runs of the three methods;
    - [Contract]: the properties of the store;
    - [Flow]: the properties of the OAuth flow. *)

From Stdlib Require Import ZArith List String Ascii Bool Lia.
Import ListNotations.
Local Open Scope Z_scope.
Set Warnings "-register-all".

(* ===================================================================== *)
(** * Python values                                                       *)
(* ===================================================================== *)

Module Py.

(** A [str] is a sequence of code points, a [bytes] object a sequence of
    octets; both are lists of integers. *)
Definition str := list Z.
Definition bytes := list Z.

(** [lit "abc"] is the Python literal ['abc']. *)
Fixpoint lit (s : string) : str :=
  match s with
  | EmptyString => []
  | String c r => Z.of_nat (nat_of_ascii c) :: lit r
  end.

Fixpoint str_eqb (a b : str) : bool :=
  match a, b with
  | [], [] => true
  | x :: a', y :: b' => (x =? y) && str_eqb a' b'
  | _, _ => false
  end.

(** The exceptions the program can meet.  All of them derive from
    [Exception], so every [except Exception] clause catches them. *)
Inductive exn : Type :=
| KeyError (key : str)
| TypeError
| AttributeError
| ValueError
| OverflowError
| UnicodeEncodeError
| UnicodeDecodeError
| InvalidToken                    (* cryptography.fernet.InvalidToken *)
| JSONDecodeError                 (* response.json() on a body that is not JSON *)
| HTTPError (status : Z)          (* response.raise_for_status() *)
| ConnectionError                 (* requests: no reply at all *)
| DatabaseError (code : Z).       (* snowflake.connector errors *)

Inductive result (A : Type) : Type :=
| Ok (a : A)
| Raise (e : exn).
Arguments Ok {A} a.
Arguments Raise {A} e.

(** The values that flow through the program: what [response.json()]
    returns and what is built from it.  Dictionaries keep insertion order;
    integers are unbounded.  (Floating-point numbers are left out.) *)
Inductive value : Type :=
| VNone
| VBool (b : bool)
| VInt (n : Z)
| VStr (s : str)
| VList (l : list value)
| VDict (d : list (value * value)).

(** [bool(v)] *)
Definition truthy (v : value) : bool :=
  match v with
  | VNone => false
  | VBool b => b
  | VInt n => negb (n =? 0)
  | VStr s => match s with [] => false | _ => true end
  | VList l => match l with [] => false | _ => true end
  | VDict d => match d with [] => false | _ => true end
  end.

(** [k == s] for a string [s]: only a string equals a string. *)
Definition eq_str (k : value) (s : str) : bool :=
  match k with
  | VStr s' => str_eqb s' s
  | _ => false
  end.

(** Equality of two hashable values as dictionary keys ([True == 1] and
    [False == 0] in Python). *)
Definition key_eqb (a b : value) : bool :=
  match a, b with
  | VNone, VNone => true
  | VBool x, VBool y => Bool.eqb x y
  | VBool x, VInt n | VInt n, VBool x => n =? (if x then 1 else 0)
  | VInt n, VInt m => n =? m
  | VStr s, VStr t => str_eqb s t
  | _, _ => false
  end.

Definition hashable (v : value) : bool :=
  match v with
  | VList _ | VDict _ => false
  | _ => true
  end.

Fixpoint dict_get (d : list (value * value)) (k : value) : option value :=
  match d with
  | [] => None
  | (k', v) :: r => if key_eqb k' k then Some v else dict_get r k
  end.

(** [d[k] = v]: an existing key keeps its place, a new one goes last. *)
Fixpoint dict_set (d : list (value * value)) (k v : value)
  : list (value * value) :=
  match d with
  | [] => [(k, v)]
  | (k', v') :: r =>
      if key_eqb k' k then (k', v) :: r else (k', v') :: dict_set r k v
  end.

(** [v[key]] for a string key. *)
Definition subscript (v : value) (key : str) : result value :=
  match v with
  | VDict d =>
      match dict_get d (VStr key) with
      | Some x => Ok x
      | None => Raise (KeyError key)
      end
  | _ => Raise TypeError
  end.

(** [v.get(key, default)] *)
Definition get_default (v : value) (key : str) (default : value)
  : result value :=
  match v with
  | VDict d =>
      match dict_get d (VStr key) with
      | Some x => Ok x
      | None => Ok default
      end
  | _ => Raise AttributeError
  end.

Fixpoint starts_with (s p : str) : bool :=
  match p, s with
  | [], _ => true
  | y :: p', x :: s' => (x =? y) && starts_with s' p'
  | _ :: _, [] => false
  end.

Fixpoint substring (s p : str) : bool :=
  starts_with s p || match s with [] => false | _ :: s' => substring s' p end.

(** [key in v] for a string key: a key of a dictionary, an element of a
    list, a substring of a string. *)
Definition contains (v : value) (key : str) : result bool :=
  match v with
  | VDict d => Ok (existsb (fun kv => eq_str (fst kv) key) d)
  | VList l => Ok (existsb (fun x => eq_str x key) l)
  | VStr s => Ok (substring s key)
  | _ => Raise TypeError
  end.

(** [v.copy()] *)
Definition copy (v : value) : result value :=
  match v with
  | VDict d => Ok (VDict d)
  | VList l => Ok (VList l)
  | _ => Raise AttributeError
  end.

(** [v[key] = x] for a string key. *)
Definition set_item (v : value) (key : str) (x : value) : result value :=
  match v with
  | VDict d => Ok (VDict (dict_set d (VStr key) x))
  | _ => Raise TypeError
  end.

(** The elements a [for] loop over [v] visits. *)
Definition iterate (v : value) : result (list value) :=
  match v with
  | VList l => Ok l
  | VDict d => Ok (map fst d)
  | VStr s => Ok (map (fun c => VStr [c]) s)
  | _ => Raise TypeError
  end.

(** One element of the sequence given to [dict(...)]: it must itself be a
    sequence of length two, whose first item is hashable. *)
Definition as_pair (v : value) : result (value * value) :=
  match iterate v with
  | Raise e => Raise e
  | Ok [k; x] => if hashable k then Ok (k, x) else Raise TypeError
  | Ok _ => Raise ValueError
  end.

Fixpoint dict_of_pairs (acc : list (value * value)) (l : list value)
  : result (list (value * value)) :=
  match l with
  | [] => Ok acc
  | p :: r =>
      match as_pair p with
      | Raise e => Raise e
      | Ok (k, x) => dict_of_pairs (dict_set acc k x) r
      end
  end.

(** [dict(v)]: a copy of a mapping, or the dictionary of a sequence of
    pairs. *)
Definition dict (v : value) : result value :=
  match v with
  | VDict d => Ok (VDict d)
  | _ =>
      match iterate v with
      | Raise e => Raise e
      | Ok l =>
          match dict_of_pairs [] l with
          | Raise e => Raise e
          | Ok d => Ok (VDict d)
          end
      end
  end.

(** ** The UTF-8 codec: [str.encode()] and [bytes.decode()] *)

Definition is_scalar (c : Z) : bool :=
  (0 <=? c) && (c <? 0x110000) && negb ((0xD800 <=? c) && (c <=? 0xDFFF)).

Definition encode_cp (c : Z) : bytes :=
  if c <? 0x80 then [c]
  else if c <? 0x800 then [0xC0 + c / 64; 0x80 + c mod 64]
  else if c <? 0x10000 then
    [0xE0 + c / 4096; 0x80 + (c / 64) mod 64; 0x80 + c mod 64]
  else
    [0xF0 + c / 262144; 0x80 + (c / 4096) mod 64;
     0x80 + (c / 64) mod 64; 0x80 + c mod 64].

(** [s.encode()]: surrogates cannot be encoded. *)
Fixpoint utf8_encode (s : str) : result bytes :=
  match s with
  | [] => Ok []
  | c :: r =>
      if is_scalar c then
        match utf8_encode r with
        | Ok bs => Ok (encode_cp c ++ bs)
        | Raise e => Raise e
        end
      else Raise UnicodeEncodeError
  end.

Definition is_cont (b : Z) : bool := (0x80 <=? b) && (b <? 0xC0).

Definition push (c : Z) (r : option str) : option str :=
  match r with
  | Some s => Some (c :: s)
  | None => None
  end.

(** [bs.decode()], strict: overlong forms, surrogates, code points above
    U+10FFFF, stray continuation bytes and truncated sequences are
    rejected ([None] stands for [UnicodeDecodeError]). *)
Fixpoint utf8_decode (bs : bytes) : option str :=
  match bs with
  | [] => Some []
  | b0 :: r0 =>
      if b0 <? 0 then None
      else if b0 <? 0x80 then push b0 (utf8_decode r0)
      else if b0 <? 0xC0 then None
      else if b0 <? 0xE0 then
        match r0 with
        | b1 :: r1 =>
            let c := (b0 - 0xC0) * 64 + (b1 - 0x80) in
            if is_cont b1 && (0x80 <=? c)
            then push c (utf8_decode r1) else None
        | _ => None
        end
      else if b0 <? 0xF0 then
        match r0 with
        | b1 :: b2 :: r2 =>
            let c := (b0 - 0xE0) * 4096 + (b1 - 0x80) * 64 + (b2 - 0x80) in
            if is_cont b1 && is_cont b2 && (0x800 <=? c) && is_scalar c
            then push c (utf8_decode r2) else None
        | _ => None
        end
      else if b0 <? 0xF8 then
        match r0 with
        | b1 :: b2 :: b3 :: r3 =>
            let c := (b0 - 0xF0) * 262144 + (b1 - 0x80) * 4096
                     + (b2 - 0x80) * 64 + (b3 - 0x80) in
            if is_cont b1 && is_cont b2 && is_cont b3
               && (0x10000 <=? c) && is_scalar c
            then push c (utf8_decode r3) else None
        | _ => None
        end
      else None
  end.

Definition decode (bs : bytes) : result str :=
  match utf8_decode bs with
  | Some s => Ok s
  | None => Raise UnicodeDecodeError
  end.

(** A string Python can encode: every code point is a Unicode scalar
    value. *)
Definition valid_utf8 (s : str) : Prop := Forall (fun c => is_scalar c = true) s.

Definition is_byte (b : Z) : bool := (0 <=? b) && (b <? 0x100).
Definition is_ascii_byte (b : Z) : bool := (0 <=? b) && (b <? 0x80).

End Py.

(* ===================================================================== *)
(** * Effects                                                             *)
(* ===================================================================== *)

Module Eff.
Import Py.

(** ** The table [META_TOKENS] *)

(** One row, with the columns the three statements name.  [None] is SQL
    [NULL].  A timestamp is what Python bound (a naive [datetime]), a
    [PAGES] cell is the list whose [json.dumps] text [PARSE_JSON]
    stored. *)
Record Row : Type := {
  USER_ID : str;
  META_USER_ID : value;
  ACCESS_TOKEN : value;
  TOKEN_EXPIRY : option Z;
  PAGES : option value;
  NEEDS_REAUTH : option bool;
  LAST_REFRESHED : option Z
}.

(** The three statements the program sends, with their bound parameters. *)
Inductive sql : Type :=
| Merge (user_id : str) (meta_user_id access_token : value)
        (token_expiry : Z) (pages : option value)
| Select (user_id : str)
| UpdateReauth (user_id : str).

(** What the source does not fix about the table.  The module says "Table
    creation is now handled manually in Snowflake": the DDL is not in the
    repository, so the defaults of the two columns the [INSERT] branch
    leaves out are parameters, and so is what Python gets back for a
    [PAGES] cell written from a given list (the document [PARSE_JSON]
    made of its dump, as the connector presents a VARIANT: parsed, or as
    text). *)
Class Schema : Type := {
  default_needs_reauth : option bool;
  default_last_refreshed : Z -> option Z;   (* given CURRENT_TIMESTAMP() *)
  variant_cell : value -> value
}.

(** ** The world *)

(** A reply to [requests.get]: none at all, or a status and a body ([None]
    when the body is not JSON). *)
Inductive reply : Type :=
| NoReply (e : exn)
| Reply (status : Z) (body : option value).

Inductive event : Type :=
| EvGet (url : string) (params : list (string * value))
| EvSql (q : sql)
| EvEncrypt (plaintext : bytes)
| EvDecrypt (token : bytes)
| EvUpsert (user_id : str) (meta_user_id access_token expires_in pages : value).

(** Times are microseconds since 0001-01-01T00:00:00.  [db_script] and
    [http_script] say what the next driver calls and the next requests
    meet; [entropy] is what [Fernet.encrypt] draws (IV and timestamp).
    [log] is what [st.error] has shown; [trace] is a ghost record of the
    calls made. *)
Record World : Type := {
  table : list Row;
  py_clock : Z;                       (* datetime.now() *)
  db_clock : Z;                       (* CURRENT_TIMESTAMP() *)
  db_script : list (option exn);
  http_script : list reply;
  entropy : list Z;
  log : list (string * exn);
  trace : list event
}.

Definition with_py_clock (t : Z) (w : World) : World :=
  {| table := table w; py_clock := t; db_clock := db_clock w;
     db_script := db_script w; http_script := http_script w;
     entropy := entropy w; log := log w; trace := trace w |}.

Definition with_table (t : list Row) (w : World) : World :=
  {| table := t; py_clock := py_clock w; db_clock := db_clock w;
     db_script := db_script w; http_script := http_script w;
     entropy := entropy w; log := log w; trace := trace w |}.

Definition with_db_script (s : list (option exn)) (w : World) : World :=
  {| table := table w; py_clock := py_clock w; db_clock := db_clock w;
     db_script := s; http_script := http_script w;
     entropy := entropy w; log := log w; trace := trace w |}.

Definition with_http_script (s : list reply) (w : World) : World :=
  {| table := table w; py_clock := py_clock w; db_clock := db_clock w;
     db_script := db_script w; http_script := s;
     entropy := entropy w; log := log w; trace := trace w |}.

Definition with_entropy (s : list Z) (w : World) : World :=
  {| table := table w; py_clock := py_clock w; db_clock := db_clock w;
     db_script := db_script w; http_script := http_script w;
     entropy := s; log := log w; trace := trace w |}.

Definition with_log (l : list (string * exn)) (w : World) : World :=
  {| table := table w; py_clock := py_clock w; db_clock := db_clock w;
     db_script := db_script w; http_script := http_script w;
     entropy := entropy w; log := l; trace := trace w |}.

Definition with_trace (t : list event) (w : World) : World :=
  {| table := table w; py_clock := py_clock w; db_clock := db_clock w;
     db_script := db_script w; http_script := http_script w;
     entropy := entropy w; log := log w; trace := t |}.

(** ** The monad: state, and exceptions that keep the state *)

Definition M (A : Type) : Type := World -> result A * World.

Definition ret {A} (a : A) : M A := fun w => (Ok a, w).

Definition bind {A B} (c : M A) (k : A -> M B) : M B :=
  fun w =>
    match c w with
    | (Ok a, w') => k a w'
    | (Raise e, w') => (Raise e, w')
    end.

Definition raise {A} (e : exn) : M A := fun w => (Raise e, w).

(** [try: c  except Exception as e: h e] *)
Definition try_except {A} (c : M A) (h : exn -> M A) : M A :=
  fun w =>
    match c w with
    | (Ok a, w') => (Ok a, w')
    | (Raise e, w') => h e w'
    end.

(** A pure computation that may raise. *)
Definition lift {A} (r : result A) : M A := fun w => (r, w).

Declare Scope eff_scope.
Delimit Scope eff_scope with eff.
Notation "x <- c ;; k" := (bind c (fun x => k))
  (at level 100, c at next level, right associativity) : eff_scope.
Notation "c ;; k" := (bind c (fun _ => k))
  (at level 100, right associativity) : eff_scope.
Local Open Scope eff_scope.

Fixpoint for_each {A B} (f : A -> M B) (l : list A) : M (list B) :=
  match l with
  | [] => ret []
  | a :: r => b <- f a ;; bs <- for_each f r ;; ret (b :: bs)
  end.

Definition emit (ev : event) : M unit :=
  fun w => (Ok tt, with_trace (trace w ++ [ev]) w).

(** [st.error(f"<msg>: {str(e)}")] *)
Definition st_error (msg : string) (e : exn) : M unit :=
  fun w => (Ok tt, with_log (log w ++ [(msg, e)]) w).

(** [datetime.now()] *)
Definition datetime_now : M Z := fun w => (Ok (py_clock w), w).

(** ** The Snowflake driver *)

(** Every driver call takes the next outcome of the script; an exhausted
    script means no more faults. *)
Definition db_call : M unit :=
  fun w =>
    match db_script w with
    | [] => (Ok tt, w)
    | None :: s => (Ok tt, with_db_script s w)
    | Some e :: s => (Raise e, with_db_script s w)
    end.

Section Statements.
Context {S : Schema}.

(** [MERGE INTO META_TOKENS t USING (SELECT %s as USER_ID) s
     ON t.USER_ID = s.USER_ID WHEN MATCHED ... WHEN NOT MATCHED ...] *)
Definition merge (now : Z) (u : str) (meta tok : value) (exp : Z)
    (pages : option value) (t : list Row) : list Row :=
  if existsb (fun r => str_eqb (USER_ID r) u) t then
    map (fun r =>
           if str_eqb (USER_ID r) u then
             {| USER_ID := USER_ID r;
                META_USER_ID := meta;
                ACCESS_TOKEN := tok;
                TOKEN_EXPIRY := Some exp;
                PAGES := pages;
                NEEDS_REAUTH := Some false;
                LAST_REFRESHED := Some now |}
           else r) t
  else
    t ++ [ {| USER_ID := u;
              META_USER_ID := meta;
              ACCESS_TOKEN := tok;
              TOKEN_EXPIRY := Some exp;
              PAGES := pages;
              NEEDS_REAUTH := default_needs_reauth;
              LAST_REFRESHED := default_last_refreshed now |} ].

(** [UPDATE META_TOKENS SET NEEDS_REAUTH = TRUE WHERE USER_ID = %s] *)
Definition update_reauth (u : str) (t : list Row) : list Row :=
  map (fun r =>
         if str_eqb (USER_ID r) u then
           {| USER_ID := USER_ID r;
              META_USER_ID := META_USER_ID r;
              ACCESS_TOKEN := ACCESS_TOKEN r;
              TOKEN_EXPIRY := TOKEN_EXPIRY r;
              PAGES := PAGES r;
              NEEDS_REAUTH := Some true;
              LAST_REFRESHED := LAST_REFRESHED r |}
         else r) t.

(** [SELECT ... FROM META_TOKENS WHERE USER_ID = %s] *)
Definition select (u : str) (t : list Row) : list Row :=
  filter (fun r => str_eqb (USER_ID r) u) t.

(** [cursor.execute(q, params)]: the connection commits each statement
    (the connector's default), so a statement that ran is durable.  The
    result is the cursor's row set. *)
Definition execute (q : sql) : M (list Row) :=
  db_call ;;
  emit (EvSql q) ;;
  fun w =>
    match q with
    | Merge u meta tok exp pages =>
        (Ok [], with_table (merge (db_clock w) u meta tok exp pages (table w)) w)
    | Select u => (Ok (select u (table w)), w)
    | UpdateReauth u => (Ok [], with_table (update_reauth u (table w)) w)
    end.

End Statements.

(** [snowflake.connector.connect(...)], [conn.cursor()], [conn.close()]:
    each of them a driver call that can fail. *)
Definition connect : M unit := db_call.
Definition cursor : M unit := db_call.
Definition close : M unit := db_call.

(** [cursor.fetchone()] *)
Definition fetchone (rows : list Row) : option Row := hd_error rows.

(** ** [requests] *)

Record response : Type := { status_code : Z; body : option value }.

(** [requests.get(url, params=...)] *)
Definition requests_get (url : string) (params : list (string * value))
  : M response :=
  emit (EvGet url params) ;;
  fun w =>
    match http_script w with
    | [] => (Raise ConnectionError, w)
    | NoReply e :: s => (Raise e, with_http_script s w)
    | Reply st b :: s =>
        (Ok {| status_code := st; body := b |}, with_http_script s w)
    end.

(** [response.raise_for_status()]: 4xx and 5xx raise. *)
Definition raise_for_status (r : response) : M unit :=
  if (400 <=? status_code r) && (status_code r <? 600)
  then raise (HTTPError (status_code r))
  else ret tt.

(** [response.json()] *)
Definition json (r : response) : M value :=
  match body r with
  | Some v => ret v
  | None => raise JSONDecodeError
  end.

End Eff.

(* ===================================================================== *)
(** * src/token_manager.py                                                *)
(* ===================================================================== *)

Module TokenManager.
Import Py Eff.
Local Open Scope eff_scope.

(** [self.fernet]: the vault built from [ENCRYPTION_KEY].  The source
    uses the [cryptography] library through two calls; the interface
    records what the library documents about them: a token is URL-safe
    base64 text, decrypting a token made with the same key gives the
    plaintext back, and the tokens the key authenticates are the ones
    encryption under that key makes: a token that decrypts to [p] is an
    encryption of [p], and everything else is rejected.
    [fernet_decrypt] answers [None] where the library raises
    [InvalidToken]. *)
Class Fernet : Type := {
  fernet_encrypt : Z -> bytes -> bytes;       (* entropy, plaintext *)
  fernet_decrypt : bytes -> option bytes;
  fernet_token_ascii :
    forall r p, Forall (fun b => is_ascii_byte b = true) (fernet_encrypt r p);
  fernet_decrypt_encrypt :
    forall r p, Forall (fun b => is_byte b = true) p ->
                fernet_decrypt (fernet_encrypt r p) = Some p;
  fernet_authentic :
    forall t p, fernet_decrypt t = Some p ->
                Forall (fun b => is_byte b = true) p /\
                exists r, t = fernet_encrypt r p
}.

(** [datetime.max] is 9999-12-31T23:59:59.999999; day 3652059 is its
    ordinal. *)
Definition datetime_end : Z := 3652059 * 86400 * 1000000.

(** [timedelta(seconds=v)], in microseconds: an [int] (or [bool]) number
    of seconds, at most 999999999 days either way. *)
Definition timedelta_seconds (v : value) : result Z :=
  match v with
  | VInt n =>
      if Z.abs (n / 86400) <=? 999999999 then Ok (n * 1000000)
      else Raise OverflowError
  | VBool b => Ok (if b then 1000000 else 0)
  | _ => Raise TypeError
  end.

(** [t + delta] on a [datetime]: the result must be a representable
    date. *)
Definition datetime_add (t delta : Z) : result Z :=
  if (0 <=? t + delta) && (t + delta <? datetime_end) then Ok (t + delta)
  else Raise OverflowError.

(** [token.encode()] *)
Definition encode (v : value) : result bytes :=
  match v with
  | VStr s => utf8_encode s
  | _ => Raise AttributeError
  end.

(** The fetched dictionary: [{'needs_reauth': True}], or the six-key
    record. *)
Record token_data : Type := {
  tok_user_id : str;
  tok_meta_user_id : value;
  tok_access_token : value;
  tok_token_expiry : option Z;
  tok_pages : value;
  tok_needs_reauth : bool
}.

Inductive fetched : Type :=
| NeedsReauth
| Token (d : token_data).

Section Methods.
Context {F : Fernet} {S : Schema}.

(** [self.fernet.encrypt(data)] *)
Definition fernet_encrypt_call (data : bytes) : M bytes :=
  emit (EvEncrypt data) ;;
  fun w =>
    match entropy w with
    | [] => (Ok (fernet_encrypt 0 data), w)
    | r :: s => (Ok (fernet_encrypt r data), with_entropy s w)
    end.

(** [self.fernet.decrypt(token)] *)
Definition fernet_decrypt_call (token : bytes) : M bytes :=
  emit (EvDecrypt token) ;;
  match fernet_decrypt token with
  | Some p => ret p
  | None => raise InvalidToken
  end.

(** [_get_snowflake_connection] *)
Definition _get_snowflake_connection : M unit := connect.

(** [return self.fernet.encrypt(token.encode()).decode()] *)
Definition encrypt_token (token : value) : M value :=
  data <- lift (encode token) ;;
  ct <- fernet_encrypt_call data ;;
  s <- lift (decode ct) ;;
  ret (VStr s).

(** [return self.fernet.decrypt(encrypted_token.encode()).decode()] *)
Definition decrypt_token (encrypted_token : value) : M value :=
  data <- lift (encode encrypted_token) ;;
  pt <- fernet_decrypt_call data ;;
  s <- lift (decode pt) ;;
  ret (VStr s).

(** The body of the loop over [pages] in [store_user_token]. *)
Definition encrypt_page (page : value) : M value :=
  page_copy <- lift (copy page) ;;
  has_token <- lift (contains page_copy (lit "access_token")) ;;
  if has_token then
    old <- lift (subscript page_copy (lit "access_token")) ;;
    enc <- encrypt_token old ;;
    lift (set_item page_copy (lit "access_token") enc)
  else ret page_copy.

(** The block "Encrypt and format page tokens if available":
    [encrypted_pages] is [None], or the JSON document [json.dumps]
    makes of the list of encrypted copies, carried as that list. *)
Definition encrypt_pages (pages : value) : M (option value) :=
  if truthy pages then
    items <- lift (iterate pages) ;;
    encrypted_pages <- for_each encrypt_page items ;;
    ret (Some (VList encrypted_pages))
  else ret None.

(** The first line records the call in the ghost trace; the rest is the
    method. *)
Definition store_user_token (user_id : str)
    (meta_user_id access_token expires_in pages : value) : M bool :=
  emit (EvUpsert user_id meta_user_id access_token expires_in pages) ;;
  try_except
    (_get_snowflake_connection ;;
     cursor ;;
     (* Encrypt the token *)
     encrypted_token <- encrypt_token access_token ;;
     (* Calculate expiry date *)
     now <- datetime_now ;;
     delta <- lift (timedelta_seconds expires_in) ;;
     expiry_date <- lift (datetime_add now delta) ;;
     (* Encrypt and format page tokens if available *)
     encrypted_pages <- encrypt_pages pages ;;
     (* Use MERGE to handle upsert logic *)
     execute (Merge user_id meta_user_id encrypted_token expiry_date
                    encrypted_pages) ;;
     close ;;
     ret true)
    (fun e => st_error "Error storing token" e ;; ret false).

Definition _mark_token_for_reauth (user_id : str) : M unit :=
  try_except
    (_get_snowflake_connection ;;
     cursor ;;
     execute (UpdateReauth user_id) ;;
     close ;;
     ret tt)
    (fun e => st_error "Error marking token for reauth" e).

(** The body of the loop over [encrypted_pages] in [get_user_token]. *)
Definition decrypt_page (page : value) : M value :=
  page_copy <- lift (dict page) ;;
  has_token <- lift (contains page_copy (lit "access_token")) ;;
  if has_token then
    old <- lift (subscript page_copy (lit "access_token")) ;;
    dec <- decrypt_token old ;;
    lift (set_item page_copy (lit "access_token") dec)
  else ret page_copy.

(** The block "Decrypt page tokens if available". *)
Definition decrypt_pages (encrypted_pages : value) : M value :=
  if truthy encrypted_pages then
    items <- lift (iterate encrypted_pages) ;;
    pages <- for_each decrypt_page items ;;
    ret (VList pages)
  else ret VNone.

(** A [PAGES] cell as Python sees it. *)
Definition pages_cell (c : option value) : value :=
  match c with
  | None => VNone
  | Some v => variant_cell v
  end.

(** [bool(needs_reauth)] for a nullable BOOLEAN cell. *)
Definition flag_set (c : option bool) : bool :=
  match c with
  | Some b => b
  | None => false
  end.

Definition get_user_token (user_id : str) : M (option fetched) :=
  try_except
    (_get_snowflake_connection ;;
     cursor ;;
     rows <- execute (Select user_id) ;;
     let record := fetchone rows in
     close ;;
     match record with
     | None => ret None
     | Some r =>
         let user_id := USER_ID r in
         let meta_user_id := META_USER_ID r in
         let encrypted_token := ACCESS_TOKEN r in
         let token_expiry := TOKEN_EXPIRY r in
         let encrypted_pages := pages_cell (PAGES r) in
         let needs_reauth := NEEDS_REAUTH r in
         (* Check if token needs reauthorization *)
         if flag_set needs_reauth then ret (Some NeedsReauth)
         else
           (* Check if token is expired *)
           expired <-
             match token_expiry with
             | None => ret false
             | Some t => now <- datetime_now ;; ret (t <? now)
             end ;;
           if expired then
             (* Mark token as needing reauthorization *)
             _mark_token_for_reauth user_id ;;
             ret (Some NeedsReauth)
           else
             (* Decrypt token *)
             token <- decrypt_token encrypted_token ;;
             (* Decrypt page tokens if available *)
             pages <- decrypt_pages encrypted_pages ;;
             ret (Some (Token {|
               tok_user_id := user_id;
               tok_meta_user_id := meta_user_id;
               tok_access_token := token;
               tok_token_expiry := token_expiry;
               tok_pages := pages;
               tok_needs_reauth := false |}))
     end)
    (fun e => st_error "Error retrieving token" e ;; ret None).

End Methods.
End TokenManager.

(* ===================================================================== *)
(** * src/auth.py                                                         *)
(* ===================================================================== *)

Module MetaAuth.
Import Py Eff TokenManager.
Local Open Scope eff_scope.

(** [self.app_id], [self.app_secret], [self.redirect_uri] *)
Record t : Type := {
  app_id : value;
  app_secret : value;
  redirect_uri : value
}.

(** The dictionary [complete_oauth_flow] returns. *)
Record flow_result : Type := {
  user_info : value;
  pages : value
}.

Definition token_url : string :=
  "https://graph.facebook.com/v18.0/oauth/access_token".
Definition me_url : string := "https://graph.facebook.com/v18.0/me".
Definition accounts_url : string :=
  "https://graph.facebook.com/v18.0/me/accounts".

Section Methods.
Context {F : Fernet} {S : Schema} (self : t).

Definition exchange_code_for_token (code : value) : M value :=
  response <- requests_get token_url
    [("client_id", app_id self); ("client_secret", app_secret self);
     ("redirect_uri", redirect_uri self); ("code", code)]%string ;;
  raise_for_status response ;;
  json response.

Definition get_long_lived_token (access_token : value) : M value :=
  response <- requests_get token_url
    [("grant_type", VStr (lit "fb_exchange_token"));
     ("client_id", app_id self); ("client_secret", app_secret self);
     ("fb_exchange_token", access_token)]%string ;;
  raise_for_status response ;;
  json response.

Definition get_user_info (access_token : value) : M value :=
  response <- requests_get me_url
    [("access_token", access_token);
     ("fields", VStr (lit "id,name,email"))]%string ;;
  raise_for_status response ;;
  json response.

Definition get_pages (access_token : value) : M value :=
  response <- requests_get accounts_url
    [("access_token", access_token);
     ("fields", VStr (lit
        "id,name,access_token,category,instagram_business_account{id,name,username}"))
    ]%string ;;
  if status_code response =? 200 then
    data <- json response ;;
    lift (get_default data (lit "data") (VList []))
  else
    (* Handle case where user has no pages *)
    ret (VList []).

Definition complete_oauth_flow (user_id : str) (code : value)
  : M (option flow_result) :=
  try_except
    ((* Exchange code for short-lived token *)
     token_data <- exchange_code_for_token code ;;
     access_token <- lift (subscript token_data (lit "access_token")) ;;
     (* Exchange for long-lived token *)
     long_lived_data <- get_long_lived_token access_token ;;
     long_lived_token <- lift (subscript long_lived_data (lit "access_token")) ;;
     expires_in <- lift (subscript long_lived_data (lit "expires_in")) ;;
     (* Get user information *)
     user_info <- get_user_info long_lived_token ;;
     meta_user_id <- lift (subscript user_info (lit "id")) ;;
     (* Get pages *)
     pages <- get_pages long_lived_token ;;
     (* Store tokens *)
     success <- store_user_token user_id meta_user_id long_lived_token
                                 expires_in pages ;;
     if negb success then ret None
     else ret (Some {| user_info := user_info; pages := pages |}))
    (fun e => st_error "Error completing OAuth flow" e ;; ret None).

End Methods.
End MetaAuth.


(* ===================================================================== *)
(** * src/utils.py                                                        *)
(* ===================================================================== *)

Module Utils.
Import Py.

(** Where configuration comes from: the process environment, and
    [st.secrets], whose subscript answers a value or raises. *)
Record Settings : Type := {
  environ : list (str * str);
  secrets : str -> result value
}.

(** [os.environ.get(key)] *)
Fixpoint environ_get (env : list (str * str)) (key : str) : option str :=
  match env with
  | [] => None
  | (k, v) :: r => if str_eqb k key then Some v else environ_get r key
  end.

Definition get_config (cfg : Settings) (key : str) (default : value)
  : result value :=
  (* First try environment variables (local development) *)
  let value := environ_get (environ cfg) key in
  (* If not found, try Streamlit secrets (production) *)
  match value with
  | Some v => Ok (VStr v)
  | None =>
      match secrets cfg key with
      | Ok v => Ok v
      | Raise (KeyError _) => Ok default
      | Raise TypeError => Ok default
      | Raise e => Raise e
      end
  end.

End Utils.

(* ===================================================================== *)
(** * src/auth.py, the other methods                                      *)
(* ===================================================================== *)

Module MetaAuthRest.
Import Py Eff TokenManager MetaAuth Utils.
Local Open Scope eff_scope.

(** [MetaAuth.__init__]: the three credentials, all of them truthy. *)
Definition init (cfg : Settings) : result MetaAuth.t :=
  match get_config cfg (lit "META_APP_ID") VNone with
  | Raise e => Raise e
  | Ok app_id =>
  match get_config cfg (lit "META_APP_SECRET") VNone with
  | Raise e => Raise e
  | Ok app_secret =>
  match get_config cfg (lit "REDIRECT_URI") VNone with
  | Raise e => Raise e
  | Ok redirect_uri =>
      if negb (truthy app_id && truthy app_secret && truthy redirect_uri)
      then Raise ValueError
      else Ok {| app_id := app_id; app_secret := app_secret;
                 redirect_uri := redirect_uri |}
  end end end.

(** [str(v)], as an f-string uses it.  Only its action on strings is
    fixed here: a string formats as itself. *)
Class Format : Type := {
  py_str : value -> str;
  py_str_string : forall s, py_str (VStr s) = s
}.

(** [sep.join(parts)] *)
Fixpoint join (sep : str) (parts : list str) : str :=
  match parts with
  | [] => []
  | p :: r =>
      match r with
      | [] => p
      | _ :: _ => p ++ sep ++ join sep r
      end
  end.

Definition auth_url : str := lit "https://www.facebook.com/v18.0/dialog/oauth".

Definition scope : str :=
  lit "pages_read_engagement,instagram_basic,instagram_manage_insights,business_management,ads_read".

Definition generate_auth_url {Fmt : Format} (self : MetaAuth.t)
    (state : value) : str :=
  let params :=
    [(lit "client_id", app_id self);
     (lit "redirect_uri", redirect_uri self);
     (lit "state", state);
     (lit "scope", VStr scope)] in
  (* Build the URL with query parameters *)
  let query_string :=
    join (lit "&")
      (map (fun kv => py_str (VStr (fst kv)) ++ lit "=" ++ py_str (snd kv))
           params) in
  auth_url ++ lit "?" ++ query_string.

(** The body of the loop in [get_instagram_accounts]: the account to
    append for this page, if any.  The right-hand side [page['id']] is
    evaluated before the assignment to [ig_account['page_id']]. *)
Definition account_of_page (page : value) : result (option value) :=
  match contains page (lit "instagram_business_account") with
  | Raise e => Raise e
  | Ok false => Ok None
  | Ok true =>
      match subscript page (lit "instagram_business_account") with
      | Raise e => Raise e
      | Ok ig_account =>
          match subscript page (lit "id") with
          | Raise e => Raise e
          | Ok page_id =>
              match set_item ig_account (lit "page_id") page_id with
              | Raise e => Raise e
              | Ok ig_account' => Ok (Some ig_account')
              end
          end
      end
  end.

(** The loop, with [accounts] as it grows. *)
Fixpoint collect_accounts (pages : list value) (accounts : list value)
  : result (list value) :=
  match pages with
  | [] => Ok accounts
  | page :: rest =>
      match account_of_page page with
      | Raise e => Raise e
      | Ok None => collect_accounts rest accounts
      | Ok (Some ig_account) => collect_accounts rest (accounts ++ [ig_account])
      end
  end.

(** [expiry_days * n]: a number is multiplied, a string or a list is
    repeated. *)
Definition mul (v : value) (n : Z) : result value :=
  match v with
  | VInt a => Ok (VInt (a * n))
  | VBool b => Ok (VInt ((if b then 1 else 0) * n))
  | VStr s => Ok (VStr (List.concat (repeat s (Z.to_nat n))))
  | VList l => Ok (VList (List.concat (repeat l (Z.to_nat n))))
  | _ => Raise TypeError
  end.

Section Methods.
Context {F : Fernet} {S : Schema}.

Definition get_instagram_accounts (access_token : value)
  : M (list value) :=
  try_except
    (response <- requests_get accounts_url
       [("access_token", access_token);
        ("fields", VStr (lit "instagram_business_account{id,name,username}"))
       ]%string ;;
     raise_for_status response ;;
     data <- json response ;;
     pages <- lift (get_default data (lit "data") (VList [])) ;;
     items <- lift (iterate pages) ;;
     lift (collect_accounts items []))
    (fun e => st_error "Error fetching Instagram accounts" e ;; ret []).

(** [expiry_days] defaults to 60. *)
Definition default_expiry_days : value := VInt 60.

Definition store_existing_token (user_id : str)
    (access_token expiry_days : value) : M bool :=
  try_except
    ((* Check if token is valid *)
     user_info <- get_user_info access_token ;;
     meta_user_id <- lift (subscript user_info (lit "id")) ;;
     (* Get pages *)
     pages <- get_pages access_token ;;
     (* Calculate expiry (typically 60 days for long-lived tokens) *)
     d24 <- lift (mul expiry_days 24) ;;
     d24_60 <- lift (mul d24 60) ;;
     expires_in <- lift (mul d24_60 60) ;;
     (* Store the token *)
     success <- store_user_token user_id meta_user_id access_token
                                 expires_in pages ;;
     ret success)
    (fun e => st_error "Error storing existing token" e ;; ret false).

End Methods.
End MetaAuthRest.

(* ===================================================================== *)
(** * src/streamlit_app.py: [make_api_call]                               *)
(* ===================================================================== *)

Module App.
Import Py Eff TokenManager MetaAuth.

(** The page adds to the world the plain messages [st.error(msg)] has
    shown. *)
Record Session : Type := {
  world : World;
  shown : list string
}.

Definition A (T : Type) : Type := Session -> result T * Session.

Definition ret_app {T} (a : T) : A T := fun s => (Ok a, s).

Definition bind_app {T U} (c : A T) (k : T -> A U) : A U :=
  fun s =>
    match c s with
    | (Ok a, s') => k a s'
    | (Raise e, s') => (Raise e, s')
    end.

(** A computation of the two modules, run on the world of the page. *)
Definition run {T} (c : M T) : A T :=
  fun s =>
    match c (world s) with
    | (r, w') => (r, {| world := w'; shown := shown s |})
    end.

(** [st.error(msg)] *)
Definition st_error_text (msg : string) : A unit :=
  fun s => (Ok tt, {| world := world s; shown := shown s ++ [msg] |}).

(** [not token_data or token_data.get('needs_reauth')] *)
Definition authentication_required (token_data : option fetched) : bool :=
  match token_data with
  | None => true
  | Some NeedsReauth => true
  | Some (Token d) => tok_needs_reauth d
  end.

(** [token_data['access_token']] *)
Definition access_token_of (token_data : option fetched) : result value :=
  match token_data with
  | Some (Token d) => Ok (tok_access_token d)
  | Some NeedsReauth => Raise (KeyError (lit "access_token"))
  | None => Raise TypeError
  end.

(** [params[key] = v] on the caller's dictionary. *)
Fixpoint set_param (params : list (string * value)) (key : string)
    (v : value) : list (string * value) :=
  match params with
  | [] => [(key, v)]
  | (k, x) :: r =>
      if String.eqb k key then (k, v) :: r else (k, x) :: set_param r key v
  end.

Definition graph_url : string := "https://graph.facebook.com/v18.0/".

Section Methods.
Context {F : Fernet} {S : Schema}.

(** [user_id] is [st.session_state.user_id]. *)
Definition make_api_call (user_id : str) (endpoint : string)
    (params : list (string * value)) : A (option value) :=
  bind_app (run (get_user_token user_id)) (fun token_data =>
  if authentication_required token_data then
    bind_app (st_error_text "Authentication required") (fun _ =>
    ret_app None)
  else
    bind_app (run (Eff.lift (access_token_of token_data))) (fun token =>
    let params := set_param params "access_token" token in
    run (try_except
           (Eff.bind (requests_get (graph_url ++ endpoint) params)
              (fun response =>
            Eff.bind (raise_for_status response) (fun _ =>
            Eff.bind (json response) (fun r =>
            Eff.ret (Some r)))))
           (fun e =>
            Eff.bind (st_error "API call failed" e) (fun _ =>
            Eff.ret None))))).

End Methods.
End App.

(* ===================================================================== *)
(** * Vocabulary of the statements                                        *)
(* ===================================================================== *)

(** The definitions the theorems are stated with: frames and traces,
    the runs of the driver, the bodies of the [try] blocks under their own
    names, the remote half of the flow as a function of the replies, and a
    small deployment to run the model on. *)

Module Terms.
Import Py Eff TokenManager MetaAuth.
Local Open Scope eff_scope.

(** [stable R c]: every run of [c] relates the worlds before and after by
    [R], whether it returns or raises. *)
Definition stable (R : World -> World -> Prop) {A} (c : M A) : Prop :=
  forall w, R w (snd (c w)).

Class Preorder (R : World -> World -> Prop) : Prop := {
  pre_refl : forall w, R w w;
  pre_trans : forall w1 w2 w3, R w1 w2 -> R w2 w3 -> R w1 w3
}.

(** [keeps f]: the observation [f] of the world is the same afterwards. *)
Definition keeps {X} (f : World -> X) (w w' : World) : Prop := f w' = f w.

(** [grows P]: the trace gained events, all of them satisfying [P]. *)
Definition grows (P : event -> bool) (w w' : World) : Prop :=
  exists tr, trace w' = trace w ++ tr /\ forallb P tr = true.

(** Everything but the entropy source and the trace. *)
Definition outside_vault (w : World) :=
  (table w, py_clock w, db_clock w, log w, db_script w, http_script w).

Definition vault_event (ev : event) : bool :=
  match ev with
  | EvEncrypt _ | EvDecrypt _ => true
  | _ => false
  end.

(** A vault for running the model: a token is a version letter followed
    by two letters per octet, first of the plaintext and then of a check
    octet computed from it.  A token whose check octet does not fit its
    plaintext is rejected. *)
Fixpoint unhex (bs : bytes) : option bytes :=
  match bs with
  | [] => Some []
  | a :: r =>
      match r with
      | b :: r' =>
          if (97 <=? a) && (a <? 113) && (97 <=? b) && (b <? 113)
          then push ((a - 97) * 16 + (b - 97)) (unhex r')
          else None
      | [] => None
      end
  end.

Definition hex (p : bytes) : bytes :=
  flat_map (fun b => [97 + (b / 16) mod 16; 97 + b mod 16]) p.

Definition demo_tag (p : bytes) : Z :=
  fold_right (fun b a => (b + 3 * a + 1) mod 256) 0 p.

Definition demo_encrypt (r : Z) (p : bytes) : bytes :=
  (65 + r mod 26) :: hex (p ++ [demo_tag p]).

Definition demo_decrypt (t : bytes) : option bytes :=
  match t with
  | v :: r =>
      if (65 <=? v) && (v <? 91) then
        match unhex r with
        | Some q =>
            match q with
            | [] => None
            | _ :: _ =>
                if last q 0 =? demo_tag (removelast q)
                then Some (removelast q) else None
            end
        | None => None
        end
      else None
  | [] => None
  end.


Definition world0 : World := {|
  table := []; py_clock := 0; db_clock := 0; db_script := [];
  http_script := []; entropy := []; log := []; trace := []
|}.

(** The row the [UPDATE] branch of the [MERGE] leaves for [u]. *)
Definition updated_row (now : Z) (u : str) (meta tok : value) (exp : Z)
    (pages : option value) : Row :=
  {| USER_ID := u; META_USER_ID := meta; ACCESS_TOKEN := tok;
     TOKEN_EXPIRY := Some exp; PAGES := pages;
     NEEDS_REAUTH := Some false; LAST_REFRESHED := Some now |}.

(** [UPDATE ... SET NEEDS_REAUTH = TRUE]: the row with the flag set. *)
Definition flagged (r : Row) : Row :=
  {| USER_ID := USER_ID r; META_USER_ID := META_USER_ID r;
     ACCESS_TOKEN := ACCESS_TOKEN r; TOKEN_EXPIRY := TOKEN_EXPIRY r;
     PAGES := PAGES r; NEEDS_REAUTH := Some true;
     LAST_REFRESHED := LAST_REFRESHED r |}.

(** The table is keyed by user: at most one row each. *)
Definition keyed (t : list Row) : Prop :=
  forall v, (List.length (select v t) <= 1)%nat.

(** The fault the [i]-th driver call from now meets, if any. *)
Definition fault_at (w : World) (i : nat) : option exn :=
  match nth_error (db_script w) i with
  | Some (Some e) => Some e
  | _ => None
  end.

Definition after_db_call (w : World) : World :=
  with_db_script (tl (db_script w)) w.

(** The events a call of [store_user_token] records after its own. *)
Definition store_event (ev : event) : bool :=
  match ev with
  | EvEncrypt _ | EvDecrypt _ | EvSql (Merge _ _ _ _ _) => true
  | _ => false
  end.

(** The four driver calls of the read go through. *)
Definition read_ok (w : World) : Prop :=
  fault_at w 0 = None /\ fault_at w 1 = None /\
  fault_at w 2 = None /\ fault_at w 3 = None.

(** The world once the row has been read. *)
Definition after_read (u : str) (w : World) : World :=
  with_trace (trace w ++ [EvSql (Select u)])
    (with_db_script (tl (tl (tl (tl (db_script w))))) w).

(** A computation whose answer does not depend on the world. *)
Definition pure_result {A} (c : M A) : Prop :=
  forall w1 w2, fst (c w1) = fst (c w2).

Section WithVault.
Context {F : Fernet} {S : Schema}.

(** The row its [INSERT] branch adds. *)
Definition inserted_row (now : Z) (u : str) (meta tok : value) (exp : Z)
    (pages : option value) : Row :=
  {| USER_ID := u; META_USER_ID := meta; ACCESS_TOKEN := tok;
     TOKEN_EXPIRY := Some exp; PAGES := pages;
     NEEDS_REAUTH := default_needs_reauth;
     LAST_REFRESHED := default_last_refreshed now |}.

(** What a statement does once the driver has accepted it. *)
Definition run_sql (q : sql) (w : World) : result (list Row) * World :=
  match q with
  | Merge u meta tok exp pages =>
      (Ok [], with_table (merge (db_clock w) u meta tok exp pages (table w)) w)
  | Select u => (Ok (select u (table w)), w)
  | UpdateReauth u => (Ok [], with_table (update_reauth u (table w)) w)
  end.

(** The body of the [try] in [store_user_token]. *)
Definition store_body (user_id : str)
    (meta_user_id access_token expires_in pages : value) : M bool :=
  _get_snowflake_connection ;;
  cursor ;;
  encrypted_token <- encrypt_token access_token ;;
  now <- datetime_now ;;
  delta <- lift (timedelta_seconds expires_in) ;;
  expiry_date <- lift (datetime_add now delta) ;;
  encrypted_pages <- encrypt_pages pages ;;
  execute (Merge user_id meta_user_id encrypted_token expiry_date
                 encrypted_pages) ;;
  close ;;
  ret true.

(** The [MERGE] ran: with which values, and under which conditions. *)
Definition written (u : str) (m tok exp pages : value) (w w' : World) : Prop :=
  exists enc delta t ep wa wb wc wd,
    encrypt_token tok wa = (Ok enc, wb) /\
    timedelta_seconds exp = Ok delta /\
    datetime_add (py_clock w) delta = Ok t /\
    encrypt_pages pages wc = (Ok ep, wd) /\
    table w' = merge (db_clock w) u m enc t ep (table w) /\
    fault_at w 0 = None /\ fault_at w 1 = None /\ fault_at w 2 = None.

(** What the method does with the fetched record. *)
Definition on_record (record : option Row) : M (option fetched) :=
  match record with
  | None => ret None
  | Some r =>
      if flag_set (NEEDS_REAUTH r) then ret (Some NeedsReauth)
      else
        expired <-
          match TOKEN_EXPIRY r with
          | None => ret false
          | Some t => now <- datetime_now ;; ret (t <? now)
          end ;;
        if expired then
          _mark_token_for_reauth (USER_ID r) ;;
          ret (Some NeedsReauth)
        else
          token <- decrypt_token (ACCESS_TOKEN r) ;;
          pages <- decrypt_pages (pages_cell (PAGES r)) ;;
          ret (Some (Token {|
            tok_user_id := USER_ID r;
            tok_meta_user_id := META_USER_ID r;
            tok_access_token := token;
            tok_token_expiry := TOKEN_EXPIRY r;
            tok_pages := pages;
            tok_needs_reauth := false |}))
  end.

(** The body of the [try] in [get_user_token]. *)
Definition get_body (user_id : str) : M (option fetched) :=
  _get_snowflake_connection ;;
  cursor ;;
  rows <- execute (Select user_id) ;;
  let record := fetchone rows in
  close ;;
  on_record record.

(** The decrypting half of [on_record]. *)
Definition decrypt_record (r : Row) : M (option fetched) :=
  token <- decrypt_token (ACCESS_TOKEN r) ;;
  pages <- decrypt_pages (pages_cell (PAGES r)) ;;
  ret (Some (Token {|
    tok_user_id := USER_ID r;
    tok_meta_user_id := META_USER_ID r;
    tok_access_token := token;
    tok_token_expiry := TOKEN_EXPIRY r;
    tok_pages := pages;
    tok_needs_reauth := false |})).

End WithVault.

(** A deployment for running the model: the flag defaults to [FALSE],
    the refresh time to the time of the insert, and a [PAGES] cell comes
    back as the document that was written. *)
Definition demo_schema : Schema := {|
  default_needs_reauth := Some false;
  default_last_refreshed := fun now => Some now;
  variant_cell := fun v => v
|}.

(** All the fields of a row but the flag are as they were, and the flag
    can only have been set, and only on a row of [u]. *)
Definition only_flag (u : str) (r r' : Row) : Prop :=
  USER_ID r' = USER_ID r /\ META_USER_ID r' = META_USER_ID r /\
  ACCESS_TOKEN r' = ACCESS_TOKEN r /\ TOKEN_EXPIRY r' = TOKEN_EXPIRY r /\
  PAGES r' = PAGES r /\ LAST_REFRESHED r' = LAST_REFRESHED r /\
  (NEEDS_REAUTH r' = NEEDS_REAUTH r \/
   (USER_ID r = u /\ NEEDS_REAUTH r' = Some true)).

Definition u1 : str := lit "u1".

Definition page_one : value :=
  VDict [(VStr (lit "id"), VStr (lit "p1"));
         (VStr (lit "name"), VStr (lit "Page One"));
         (VStr (lit "category"), VStr (lit "Media"));
         (VStr (lit "access_token"), VStr (lit "page-secret"))].

Definition demo_ciphertext : value :=
  match utf8_encode (lit "tok-abc") with
  | Ok data => VStr (demo_encrypt 7 data)
  | Raise _ => VNone
  end.




(** The world once a request has been sent and its reply consumed. *)
Definition sent (ev : event) (w : World) : World :=
  with_http_script (tl (http_script w)) (with_trace (trace w ++ [ev]) w).

Definition sent_all (evs : list event) (w : World) : World :=
  fold_left (fun w ev => sent ev w) evs w.

(** What [requests.get] makes of the next reply. *)
Definition answer (o : option reply) : result response :=
  match o with
  | None => Raise ConnectionError
  | Some (NoReply e) => Raise e
  | Some (Reply st b) => Ok {| status_code := st; body := b |}
  end.

(** What a stage that ends in [raise_for_status(); return response.json()]
    makes of it. *)
Definition stage_json (o : option reply) : result value :=
  match answer o with
  | Raise e => Raise e
  | Ok r =>
      if (400 <=? status_code r) && (status_code r <? 600)
      then Raise (HTTPError (status_code r))
      else match body r with
           | Some v => Ok v
           | None => Raise JSONDecodeError
           end
  end.

(** What [get_pages] makes of it. *)
Definition stage_pages (o : option reply) : result value :=
  match answer o with
  | Raise e => Raise e
  | Ok r =>
      if status_code r =? 200 then
        match body r with
        | Some v => get_default v (lit "data") (VList [])
        | None => Raise JSONDecodeError
        end
      else Ok (VList [])
  end.

(** The four requests of the flow, as events. *)
Definition get_code (self : MetaAuth.t) (code : value) : event :=
  EvGet token_url
    [("client_id", app_id self); ("client_secret", app_secret self);
     ("redirect_uri", redirect_uri self); ("code", code)]%string.

Definition get_long_lived (self : MetaAuth.t) (access_token : value) : event :=
  EvGet token_url
    [("grant_type", VStr (lit "fb_exchange_token"));
     ("client_id", app_id self); ("client_secret", app_secret self);
     ("fb_exchange_token", access_token)]%string.

Definition get_me (access_token : value) : event :=
  EvGet me_url
    [("access_token", access_token);
     ("fields", VStr (lit "id,name,email"))]%string.

Definition get_accounts (access_token : value) : event :=
  EvGet accounts_url
    [("access_token", access_token);
     ("fields", VStr (lit
        "id,name,access_token,category,instagram_business_account{id,name,username}"))
    ]%string.

(** What the four remote stages accumulate. *)
Record accumulated : Type := {
  acc_token : value;         (* long_lived_token *)
  acc_expires_in : value;
  acc_user_info : value;
  acc_meta_user_id : value;
  acc_pages : value
}.

(** The remote half of [complete_oauth_flow] as a function of the replies:
    the requests made, and what they gave. *)
Definition remote (self : MetaAuth.t) (code : value) (s : list reply)
  : list event * result accumulated :=
  let g1 := get_code self code in
  match stage_json (nth_error s 0) with
  | Raise e => ([g1], Raise e)
  | Ok token_data =>
  match subscript token_data (lit "access_token") with
  | Raise e => ([g1], Raise e)
  | Ok access_token =>
  let g2 := get_long_lived self access_token in
  match stage_json (nth_error s 1) with
  | Raise e => ([g1; g2], Raise e)
  | Ok long_lived_data =>
  match subscript long_lived_data (lit "access_token") with
  | Raise e => ([g1; g2], Raise e)
  | Ok long_lived_token =>
  match subscript long_lived_data (lit "expires_in") with
  | Raise e => ([g1; g2], Raise e)
  | Ok expires_in =>
  let g3 := get_me long_lived_token in
  match stage_json (nth_error s 2) with
  | Raise e => ([g1; g2; g3], Raise e)
  | Ok user_info =>
  match subscript user_info (lit "id") with
  | Raise e => ([g1; g2; g3], Raise e)
  | Ok meta_user_id =>
  let g4 := get_accounts long_lived_token in
  match stage_pages (nth_error s 3) with
  | Raise e => ([g1; g2; g3; g4], Raise e)
  | Ok pages =>
      ([g1; g2; g3; g4],
       Ok {| acc_token := long_lived_token; acc_expires_in := expires_in;
             acc_user_info := user_info; acc_meta_user_id := meta_user_id;
             acc_pages := pages |})
  end end end end end end end end.

(** The specification's notion of a failed remote call: "network error,
    non-2xx response, malformed JSON". *)
Definition spec_remote_failure (o : option reply) : bool :=
  match o with
  | None => true
  | Some (NoReply _) => true
  | Some (Reply st b) =>
      negb ((200 <=? st) && (st <? 300))
      || match b with None => true | Some _ => false end
  end.

Definition is_get (ev : event) : bool :=
  match ev with EvGet _ _ => true | _ => false end.

Definition is_upsert (ev : event) : bool :=
  match ev with EvUpsert _ _ _ _ _ => true | _ => false end.

Definition demo_app : MetaAuth.t := {|
  app_id := VStr (lit "app");
  app_secret := VStr (lit "secret");
  redirect_uri := VStr (lit "https://example.org/cb")
|}.

Definition short_lived_reply : reply :=
  Reply 200 (Some (VDict [(VStr (lit "access_token"), VStr (lit "short"))])).

Definition long_lived_reply : reply :=
  Reply 200 (Some (VDict [(VStr (lit "access_token"), VStr (lit "long"));
                          (VStr (lit "expires_in"), VInt 5184000)])).

Definition identity_reply : reply :=
  Reply 200 (Some (VDict [(VStr (lit "id"), VStr (lit "fb123"));
                          (VStr (lit "name"), VStr (lit "Ada"))])).

Definition no_token_reply : reply :=
  Reply 200 (Some (VDict [(VStr (lit "error"), VStr (lit "denied"))])).

(** The accounts endpoint answers 500 to the fourth request. *)
Definition replies_pages_500 : list reply :=
  [short_lived_reply; long_lived_reply; identity_reply; Reply 500 None].

(** The accounts endpoint does not answer at all. *)
Definition replies_pages_down : list reply :=
  [short_lived_reply; long_lived_reply; identity_reply;
   NoReply ConnectionError].

End Terms.

(* ===================================================================== *)
(** * More vocabulary                                                     *)
(* ===================================================================== *)

Module MoreTerms.
Import Py Eff TokenManager MetaAuth Utils MetaAuthRest App Terms.
Local Open Scope eff_scope.

(** The key every page token is stored under. *)
Definition token_key : str := lit "access_token".

Definition is_dict (v : value) : bool :=
  match v with VDict _ => true | _ => false end.

(** A page as the accounts endpoint sends it: a dictionary whose
    [access_token], if it has one, is a string Python can encode. *)
Definition page_ok (p : value) : bool :=
  match p with
  | VDict d =>
      match dict_get d (VStr token_key) with
      | None => true
      | Some (VStr s) => forallb is_scalar s
      | Some _ => false
      end
  | _ => false
  end.

(** What Python sees of a fetched [PAGES] cell: [None] for an argument of
    [store_user_token] that was falsy, the argument otherwise. *)
Definition pages_back (pages : value) : value :=
  if truthy pages then pages else VNone.

(** The pages [store_user_token] is given by its callers: nothing (any
    falsy value), or a list of dictionaries. *)
Definition pages_shape (pages : value) : bool :=
  match pages with
  | VList ps => forallb is_dict ps
  | v => negb (truthy v)
  end.

(** Events that are not requests. *)
Definition no_get (ev : event) : bool := negb (is_get ev).

Section WithVault.
Context {F : Fernet}.

(** [e] is the stored form of the page [p]: the page itself when it has no
    token, and otherwise the page with the Fernet token of the UTF-8 of
    its [access_token] in place of it. *)
Definition encrypted_form (p e : value) : Prop :=
  exists d,
    p = VDict d /\
    ((dict_get d (VStr token_key) = None /\ e = p) \/
     (exists s data r,
        dict_get d (VStr token_key) = Some (VStr s) /\
        utf8_encode s = Ok data /\
        e = VDict (dict_set d (VStr token_key)
                     (VStr (fernet_encrypt r data))))).



(** [p] is what [get_user_token] returns for the stored page [e]: the
    dictionary [dict(e)], with the decryption of its [access_token], if
    it has one, in place of it. *)
Definition decrypted_form (e p : value) : Prop :=
  exists d,
    dict e = Ok (VDict d) /\
    match dict_get d (VStr token_key) with
    | None => p = VDict d
    | Some old =>
        exists x, (forall w, fst (decrypt_token old w) = Ok x) /\
                  p = VDict (dict_set d (VStr token_key) x)
    end.

(** [pages] is what [get_user_token] returns for the [PAGES] cell as
    Python sees it: [None] for a falsy cell, and otherwise the list of
    the decrypted forms of its items. *)
Definition fetched_pages (cell pages : value) : Prop :=
  if truthy cell then
    exists items ps,
      iterate cell = Ok items /\ pages = VList ps /\
      Forall2 decrypted_form items ps
  else pages = VNone.

End WithVault.

(** A record past its expiry, not flagged yet. *)
Definition row_expired : Row := {|
  USER_ID := u1; META_USER_ID := VStr (lit "fb123");
  ACCESS_TOKEN := demo_ciphertext; TOKEN_EXPIRY := Some 1000;
  PAGES := None; NEEDS_REAUTH := Some false; LAST_REFRESHED := Some 10
|}.

(** ** [store_existing_token] *)

(** [expiry_days * 24 * 60 * 60] *)
Definition seconds_of_days (expiry_days : value) : result value :=
  match mul expiry_days 24 with
  | Raise e => Raise e
  | Ok a =>
      match mul a 60 with
      | Raise e => Raise e
      | Ok b => mul b 60
      end
  end.

(** The remote half of [store_existing_token] as a function of the
    replies: the requests made, and the identity and pages they gave. *)
Definition checked (access_token : value) (s : list reply)
  : list event * result (value * value) :=
  let g1 := get_me access_token in
  match stage_json (nth_error s 0) with
  | Raise e => ([g1], Raise e)
  | Ok user_info =>
  match subscript user_info (lit "id") with
  | Raise e => ([g1], Raise e)
  | Ok meta_user_id =>
  let g2 := get_accounts access_token in
  match stage_pages (nth_error s 1) with
  | Raise e => ([g1; g2], Raise e)
  | Ok pages => ([g1; g2], Ok (meta_user_id, pages))
  end end end.

(** ** [get_instagram_accounts] *)

Definition account_key : str := lit "instagram_business_account".

(** The request of [get_instagram_accounts], as an event. *)
Definition get_instagram (access_token : value) : event :=
  EvGet accounts_url
    [("access_token", access_token);
     ("fields", VStr (lit "instagram_business_account{id,name,username}"))
    ]%string.

(** What the body of its [try] makes of the reply. *)
Definition instagram_result (o : option reply) : result (list value) :=
  match stage_json o with
  | Raise e => Raise e
  | Ok data =>
      match get_default data (lit "data") (VList []) with
      | Raise e => Raise e
      | Ok pages =>
          match iterate pages with
          | Raise e => Raise e
          | Ok items => collect_accounts items []
          end
      end
  end.

(** The page is a dictionary with an Instagram account. *)
Definition has_account (page : value) : bool :=
  match page with
  | VDict d =>
      match dict_get d (VStr account_key) with
      | Some _ => true
      | None => false
      end
  | _ => false
  end.

(** A page the loop can handle: a dictionary that has no Instagram
    account, or one that is a dictionary together with an [id]. *)
Definition account_page_ok (page : value) : bool :=
  match page with
  | VDict d =>
      match dict_get d (VStr account_key) with
      | None => true
      | Some (VDict _) =>
          match dict_get d (VStr (lit "id")) with
          | Some _ => true
          | None => false
          end
      | Some _ => false
      end
  | _ => false
  end.

(** [a] is the account of the page [p], with the id of the page under
    [page_id]. *)
Definition account_with_page_id (p a : value) : Prop :=
  exists d acc pid,
    p = VDict d /\
    dict_get d (VStr account_key) = Some (VDict acc) /\
    dict_get d (VStr (lit "id")) = Some pid /\
    a = VDict (dict_set acc (VStr (lit "page_id")) pid).

(** ** [MetaAuth.__init__] and [generate_auth_url] *)

(** Where a credential of a constructed [MetaAuth] came from. *)
Definition credential (cfg : Settings) (key : str) (v : value) : Prop :=
  truthy v = true /\
  match environ_get (environ cfg) key with
  | Some s => v = VStr s /\ s <> []
  | None => secrets cfg key = Ok v
  end.

Section WithFormat.
Context {Fmt : Format}.

(** What comes before the state in the URL. *)
Definition before_state (self : MetaAuth.t) : str :=
  auth_url ++ lit "?" ++ lit "client_id" ++ lit "=" ++ py_str (app_id self)
  ++ lit "&" ++ lit "redirect_uri" ++ lit "=" ++ py_str (redirect_uri self)
  ++ lit "&" ++ lit "state" ++ lit "=".

(** What comes after it. *)
Definition after_state : str :=
  lit "&" ++ lit "scope" ++ lit "=" ++ scope.

End WithFormat.

(** The request of [make_api_call], as an event. *)
Definition api_get (endpoint : string) (params : list (string * value))
    (token : value) : event :=
  EvGet (graph_url ++ endpoint) (set_param params "access_token" token).

(** ** Small inputs to run the methods on *)

(** [page_one] as the store holds it: its [access_token] is a token of
    the demonstration vault. *)
Definition page_one_stored : value :=
  match page_one, utf8_encode (lit "page-secret") with
  | VDict d, Ok data =>
      VDict (dict_set d (VStr token_key) (VStr (demo_encrypt 3 data)))
  | v, _ => v
  end.

(** A record without expiry and with one page. *)
Definition row_with_pages : Row := {|
  USER_ID := u1; META_USER_ID := VStr (lit "fb123");
  ACCESS_TOKEN := demo_ciphertext; TOKEN_EXPIRY := None;
  PAGES := Some (VList [page_one_stored]);
  NEEDS_REAUTH := None; LAST_REFRESHED := None
|}.


(** The driver answers [connect], [cursor] and [execute], and fails at
    [conn.close()]. *)
Definition world_close_fails : World :=
  with_db_script [None; None; None; Some (DatabaseError 250002)] world0.



(** The accounts endpoint answers with the given pages. *)
Definition accounts_reply (pages : list value) : reply :=
  Reply 200 (Some (VDict [(VStr (lit "data"), VList pages)])).

(** The replies to the two requests of [store_existing_token]. *)
Definition replies_existing : list reply :=
  [identity_reply; accounts_reply [page_one]].

(** The replies to the four requests of the flow. *)
Definition replies_flow : list reply :=
  [short_lived_reply; long_lived_reply; identity_reply;
   accounts_reply [page_one]].

Definition instagram_one : list (value * value) :=
  [(VStr (lit "id"), VStr (lit "ig1"));
   (VStr (lit "username"), VStr (lit "ada"))].

Definition page_with_account : value :=
  VDict [(VStr (lit "id"), VStr (lit "p1"));
         (VStr account_key, VDict instagram_one)].

Definition page_plain : value :=
  VDict [(VStr (lit "id"), VStr (lit "p2"))].

(** A page with an account and no [id]. *)
Definition page_without_id : list (value * value) :=
  [(VStr account_key, VDict [(VStr (lit "id"), VStr (lit "ig3"))])].

(** Secrets that hold a value under every key. *)
Definition demo_secrets : str -> result value :=
  fun key => Ok (VStr (lit "from-secrets")).

(** The application id is set in the environment, to the empty string. *)
Definition cfg_empty_id : Settings := {|
  environ := [(lit "META_APP_ID", [])];
  secrets := demo_secrets
|}.

(** The application id is in the environment, the rest in the secrets. *)
Definition cfg_mixed : Settings := {|
  environ := [(lit "META_APP_ID", lit "app")];
  secrets := demo_secrets
|}.

End MoreTerms.
(* ===================================================================== *)
(** * Facts about the codec                                               *)
(* ===================================================================== *)

Module Codec.
Import Py.

Lemma is_scalar_spec c :
  is_scalar c = true <-> 0 <= c < 0x110000 /\ ~ (0xD800 <= c <= 0xDFFF).
Proof. unfold is_scalar. lia. Qed.

Ltac decide_tests :=
  repeat match goal with
    | |- context [?a <? ?b] => destruct (Z.ltb_spec a b)
    | |- context [?a <=? ?b] => destruct (Z.leb_spec a b)
    end.

Lemma decode_encode_cp c r :
  is_scalar c = true ->
  utf8_decode (encode_cp c ++ r) = push c (utf8_decode r).
Proof.
  intros Hc. apply is_scalar_spec in Hc. unfold encode_cp.
  destruct (Z.ltb_spec c 0x80); [|destruct (Z.ltb_spec c 0x800);
    [|destruct (Z.ltb_spec c 0x10000)]]; cbn [app utf8_decode].
  - decide_tests; try lia. reflexivity.
  - set (q := c / 64). set (m := c mod 64).
    assert (c = 64 * q + m /\ 0 <= m < 64) as [E Hm]
      by (subst q m; split; [apply Z.div_mod; lia | apply Z.mod_pos_bound; lia]).
    replace ((0xC0 + q - 0xC0) * 64 + (0x80 + m - 0x80)) with c by lia.
    unfold is_cont. decide_tests; try lia. reflexivity.
  - set (q := c / 4096). set (m1 := (c / 64) mod 64). set (m0 := c mod 64).
    assert (c = 4096 * q + 64 * m1 + m0 /\ 0 <= m1 < 64 /\ 0 <= m0 < 64)
      as (E & H1' & H0') by (subst q m1 m0; Z.to_euclidean_division_equations; lia).
    replace ((0xE0 + q - 0xE0) * 4096 + (0x80 + m1 - 0x80) * 64
             + (0x80 + m0 - 0x80)) with c by lia.
    assert (Hs : is_scalar c = true) by (apply is_scalar_spec; lia).
    rewrite Hs. unfold is_cont. decide_tests; try lia. reflexivity.
  - set (q := c / 262144). set (m2 := (c / 4096) mod 64).
    set (m1 := (c / 64) mod 64). set (m0 := c mod 64).
    assert (c = 262144 * q + 4096 * m2 + 64 * m1 + m0
            /\ 0 <= m2 < 64 /\ 0 <= m1 < 64 /\ 0 <= m0 < 64)
      as (E & H2' & H1' & H0') by (subst q m2 m1 m0; Z.to_euclidean_division_equations; lia).
    replace ((0xF0 + q - 0xF0) * 262144 + (0x80 + m2 - 0x80) * 4096
             + (0x80 + m1 - 0x80) * 64 + (0x80 + m0 - 0x80)) with c by lia.
    assert (Hs : is_scalar c = true) by (apply is_scalar_spec; lia).
    rewrite Hs. unfold is_cont. decide_tests; try lia. reflexivity.
Qed.

Lemma encode_cp_bytes c :
  is_scalar c = true -> Forall (fun b => is_byte b = true) (encode_cp c).
Proof.
  intros Hc. apply is_scalar_spec in Hc. unfold encode_cp, is_byte.
  destruct (Z.ltb_spec c 0x80); [|destruct (Z.ltb_spec c 0x800);
    [|destruct (Z.ltb_spec c 0x10000)]];
    repeat constructor; Z.to_euclidean_division_equations; lia.
Qed.

(** Whatever [encode] returns is a sequence of octets. *)
Lemma utf8_encode_bytes s bs :
  utf8_encode s = Ok bs -> Forall (fun b => is_byte b = true) bs.
Proof.
  revert bs. induction s as [|c s IH]; cbn [utf8_encode]; intros bs E.
  - injection E as <-. constructor.
  - destruct (is_scalar c) eqn:Hc; [|discriminate].
    destruct (utf8_encode s) as [bs'|e]; [|discriminate].
    injection E as <-. apply Forall_app. split; [apply encode_cp_bytes|]; auto.
Qed.

(** Encoding a string of scalar values succeeds, and decoding the octets
    gives the string back. *)
Lemma utf8_roundtrip s :
  valid_utf8 s ->
  exists bs, utf8_encode s = Ok bs /\ utf8_decode bs = Some s.
Proof.
  induction 1 as [|c s Hc _ (bs & E & D)]; cbn [utf8_encode].
  - exists []. split; reflexivity.
  - rewrite Hc, E. exists (encode_cp c ++ bs). split; [reflexivity|].
    rewrite decode_encode_cp, D by assumption. reflexivity.
Qed.

(** What [encode] accepts is a string of scalar values. *)
Lemma utf8_encode_valid s bs : utf8_encode s = Ok bs -> valid_utf8 s.
Proof.
  revert bs. induction s as [|c s IH]; cbn [utf8_encode]; intros bs E.
  - constructor.
  - destruct (is_scalar c) eqn:Hc; [|discriminate].
    destruct (utf8_encode s) as [bs'|e]; [|discriminate].
    constructor; [exact Hc | eapply IH; reflexivity].
Qed.

Lemma utf8_decode_encode s bs :
  utf8_encode s = Ok bs -> utf8_decode bs = Some s.
Proof.
  intros E. destruct (utf8_roundtrip s (utf8_encode_valid s bs E))
    as (bs' & E' & D).
  rewrite E in E'. injection E' as <-. exact D.
Qed.

(** ASCII octets and ASCII strings are the same lists. *)
Lemma utf8_decode_ascii bs :
  Forall (fun b => is_ascii_byte b = true) bs -> utf8_decode bs = Some bs.
Proof.
  induction 1 as [|b bs Hb _ IH]; [reflexivity|].
  unfold is_ascii_byte in Hb. cbn [utf8_decode]. rewrite IH.
  decide_tests; try lia. reflexivity.
Qed.

Lemma utf8_encode_ascii bs :
  Forall (fun b => is_ascii_byte b = true) bs -> utf8_encode bs = Ok bs.
Proof.
  induction 1 as [|b bs Hb _ IH]; [reflexivity|].
  unfold is_ascii_byte in Hb. cbn [utf8_encode]. rewrite IH.
  unfold is_scalar, encode_cp. decide_tests; try lia. reflexivity.
Qed.

(** The decoder is strict, so it has one preimage only: what decodes to a
    string is the encoding of that string. *)
Lemma push_some c o s :
  push c o = Some s -> exists s', o = Some s' /\ s = c :: s'.
Proof.
  destruct o as [s'|]; cbn; [|discriminate].
  intros E. injection E as <-. eauto.
Qed.




End Codec.
(* ===================================================================== *)
(** * Reasoning about runs                                                *)
(* ===================================================================== *)

Module Run.
Import Py Eff TokenManager Terms Codec.
Local Open Scope eff_scope.

(** ** Inversion of the combinators *)

Lemma bind_step {A B} (c : M A) (k : A -> M B) w a w1 :
  c w = (Ok a, w1) -> bind c k w = k a w1.
Proof. unfold bind. intros ->. reflexivity. Qed.

Lemma bind_abort {A B} (c : M A) (k : A -> M B) w e w1 :
  c w = (Raise e, w1) -> bind c k w = (Raise e, w1).
Proof. unfold bind. intros ->. reflexivity. Qed.

Lemma try_ok {A} (c : M A) h w a w1 :
  c w = (Ok a, w1) -> try_except c h w = (Ok a, w1).
Proof. unfold try_except. intros ->. reflexivity. Qed.

Lemma try_caught {A} (c : M A) h w e w1 :
  c w = (Raise e, w1) -> try_except c h w = h e w1.
Proof. unfold try_except. intros ->. reflexivity. Qed.

(** ** Frames: what a computation leaves alone *)

Section Stable.
Context (R : World -> World -> Prop) {HR : Preorder R}.

Lemma stable_ret {A} (a : A) : stable R (ret a).
Proof. intros w. apply pre_refl. Qed.

Lemma stable_raise {A} e : stable R (@raise A e).
Proof. intros w. apply pre_refl. Qed.

Lemma stable_lift {A} (r : result A) : stable R (lift r).
Proof. intros w. apply pre_refl. Qed.

Lemma stable_bind {A B} (c : M A) (k : A -> M B) :
  stable R c -> (forall a, stable R (k a)) -> stable R (bind c k).
Proof.
  intros Hc Hk w. unfold bind. specialize (Hc w).
  destruct (c w) as [[a|e] w1]; cbn [snd] in *; [|exact Hc].
  eapply pre_trans; [exact Hc | apply Hk].
Qed.

Lemma stable_try {A} (c : M A) h :
  stable R c -> (forall e, stable R (h e)) -> stable R (try_except c h).
Proof.
  intros Hc Hh w. unfold try_except. specialize (Hc w).
  destruct (c w) as [[a|e] w1]; cbn [snd] in *; [exact Hc|].
  eapply pre_trans; [exact Hc | apply Hh].
Qed.

Lemma stable_for_each {A B} (f : A -> M B) l :
  (forall a, stable R (f a)) -> stable R (for_each f l).
Proof.
  intros Hf. induction l as [|a l IH]; cbn [for_each].
  - apply stable_ret.
  - apply stable_bind; [apply Hf|]. intros b.
    apply stable_bind; [exact IH|]. intros bs. apply stable_ret.
Qed.

Lemma stable_if {A} (b : bool) (c1 c2 : M A) :
  stable R c1 -> stable R c2 -> stable R (if b then c1 else c2).
Proof. destruct b; auto. Qed.

End Stable.

#[export] Instance keeps_preorder {X} (f : World -> X) : Preorder (keeps f).
Proof. split; unfold keeps; congruence. Qed.

#[export] Instance grows_preorder P : Preorder (grows P).
Proof.
  split.
  - intros w. exists []. rewrite app_nil_r. auto.
  - intros w1 w2 w3 (t1 & E1 & H1) (t2 & E2 & H2). exists (t1 ++ t2).
    rewrite E2, E1, app_assoc, forallb_app, H1, H2. auto.
Qed.

Ltac prim :=
  let w := fresh "w" in
  intros w; destruct w;
  unfold keeps, grows, outside_vault, bind, ret, raise, lift, emit,
    st_error, datetime_now, connect, cursor, close, db_call;
  cbn;
  repeat match goal with
    | |- context [match ?x with _ => _ end] => is_var x; destruct x; cbn
    end;
  try reflexivity.

Section VaultFrames.
Context {F : Fernet}.

Lemma fernet_encrypt_call_outside d :
  stable (keeps outside_vault) (fernet_encrypt_call d).
Proof. unfold fernet_encrypt_call. prim. Qed.

Lemma fernet_decrypt_call_outside d :
  stable (keeps outside_vault) (fernet_decrypt_call d).
Proof.
  unfold fernet_decrypt_call. destruct (fernet_decrypt d); prim.
Qed.

Lemma fernet_encrypt_call_grows d :
  stable (grows vault_event) (fernet_encrypt_call d).
Proof.
  intros w. exists [EvEncrypt d]. split; [|reflexivity].
  unfold fernet_encrypt_call, bind, emit.
  cbn. destruct (entropy _); reflexivity.
Qed.

Lemma fernet_decrypt_call_grows d :
  stable (grows vault_event) (fernet_decrypt_call d).
Proof.
  intros w. exists [EvDecrypt d]. split; [|reflexivity].
  unfold fernet_decrypt_call, bind, emit.
  cbn. destruct (fernet_decrypt d); reflexivity.
Qed.

(** Structural steps shared by the frame proofs below. *)
Ltac frame_steps :=
  repeat lazymatch goal with
    | |- stable ?R (bind _ _) => apply (@stable_bind R _); [|intros ?]
    | |- stable ?R (ret _) => apply (@stable_ret R _)
    | |- stable ?R (lift _) => apply (@stable_lift R _)
    | |- stable ?R (raise _) => apply (@stable_raise R _)
    | |- stable ?R (try_except _ _) => apply (@stable_try R _); [|intros ?]
    | |- stable ?R (if _ then _ else _) => apply (@stable_if R)
    | |- stable ?R (for_each _ _) => apply (@stable_for_each R _); intros ?
    | |- stable ?R (match ?x with _ => _ end) => destruct x
    end.

Lemma encrypt_token_outside v : stable (keeps outside_vault) (encrypt_token v).
Proof.
  unfold encrypt_token. frame_steps.
  apply fernet_encrypt_call_outside.
Qed.

Lemma encrypt_token_grows v : stable (grows vault_event) (encrypt_token v).
Proof.
  unfold encrypt_token. frame_steps.
  apply fernet_encrypt_call_grows.
Qed.

Lemma decrypt_token_outside v : stable (keeps outside_vault) (decrypt_token v).
Proof.
  unfold decrypt_token. frame_steps.
  apply fernet_decrypt_call_outside.
Qed.

Lemma decrypt_token_grows v : stable (grows vault_event) (decrypt_token v).
Proof.
  unfold decrypt_token. frame_steps.
  apply fernet_decrypt_call_grows.
Qed.

Lemma encrypt_pages_outside v : stable (keeps outside_vault) (encrypt_pages v).
Proof.
  unfold encrypt_pages, encrypt_page. frame_steps.
  apply encrypt_token_outside.
Qed.

Lemma encrypt_pages_grows v : stable (grows vault_event) (encrypt_pages v).
Proof.
  unfold encrypt_pages, encrypt_page. frame_steps.
  apply encrypt_token_grows.
Qed.

Lemma decrypt_pages_outside v : stable (keeps outside_vault) (decrypt_pages v).
Proof.
  unfold decrypt_pages, decrypt_page. frame_steps.
  apply decrypt_token_outside.
Qed.

Lemma decrypt_pages_grows v : stable (grows vault_event) (decrypt_pages v).
Proof.
  unfold decrypt_pages, decrypt_page. frame_steps.
  apply decrypt_token_grows.
Qed.

End VaultFrames.

End Run.

(* ===================================================================== *)
(** * The credential vault                                                *)
(* ===================================================================== *)

Module Vault.
Import Py Eff TokenManager Terms Codec Run.
Local Open Scope eff_scope.

Lemma hex_ascii q : Forall (fun b => is_ascii_byte b = true) (hex q).
Proof.
  unfold hex, is_ascii_byte.
  induction q as [|b q IH]; cbn [flat_map app]; [constructor|].
  repeat constructor; auto; Z.to_euclidean_division_equations; lia.
Qed.

Lemma demo_ascii r p :
  Forall (fun b => is_ascii_byte b = true) (demo_encrypt r p).
Proof.
  unfold demo_encrypt. constructor; [|apply hex_ascii].
  unfold is_ascii_byte. Z.to_euclidean_division_equations; lia.
Qed.

Lemma unhex_hex p :
  Forall (fun b => is_byte b = true) p -> unhex (hex p) = Some p.
Proof.
  unfold hex. induction 1 as [|b p Hb _ IH]; [reflexivity|].
  unfold is_byte in Hb. cbn [flat_map app unhex]. rewrite IH.
  replace ((97 + (b / 16) mod 16 - 97) * 16 + (97 + b mod 16 - 97)) with b
    by (Z.to_euclidean_division_equations; lia).
  match goal with
  | |- context [if ?c then _ else _] => destruct c eqn:E
  end; [reflexivity|].
  exfalso. revert E. Z.to_euclidean_division_equations; lia.
Qed.

(** Only the letters [hex] writes are read back. *)
Lemma hex_unhex_upto n :
  forall bs q, (List.length bs <= n)%nat -> unhex bs = Some q ->
    bs = hex q /\ Forall (fun b => is_byte b = true) q.
Proof.
  induction n as [|n IH]; intros bs q Hlen U.
  - destruct bs; [|cbn in Hlen; lia]. cbn in U. injection U as <-.
    split; [reflexivity | constructor].
  - destruct bs as [|a [|b r]]; cbn [unhex] in U.
    + injection U as <-. split; [reflexivity | constructor].
    + discriminate.
    + destruct (Z.leb_spec 97 a); [|discriminate].
      destruct (Z.ltb_spec a 113); [|discriminate].
      destruct (Z.leb_spec 97 b); [|discriminate].
      destruct (Z.ltb_spec b 113); [|discriminate].
      cbn [andb] in U. apply push_some in U. destruct U as (q' & U & ->).
      cbn [List.length] in Hlen.
      destruct (IH r q' ltac:(lia) U) as (-> & Hq).
      split.
      * unfold hex. cbn [flat_map app]. f_equal; [|f_equal];
          Z.to_euclidean_division_equations; lia.
      * constructor; [unfold is_byte; lia | exact Hq].
Qed.

Lemma demo_tag_byte p : is_byte (demo_tag p) = true.
Proof.
  unfold is_byte. destruct p as [|b p]; [reflexivity|].
  cbn [demo_tag fold_right]. Z.to_euclidean_division_equations; lia.
Qed.

Lemma demo_roundtrip r p :
  Forall (fun b => is_byte b = true) p ->
  demo_decrypt (demo_encrypt r p) = Some p.
Proof.
  intros Hp. unfold demo_decrypt, demo_encrypt.
  assert (Hq : Forall (fun b => is_byte b = true) (p ++ [demo_tag p])).
  { apply Forall_app. split; [exact Hp|].
    constructor; [apply demo_tag_byte | constructor]. }
  rewrite (unhex_hex _ Hq).
  match goal with
  | |- context [if ?c then _ else _] => destruct c eqn:E
  end.
  2:{ exfalso. revert E. Z.to_euclidean_division_equations; lia. }
  destruct (p ++ [demo_tag p]) as [|x q] eqn:Eq;
    [destruct p; discriminate|].
  rewrite <- Eq, last_last, removelast_last, Z.eqb_refl. reflexivity.
Qed.

(** What the demonstration vault accepts, it made. *)
Lemma demo_authentic t p :
  demo_decrypt t = Some p ->
  Forall (fun b => is_byte b = true) p /\ exists r, t = demo_encrypt r p.
Proof.
  unfold demo_decrypt. destruct t as [|v rest]; [discriminate|].
  destruct (Z.leb_spec 65 v); [|discriminate].
  destruct (Z.ltb_spec v 91); [|discriminate]. cbn [andb].
  destruct (unhex rest) as [q|] eqn:U; [|discriminate].
  destruct (hex_unhex_upto _ rest q (le_n _) U) as (-> & Hq).
  destruct q as [|x q]; [discriminate|].
  match goal with
  | |- context [if ?c then _ else _] => destruct c eqn:Tag
  end; [|discriminate].
  apply Z.eqb_eq in Tag.
  intros E.
  assert (Ep : removelast (x :: q) = p) by congruence.
  clear E. subst p.
  assert (Split : x :: q = removelast (x :: q) ++ [last (x :: q) 0])
    by (apply app_removelast_last; discriminate).
  split.
  - rewrite Split in Hq. apply Forall_app in Hq. exact (proj1 Hq).
  - exists (v - 65). unfold demo_encrypt. rewrite <- Tag, <- Split.
    f_equal. Z.to_euclidean_division_equations; lia.
Qed.

Definition demo_fernet : Fernet := {|
  fernet_encrypt := demo_encrypt;
  fernet_decrypt := demo_decrypt;
  fernet_token_ascii := demo_ascii;
  fernet_decrypt_encrypt := demo_roundtrip;
  fernet_authentic := demo_authentic
|}.

Section Laws.
Context {F : Fernet}.

(** The answer of [decrypt_token] does not depend on the world. *)
Lemma decrypt_token_fst v w :
  fst (decrypt_token v w) =
  match encode v with
  | Raise e => Raise e
  | Ok data =>
      match fernet_decrypt data with
      | None => Raise InvalidToken
      | Some p =>
          match decode p with
          | Ok s => Ok (VStr s)
          | Raise e => Raise e
          end
      end
  end.
Proof.
  unfold decrypt_token, fernet_decrypt_call, bind, lift, emit, ret, raise.
  destruct (encode v) as [data|e]; [|reflexivity]. cbn.
  destruct (fernet_decrypt data) as [p|]; [|reflexivity].
  destruct (decode p); reflexivity.
Qed.

Lemma encrypt_token_run s data w :
  utf8_encode s = Ok data ->
  exists r w1,
    encrypt_token (VStr s) w = (Ok (VStr (fernet_encrypt r data)), w1).
Proof.
  intros E.
  unfold encrypt_token, fernet_encrypt_call, bind, lift, emit, ret.
  cbn [encode]. rewrite E. cbn.
  destruct (entropy w) as [|r en].
  - exists 0. eexists. unfold decode.
    rewrite (utf8_decode_ascii _ (fernet_token_ascii 0 data)). reflexivity.
  - exists r. eexists. unfold decode.
    rewrite (utf8_decode_ascii _ (fernet_token_ascii r data)). reflexivity.
Qed.




End Laws.


End Vault.

(* ===================================================================== *)
(** * The table                                                           *)
(* ===================================================================== *)

Module Table.
Import Py Eff TokenManager Terms.

Lemma str_eqb_eq a b : str_eqb a b = true <-> a = b.
Proof.
  revert b. induction a as [|x a IH]; intros [|y b]; cbn; try easy.
  rewrite andb_true_iff, Z.eqb_eq, IH. split.
  - intros [-> ->]. reflexivity.
  - intros E. injection E as -> ->. auto.
Qed.

Lemma str_eqb_refl a : str_eqb a a = true.
Proof. apply str_eqb_eq. reflexivity. Qed.

Lemma existsb_filter {A} (p : A -> bool) l :
  existsb p l = false -> filter p l = [].
Proof.
  induction l as [|a l IH]; cbn; [reflexivity|].
  destruct (p a); cbn; [discriminate | exact IH].
Qed.

Lemma filter_existsb {A} (p : A -> bool) l :
  existsb p l = true -> filter p l <> [].
Proof.
  induction l as [|a l IH]; cbn; [discriminate|].
  destruct (p a); cbn; [discriminate | exact IH].
Qed.

Section WithSchema.
Context {S : Schema}.

(** The rows of [u] after a [MERGE] for [u]: every row that was there is
    overwritten; if none was, one is added. *)
Lemma select_merge now u meta tok exp pages t :
  select u (merge now u meta tok exp pages t) =
  match select u t with
  | [] => [inserted_row now u meta tok exp pages]
  | rows => map (fun _ => updated_row now u meta tok exp pages) rows
  end.
Proof.
  unfold merge, select.
  destruct (existsb (fun r => str_eqb (USER_ID r) u) t) eqn:E.
  - pose proof (filter_existsb _ _ E) as NE.
    assert (H : filter (fun r => str_eqb (USER_ID r) u)
                  (map (fun r => if str_eqb (USER_ID r) u
                                 then {| USER_ID := USER_ID r;
                                         META_USER_ID := meta;
                                         ACCESS_TOKEN := tok;
                                         TOKEN_EXPIRY := Some exp;
                                         PAGES := pages;
                                         NEEDS_REAUTH := Some false;
                                         LAST_REFRESHED := Some now |}
                                 else r) t)
                = map (fun _ => updated_row now u meta tok exp pages)
                    (filter (fun r => str_eqb (USER_ID r) u) t)).
    { clear. induction t as [|r t IH]; [reflexivity|]. cbn [map filter].
      destruct (str_eqb (USER_ID r) u) eqn:Er; cbn [USER_ID]; rewrite Er.
      - cbn [map]. rewrite IH. f_equal. unfold updated_row.
        apply str_eqb_eq in Er. rewrite Er. reflexivity.
      - exact IH. }
    rewrite H.
    destruct (filter (fun r => str_eqb (USER_ID r) u) t); [contradiction|].
    reflexivity.
  - rewrite filter_app, (existsb_filter _ _ E). cbn.
    rewrite str_eqb_refl. reflexivity.
Qed.

(** The rows of any other user are the ones that were there. *)
Lemma select_merge_other now u u' meta tok exp pages t :
  u' <> u ->
  select u' (merge now u meta tok exp pages t) = select u' t.
Proof.
  intros NE. unfold merge, select.
  assert (N : forall v, str_eqb v u = true -> str_eqb v u' = false).
  { intros v Ev. apply str_eqb_eq in Ev. subst v.
    destruct (str_eqb u u') eqn:E; [|reflexivity].
    apply str_eqb_eq in E. congruence. }
  destruct (existsb (fun r => str_eqb (USER_ID r) u) t).
  - induction t as [|r t IH]; [reflexivity|]. cbn [map filter].
    destruct (str_eqb (USER_ID r) u) eqn:Er; cbn [USER_ID].
    + rewrite (N _ Er), IH. reflexivity.
    + rewrite IH. reflexivity.
  - rewrite filter_app. cbn. rewrite (N u (str_eqb_refl u)).
    apply app_nil_r.
Qed.

Lemma update_reauth_flagged u t :
  update_reauth u t =
  map (fun r => if str_eqb (USER_ID r) u then flagged r else r) t.
Proof. reflexivity. Qed.

Lemma update_reauth_idem u t :
  update_reauth u (update_reauth u t) = update_reauth u t.
Proof.
  unfold update_reauth. rewrite map_map. apply map_ext. intros r.
  destruct (str_eqb (USER_ID r) u) eqn:E; cbn [USER_ID]; rewrite E;
    reflexivity.
Qed.

Lemma select_update_reauth u t :
  select u (update_reauth u t) = map flagged (select u t).
Proof.
  unfold select, update_reauth.
  induction t as [|r t IH]; [reflexivity|]. cbn [map filter].
  destruct (str_eqb (USER_ID r) u) eqn:E; cbn [USER_ID]; rewrite E.
  - cbn [map]. rewrite IH. reflexivity.
  - exact IH.
Qed.

Lemma select_update_reauth_other u u' t :
  u' <> u -> select u' (update_reauth u t) = select u' t.
Proof.
  intros NE. unfold select, update_reauth.
  induction t as [|r t IH]; [reflexivity|]. cbn [map filter].
  destruct (str_eqb (USER_ID r) u) eqn:E; cbn [USER_ID].
  - apply str_eqb_eq in E. rewrite E.
    destruct (str_eqb u u') eqn:E'.
    + apply str_eqb_eq in E'. congruence.
    + exact IH.
  - rewrite IH. reflexivity.
Qed.

(** ** One row per user *)

(** The MERGE and the UPDATE keep the table keyed by user. *)
Lemma merge_keyed now u meta tok exp pages t :
  keyed t -> keyed (merge now u meta tok exp pages t).
Proof.
  unfold keyed. intros H v. destruct (str_eqb v u) eqn:E.
  - apply str_eqb_eq in E. subst v. rewrite select_merge.
    specialize (H u). destruct (select u t) as [|r [|r' rows]]; cbn in *; lia.
  - rewrite select_merge_other; [apply H|].
    intros ->. rewrite str_eqb_refl in E. discriminate.
Qed.

Lemma update_reauth_keyed u t :
  keyed t -> keyed (update_reauth u t).
Proof.
  unfold keyed. intros H v. destruct (str_eqb v u) eqn:E.
  - apply str_eqb_eq in E. subst v.
    rewrite select_update_reauth, length_map. apply H.
  - rewrite select_update_reauth_other; [apply H|].
    intros ->. rewrite str_eqb_refl in E. discriminate.
Qed.

End WithSchema.
End Table.

(* ===================================================================== *)
(** * Runs of the driver and of [store_user_token]                        *)
(* ===================================================================== *)

Module Store.
Import Py Eff TokenManager Terms Codec Run Table.
Local Open Scope eff_scope.

Lemma db_call_eq w :
  db_call w =
  (match fault_at w 0 with Some e => Raise e | None => Ok tt end,
   after_db_call w).
Proof.
  destruct w as [t pc dc ds hs en lg tr].
  unfold db_call, fault_at, after_db_call, with_db_script. cbn.
  destruct ds as [|[e|] ds]; reflexivity.
Qed.

Lemma fault_at_after w i : fault_at (after_db_call w) i = fault_at w (S i).
Proof.
  unfold fault_at, after_db_call. cbn.
  destruct (db_script w); [destruct i|]; reflexivity.
Qed.

(** A trace that gained nothing gained only what one likes. *)
Lemma keeps_trace_grows P w w' : keeps trace w w' -> grows P w w'.
Proof. intros E. exists []. rewrite app_nil_r. split; [exact E | reflexivity]. Qed.

Lemma grows_weaken (P Q : event -> bool) w w' :
  (forall ev, P ev = true -> Q ev = true) -> grows P w w' -> grows Q w w'.
Proof.
  intros PQ (tr & E & H). exists tr. split; [exact E|].
  rewrite forallb_forall in *. auto.
Qed.

Lemma stable_at {A} R (c : M A) w r w' :
  stable R c -> c w = (r, w') -> R w w'.
Proof. intros H E. specialize (H w). rewrite E in H. exact H. Qed.

Lemma outside_vault_fields w w' :
  keeps outside_vault w w' ->
  table w' = table w /\ py_clock w' = py_clock w /\
  db_clock w' = db_clock w /\ log w' = log w /\
  db_script w' = db_script w /\ http_script w' = http_script w.
Proof.
  unfold keeps, outside_vault. intros E. injection E as ? ? ? ? ? ?.
  repeat split; assumption.
Qed.

Section WithVault.
Context {F : Fernet} {S : Schema}.

Lemma execute_eq q w :
  execute q w =
  match fault_at w 0 with
  | Some e => (Raise e, after_db_call w)
  | None =>
      run_sql q (with_trace (trace w ++ [EvSql q]) (after_db_call w))
  end.
Proof.
  unfold execute, bind. rewrite db_call_eq.
  destruct (fault_at w 0); [reflexivity|].
  unfold emit, run_sql. destruct q; reflexivity.
Qed.

(** [encrypt_token] returns only what it could encode. *)
Lemma encrypt_token_ok v w enc w' :
  encrypt_token v w = (Ok enc, w') -> exists data, encode v = Ok data.
Proof.
  unfold encrypt_token, bind, lift.
  destruct (encode v) as [data|e]; [eauto | discriminate].
Qed.

Lemma store_user_token_eq u m tok exp pages :
  store_user_token u m tok exp pages =
  (emit (EvUpsert u m tok exp pages) ;;
   try_except (store_body u m tok exp pages)
     (fun e => st_error "Error storing token" e ;; ret false)).
Proof. reflexivity. Qed.

Ltac conjs := repeat match goal with |- _ /\ _ => split end.

Ltac step_in H :=
  lazymatch type of H with
  | bind ?c ?k ?w = _ =>
      let a := fresh "a" in
      let e := fresh "e" in
      let w1 := fresh "w" in
      let E := fresh "E" in
      destruct (c w) as [[a|e] w1] eqn:E;
      [ rewrite (bind_step c k w a w1 E) in H; cbv beta in H
      | rewrite (bind_abort c k w e w1 E) in H ]
  end.

Ltac db_in E :=
  unfold _get_snowflake_connection, connect, cursor, close in E;
  rewrite db_call_eq in E;
  let X := fresh "X" in
  match type of E with
  | context [fault_at ?w 0] => destruct (fault_at w 0) eqn:X
  end;
  inversion E; subst; clear E.

(** Every run of the body, case by case: it stops before the [MERGE] and
    the table is as it was, or the [MERGE] ran and the result is decided
    by [conn.close()]. *)
Lemma store_body_run u m tok exp pages w r w' :
  store_body u m tok exp pages w = (r, w') ->
  py_clock w' = py_clock w /\ db_clock w' = db_clock w /\
  log w' = log w /\ http_script w' = http_script w /\
  grows store_event w w' /\
  ((exists e, r = Raise e /\ table w' = table w) \/
   (written u m tok exp pages w w' /\
    r = match fault_at w 3 with Some e => Raise e | None => Ok true end)).
Proof.
  intros H. unfold store_body in H.
  assert (G0 : grows store_event w w) by apply pre_refl.
  step_in H; db_in E; [|inversion H; subst; clear H];
    [|cbn; repeat split; try reflexivity;
       [apply keeps_trace_grows; reflexivity | left; eauto]].
  step_in H; db_in E; [|inversion H; subst; clear H];
    [|cbn; repeat split; try reflexivity;
       [apply keeps_trace_grows; reflexivity | left; eauto]].
  rewrite fault_at_after in X0.
  set (w2 := after_db_call (after_db_call w)) in *.
  assert (Q2 : table w2 = table w /\ py_clock w2 = py_clock w /\
               db_clock w2 = db_clock w /\ log w2 = log w /\
               http_script w2 = http_script w /\ trace w2 = trace w /\
               db_script w2 = tl (tl (db_script w)))
    by (subst w2; repeat split; reflexivity).
  destruct Q2 as (Qt & Qp & Qd & Ql & Qh & Qtr & Qs).
  (* encrypt the token *)
  step_in H.
  2:{ inversion H; subst; clear H.
      destruct (outside_vault_fields _ _
                  (stable_at _ _ _ _ _ (encrypt_token_outside tok) E))
        as (? & ? & ? & ? & ? & ?).
      pose proof (stable_at _ _ _ _ _ (encrypt_token_grows tok) E) as T.
      repeat split; try congruence.
      - apply grows_weaken with (P := vault_event);
          [intros []; cbn; congruence|].
        destruct T as (tr & Et & Ht). exists tr. split; congruence.
      - left. eexists. split; [reflexivity|congruence]. }
  destruct (outside_vault_fields _ _
              (stable_at _ _ _ _ _ (encrypt_token_outside tok) E))
    as (O3t & O3p & O3d & O3l & O3s & O3h).
  pose proof (stable_at _ _ _ _ _ (encrypt_token_grows tok) E) as T3.
  (* the expiry date *)
  step_in H; [|discriminate E0].
  inversion E0; subst a0 w1; clear E0.
  assert (Common :
    py_clock w0 = py_clock w /\ db_clock w0 = db_clock w /\
    log w0 = log w /\ http_script w0 = http_script w /\
    table w0 = table w /\ db_script w0 = tl (tl (db_script w)) /\
    grows store_event w w0).
  { repeat split; try congruence.
    apply grows_weaken with (P := vault_event);
      [intros []; cbn; congruence|].
    destruct T3 as (tr & Et & Ht). exists tr. split; congruence. }
  destruct Common as (Cp & Cd & Cl & Ch & Ct & Cs & Cg).
  step_in H.
  2:{ inversion H; inversion E0; subst.
      repeat split; try assumption. left. eauto. }
  inversion E0; subst w1; clear E0. rename H1 into Edelta.
  step_in H.
  2:{ inversion H; inversion E0; subst.
      repeat split; try assumption. left. eauto. }
  inversion E0; subst w1; clear E0. rename H1 into Edate.
  (* encrypt the pages *)
  step_in H.
  2:{ inversion H; subst; clear H.
      destruct (outside_vault_fields _ _
                  (stable_at _ _ _ _ _ (encrypt_pages_outside pages) E0))
        as (? & ? & ? & ? & ? & ?).
      pose proof (stable_at _ _ _ _ _ (encrypt_pages_grows pages) E0) as T.
      repeat split; try congruence.
      - eapply pre_trans; [exact Cg|].
        apply grows_weaken with (P := vault_event);
          [intros []; cbn; congruence | exact T].
      - left. eexists. split; [reflexivity|congruence]. }
  destruct (outside_vault_fields _ _
              (stable_at _ _ _ _ _ (encrypt_pages_outside pages) E0))
    as (O5t & O5p & O5d & O5l & O5s & O5h).
  pose proof (stable_at _ _ _ _ _ (encrypt_pages_grows pages) E0) as T5.
  assert (Cg1 : grows store_event w w1).
  { eapply pre_trans; [exact Cg|].
    apply grows_weaken with (P := vault_event);
      [intros []; cbn; congruence | exact T5]. }
  assert (F2 : fault_at w1 0 = fault_at w 2).
  { unfold fault_at.
    replace (db_script w1) with (tl (tl (db_script w))) by congruence.
    destruct (db_script w) as [|? [|? ?]]; reflexivity. }
  assert (F3 : fault_at w1 1 = fault_at w 3).
  { unfold fault_at.
    replace (db_script w1) with (tl (tl (db_script w))) by congruence.
    destruct (db_script w) as [|? [|? ?]]; reflexivity. }
  (* the MERGE *)
  step_in H.
  2:{ inversion H; subst; clear H. rewrite execute_eq in E1.
      destruct (fault_at w1 0) eqn:X1; [|discriminate E1].
      inversion E1; subst. cbn.
      repeat split; try congruence.
      - eapply pre_trans; [exact Cg1|]. apply keeps_trace_grows. reflexivity.
      - left. eexists. split; [reflexivity|congruence]. }
  rewrite execute_eq in E1.
  destruct (fault_at w1 0) eqn:X1; [discriminate E1|].
  cbn in E1. inversion E1; subst a3 w3; clear E1.
  rename a into enc, a0 into delta, a1 into t, a2 into ep.
  set (w3 := with_table _ _) in *.
  assert (Q3 : table w3 = merge (db_clock w) u m enc t ep (table w) /\
               py_clock w3 = py_clock w /\ db_clock w3 = db_clock w /\
               log w3 = log w /\ http_script w3 = http_script w /\
               trace w3 = trace w1 ++ [EvSql (Merge u m enc t ep)] /\
               db_script w3 = tl (db_script w1)).
  { subst w3. cbn. repeat split; congruence. }
  clearbody w3.
  destruct Q3 as (Rt & Rp & Rd & Rl & Rh & Rtr & Rs).
  assert (W : forall w4, table w4 = table w3 ->
                         written u m tok exp pages w w4).
  { intros w4 E4. exists enc, delta, t, ep. do 4 eexists.
    split; [exact E|]. split; [exact Edelta|].
    split; [rewrite <- Cp; exact Edate|].
    split; [exact E0|].
    split; [congruence|]. repeat split; congruence. }
  assert (G : grows store_event w w3).
  { eapply pre_trans; [exact Cg1|].
    exists [EvSql (Merge u m enc t ep)]. split; [exact Rtr | reflexivity]. }
  assert (X3 : fault_at w3 0 = fault_at w 3).
  { rewrite <- F3. unfold fault_at. rewrite Rs.
    destruct (db_script w1); reflexivity. }
  (* conn.close() *)
  step_in H; db_in E1.
  - inversion H; subst; clear H. cbn.
    repeat split; try congruence.
    + destruct G as (tr & Et & Ht). exists tr. split; assumption.
    + right. split; [apply W; reflexivity|]. rewrite <- X3. reflexivity.
  - inversion H; subst; clear H. cbn.
    repeat split; try congruence.
    + destruct G as (tr & Et & Ht). exists tr. split; assumption.
    + right. split; [apply W; reflexivity|]. rewrite <- X3. reflexivity.
Qed.

(** Every call of [store_user_token] returns: [True] after a run in which
    nothing failed, [False] after logging the exception. *)
Lemma store_user_token_run u m tok exp pages w :
  exists b w',
    store_user_token u m tok exp pages w = (Ok b, w') /\
    py_clock w' = py_clock w /\ db_clock w' = db_clock w /\
    http_script w' = http_script w /\
    (exists tr, trace w' = trace w ++ EvUpsert u m tok exp pages :: tr /\
                forallb store_event tr = true) /\
    ((b = true /\ written u m tok exp pages w w' /\ fault_at w 3 = None /\
      log w' = log w) \/
     (b = false /\
      exists e, log w' = log w ++ [("Error storing token"%string, e)] /\
                (table w' = table w \/
                 (written u m tok exp pages w w' /\ fault_at w 3 = Some e)))).
Proof.
  rewrite store_user_token_eq. unfold bind at 1, emit.
  set (w0 := with_trace _ w).
  destruct (store_body u m tok exp pages w0) as [r w1] eqn:E.
  destruct (store_body_run _ _ _ _ _ _ _ _ E)
    as (Hp & Hd & Hl & Hh & (tr & Htr & Hev) & Hcase).
  assert (Tr : trace w1 = trace w ++ EvUpsert u m tok exp pages :: tr).
  { rewrite Htr. subst w0. cbn. rewrite <- app_assoc. reflexivity. }
  destruct Hcase as [(e & -> & Ht) | (Hw & ->)].
  - rewrite (try_caught _ _ _ _ _ E). unfold bind, st_error, ret.
    exists false. eexists. split; [reflexivity|]. cbn.
    repeat split; try assumption.
    + exists tr. split; assumption.
    + right. split; [reflexivity|]. exists e. rewrite Hl. split; [reflexivity|].
      left. exact Ht.
  - change (fault_at w0 3) with (fault_at w 3) in *.
    destruct (fault_at w 3) as [e|] eqn:X.
    + rewrite (try_caught _ _ _ _ _ E). unfold bind, st_error, ret.
      exists false. eexists. split; [reflexivity|]. cbn.
      repeat split; try assumption.
      * exists tr. split; assumption.
      * right. split; [reflexivity|]. exists e. rewrite Hl.
        split; [reflexivity|]. right. split; [exact Hw | reflexivity].
    + rewrite (try_ok _ _ _ _ _ E).
      exists true, w1. split; [reflexivity|].
      repeat split; try assumption.
      * exists tr. split; assumption.
      * left. repeat split; assumption.
Qed.

Lemma store_user_token_true u m tok exp pages w w' :
  store_user_token u m tok exp pages w = (Ok true, w') ->
  written u m tok exp pages w w' /\
  py_clock w' = py_clock w /\ db_clock w' = db_clock w /\ log w' = log w.
Proof.
  intros E.
  destruct (store_user_token_run u m tok exp pages w)
    as (b & w1 & E1 & Hp & Hd & _ & _ & Hcase).
  rewrite E in E1. inversion E1; subst b w1.
  destruct Hcase as [(_ & Hw & _ & Hl) | (Hb & _)]; [auto | discriminate].
Qed.

(** ** [_mark_token_for_reauth] *)

(** Every call returns.  The table is as it was or has the flag of [u]
    set; an exception is logged and goes no further. *)
Lemma mark_run u w :
  exists w',
    _mark_token_for_reauth u w = (Ok tt, w') /\
    py_clock w' = py_clock w /\ db_clock w' = db_clock w /\
    http_script w' = http_script w /\
    ((fault_at w 0 = None /\ fault_at w 1 = None /\ fault_at w 2 = None /\
      table w' = update_reauth u (table w) /\
      trace w' = trace w ++ [EvSql (UpdateReauth u)] /\
      match fault_at w 3 with
      | None => log w' = log w
      | Some e =>
          log w' = log w ++ [("Error marking token for reauth"%string, e)]
      end) \/
     (exists i e, (i < 3)%nat /\ fault_at w i = Some e /\
        table w' = table w /\ trace w' = trace w /\
        log w' = log w ++ [("Error marking token for reauth"%string, e)])).
Proof.
  unfold _mark_token_for_reauth, try_except, bind,
    _get_snowflake_connection, connect, cursor, close.
  rewrite db_call_eq.
  destruct (fault_at w 0) as [e|] eqn:X0.
  { eexists. split; [reflexivity|]. cbn. repeat split.
    right. exists 0%nat, e. repeat split; auto. }
  rewrite db_call_eq, fault_at_after.
  destruct (fault_at w 1) as [e|] eqn:X1.
  { eexists. split; [reflexivity|]. cbn. repeat split.
    right. exists 1%nat, e. repeat split; auto. }
  rewrite execute_eq, !fault_at_after.
  destruct (fault_at w 2) as [e|] eqn:X2.
  { eexists. split; [reflexivity|]. cbn. repeat split.
    right. exists 2%nat, e. repeat split; auto. }
  cbn [run_sql]. rewrite db_call_eq.
  match goal with
  | |- context [fault_at ?x 0] =>
      assert (X3 : fault_at x 0 = fault_at w 3)
        by (unfold fault_at; cbn;
            destruct (db_script w) as [|? [|? [|? ?]]]; reflexivity);
      rewrite X3
  end.
  destruct (fault_at w 3) as [e|] eqn:X3'.
  - eexists. split; [reflexivity|]. cbn. repeat split.
    left. repeat split; auto.
  - eexists. split; [reflexivity|]. cbn. repeat split.
    left. repeat split; auto.
Qed.

(** ** [get_user_token] *)

Lemma get_user_token_eq u :
  get_user_token u =
  try_except (get_body u)
    (fun e => st_error "Error retrieving token" e ;; ret None).
Proof. reflexivity. Qed.

Lemma get_body_read u w :
  read_ok w ->
  get_body u w = on_record (fetchone (select u (table w))) (after_read u w).
Proof.
  intros (X0 & X1 & X2 & X3).
  unfold get_body, bind, _get_snowflake_connection, connect, cursor, close.
  rewrite db_call_eq, X0, db_call_eq, fault_at_after, X1.
  rewrite execute_eq, !fault_at_after, X2. cbn [run_sql].
  rewrite db_call_eq.
  match goal with
  | |- context [fault_at ?x 0] =>
      assert (E : fault_at x 0 = fault_at w 3)
        by (unfold fault_at; cbn;
            destruct (db_script w) as [|? [|? [|? ?]]]; reflexivity);
      rewrite E, X3
  end.
  f_equal.
Qed.

Lemma get_body_fault u w :
  ~ read_ok w ->
  exists e w', get_body u w = (Raise e, w') /\
    table w' = table w /\ py_clock w' = py_clock w /\
    db_clock w' = db_clock w /\ log w' = log w /\
    (exists i, (i < 4)%nat /\ fault_at w i = Some e) /\
    (trace w' = trace w \/ trace w' = trace w ++ [EvSql (Select u)]).
Proof.
  intros N.
  unfold get_body, bind, _get_snowflake_connection, connect, cursor, close.
  rewrite db_call_eq.
  destruct (fault_at w 0) as [e|] eqn:X0.
  { do 2 eexists. split; [reflexivity|]. cbn. conjs; auto.
    exists 0%nat. split; [lia | assumption || reflexivity]. }
  rewrite db_call_eq, fault_at_after.
  destruct (fault_at w 1) as [e|] eqn:X1.
  { do 2 eexists. split; [reflexivity|]. cbn. conjs; auto.
    exists 1%nat. split; [lia | assumption || reflexivity]. }
  rewrite execute_eq, !fault_at_after.
  destruct (fault_at w 2) as [e|] eqn:X2.
  { do 2 eexists. split; [reflexivity|]. cbn. conjs; auto.
    exists 2%nat. split; [lia | assumption || reflexivity]. }
  cbn [run_sql]. rewrite db_call_eq.
  match goal with
  | |- context [fault_at ?x 0] =>
      assert (E : fault_at x 0 = fault_at w 3)
        by (unfold fault_at; cbn;
            destruct (db_script w) as [|? [|? [|? ?]]]; reflexivity);
      rewrite E
  end.
  destruct (fault_at w 3) as [e|] eqn:X3.
  - do 2 eexists. split; [reflexivity|]. cbn. conjs; auto.
    exists 3%nat. split; [lia | assumption || reflexivity].
  - exfalso. apply N. repeat split; assumption.
Qed.

Lemma read_ok_dec w : read_ok w \/ ~ read_ok w.
Proof.
  unfold read_ok.
  destruct (fault_at w 0), (fault_at w 1), (fault_at w 2), (fault_at w 3);
    try (left; repeat split; reflexivity);
    right; intros (? & ? & ? & ?); discriminate.
Qed.

End WithVault.
End Store.

(* ===================================================================== *)
(** * The token store                                                     *)
(* ===================================================================== *)

Module Lifecycle.
Import Py Eff TokenManager Terms Codec Run Table Vault Store.
Local Open Scope eff_scope.

Lemma pure_ret {A} (a : A) : pure_result (ret a).
Proof. intros w1 w2. reflexivity. Qed.

Lemma pure_lift {A} (r : result A) : pure_result (lift r).
Proof. intros w1 w2. reflexivity. Qed.

Lemma pure_bind {A B} (c : M A) (k : A -> M B) :
  pure_result c -> (forall a, pure_result (k a)) -> pure_result (bind c k).
Proof.
  intros Hc Hk w1 w2. unfold bind. specialize (Hc w1 w2).
  destruct (c w1) as [[a1|e1] w1'], (c w2) as [[a2|e2] w2'];
    cbn [fst] in Hc; try discriminate.
  - injection Hc as ->. apply Hk.
  - injection Hc as ->. reflexivity.
Qed.

Lemma pure_for_each {A B} (f : A -> M B) l :
  (forall a, pure_result (f a)) -> pure_result (for_each f l).
Proof.
  intros Hf. induction l as [|a l IH]; cbn [for_each].
  - apply pure_ret.
  - apply pure_bind; [apply Hf|]. intros b.
    apply pure_bind; [exact IH|]. intros bs. apply pure_ret.
Qed.

Section WithVault.
Context {F : Fernet} {S : Schema}.

Lemma pure_decrypt_token v : pure_result (decrypt_token v).
Proof. intros w1 w2. rewrite !decrypt_token_fst. reflexivity. Qed.

Lemma pure_decrypt_pages v : pure_result (decrypt_pages v).
Proof.
  unfold decrypt_pages. destruct (truthy v); [|apply pure_ret].
  apply pure_bind; [apply pure_lift|]. intros items.
  apply pure_bind; [|intros; apply pure_ret].
  apply pure_for_each. intros page. unfold decrypt_page.
  apply pure_bind; [apply pure_lift|]. intros pc.
  apply pure_bind; [apply pure_lift|]. intros [|]; [|apply pure_ret].
  apply pure_bind; [apply pure_lift|]. intros old.
  apply pure_bind; [apply pure_decrypt_token|]. intros dec. apply pure_lift.
Qed.

(** What [encrypt_token] returns decrypts to its argument. *)
Lemma decrypt_encrypt_token v w enc w' :
  encrypt_token v w = (Ok enc, w') ->
  forall w2, fst (decrypt_token enc w2) = Ok v.
Proof.
  unfold encrypt_token, bind, lift, fernet_encrypt_call, emit, ret.
  destruct v as [| | |s| |]; cbn [encode]; try discriminate.
  destruct (utf8_encode s) as [data|e] eqn:E; [|discriminate]. cbn.
  assert (H : forall r, decode (fernet_encrypt r data)
                        = Ok (fernet_encrypt r data)).
  { intros r. unfold decode.
    rewrite (utf8_decode_ascii _ (fernet_token_ascii r data)). reflexivity. }
  assert (G : forall r w2,
             fst (decrypt_token (VStr (fernet_encrypt r data)) w2)
             = Ok (VStr s)).
  { intros r w2. rewrite decrypt_token_fst. cbn [encode].
    rewrite (utf8_encode_ascii _ (fernet_token_ascii r data)).
    rewrite (fernet_decrypt_encrypt r data (utf8_encode_bytes s data E)).
    unfold decode. rewrite (utf8_decode_encode s data E). reflexivity. }
  destruct (entropy _) as [|r en]; rewrite H; intros X;
    injection X as <- _; intros w2; apply G.
Qed.

(** ** Fetching, case by case *)

(** A read that meets a fault: logged, answered with [None]. *)
Lemma get_user_token_fault u w :
  ~ read_ok w ->
  exists e w',
    get_user_token u w = (Ok None, w') /\
    table w' = table w /\
    log w' = log w ++ [("Error retrieving token"%string, e)] /\
    (trace w' = trace w \/ trace w' = trace w ++ [EvSql (Select u)]).
Proof.
  intros N.
  destruct (get_body_fault u w N) as (e & w1 & E & Ht & _ & _ & Hl & _ & Htr).
  rewrite get_user_token_eq, (try_caught _ _ _ _ _ E).
  unfold bind, st_error, ret. exists e. eexists.
  split; [reflexivity|]. cbn. rewrite Hl. auto.
Qed.

Lemma get_user_token_read u w :
  read_ok w ->
  get_user_token u w =
  try_except (on_record (fetchone (select u (table w))))
    (fun e => st_error "Error retrieving token" e ;; ret None)
    (after_read u w).
Proof.
  intros R. rewrite get_user_token_eq. unfold try_except.
  rewrite (get_body_read u w R). reflexivity.
Qed.

(** The flag is set: the marker, and nothing but the [SELECT] happened. *)
Lemma get_user_token_flagged u w r :
  read_ok w ->
  fetchone (select u (table w)) = Some r ->
  flag_set (NEEDS_REAUTH r) = true ->
  get_user_token u w = (Ok (Some NeedsReauth), after_read u w).
Proof.
  intros R E Fl. rewrite (get_user_token_read u w R), E.
  unfold try_except, on_record. rewrite Fl. reflexivity.
Qed.

(** The expiry is in the past: the marker, whatever happens to the
    [UPDATE]. *)
Lemma get_user_token_expired u w r t :
  read_ok w ->
  fetchone (select u (table w)) = Some r ->
  flag_set (NEEDS_REAUTH r) = false ->
  TOKEN_EXPIRY r = Some t -> t < py_clock w ->
  exists w',
    get_user_token u w = (Ok (Some NeedsReauth), w') /\
    _mark_token_for_reauth (USER_ID r) (after_read u w) = (Ok tt, w').
Proof.
  intros R E Fl Et Lt. rewrite (get_user_token_read u w R), E.
  unfold try_except, on_record. rewrite Fl, Et.
  unfold bind at 1. unfold bind at 1. unfold datetime_now, ret.
  change (py_clock (after_read u w)) with (py_clock w).
  destruct (Z.ltb_spec t (py_clock w)) as [_|C]; [|lia].
  unfold bind.
  destruct (mark_run (USER_ID r) (after_read u w)) as (w' & Em & _).
  rewrite Em. exists w'. split; reflexivity.
Qed.

(** Neither flagged nor expired: the record is decrypted. *)
Lemma get_user_token_fresh u w r :
  read_ok w ->
  fetchone (select u (table w)) = Some r ->
  flag_set (NEEDS_REAUTH r) = false ->
  match TOKEN_EXPIRY r with Some t => py_clock w <= t | None => True end ->
  get_user_token u w =
  try_except (decrypt_record r)
    (fun e => st_error "Error retrieving token" e ;; ret None)
    (after_read u w).
Proof.
  intros R E Fl Ex. rewrite (get_user_token_read u w R), E.
  unfold try_except, on_record, decrypt_record. rewrite Fl.
  destruct (TOKEN_EXPIRY r) as [t|].
  - unfold bind at 1. unfold bind at 1. unfold datetime_now, ret.
    change (py_clock (after_read u w)) with (py_clock w).
    destruct (Z.ltb_spec t (py_clock w)) as [C|_]; [lia|]. reflexivity.
  - reflexivity.
Qed.

(** Decrypting leaves the store alone and records vault events only; it
    yields a record or an exception. *)
Lemma decrypt_record_run r w res w' :
  decrypt_record r w = (res, w') ->
  keeps outside_vault w w' /\ grows vault_event w w' /\
  match res with
  | Ok (Some (Token d)) =>
      fst (decrypt_token (ACCESS_TOKEN r) w) = Ok (tok_access_token d) /\
      tok_token_expiry d = TOKEN_EXPIRY r /\ tok_needs_reauth d = false /\
      tok_user_id d = USER_ID r /\ tok_meta_user_id d = META_USER_ID r
  | Ok _ => False
  | Raise _ => True
  end.
Proof.
  intros E.
  assert (O : stable (keeps outside_vault) (decrypt_record r)).
  { unfold decrypt_record.
    apply (@stable_bind _ _); [apply decrypt_token_outside|]. intros.
    apply (@stable_bind _ _); [apply decrypt_pages_outside|]. intros.
    apply (@stable_ret _ _). }
  assert (G : stable (grows vault_event) (decrypt_record r)).
  { unfold decrypt_record.
    apply (@stable_bind _ _); [apply decrypt_token_grows|]. intros.
    apply (@stable_bind _ _); [apply decrypt_pages_grows|]. intros.
    apply (@stable_ret _ _). }
  split; [exact (stable_at _ _ _ _ _ O E)|].
  split; [exact (stable_at _ _ _ _ _ G E)|].
  unfold decrypt_record, bind in E.
  destruct (decrypt_token (ACCESS_TOKEN r) w) as [[tok|e] w1] eqn:E1.
  - destruct (decrypt_pages (pages_cell (PAGES r)) w1) as [[pg|e] w2].
    + unfold ret in E. injection E as <- <-. cbn. auto.
    + injection E as <- <-. exact I.
  - injection E as <- <-. exact I.
Qed.

(** Every fetch returns, and what it returns tells which way it went. *)
Lemma get_user_token_cases u w :
  exists res w',
    get_user_token u w = (Ok res, w') /\
    match res with
    | None =>
        table w' = table w /\
        ((read_ok w /\ select u (table w) = [] /\ w' = after_read u w) \/
         exists e, log w' = log w ++ [("Error retrieving token"%string, e)])
    | Some NeedsReauth =>
        read_ok w /\
        exists r, fetchone (select u (table w)) = Some r /\
          ((flag_set (NEEDS_REAUTH r) = true /\ w' = after_read u w) \/
           (flag_set (NEEDS_REAUTH r) = false /\
            exists t, TOKEN_EXPIRY r = Some t /\ t < py_clock w /\
              _mark_token_for_reauth (USER_ID r) (after_read u w)
              = (Ok tt, w')))
    | Some (Token d) =>
        read_ok w /\
        exists r, fetchone (select u (table w)) = Some r /\
          flag_set (NEEDS_REAUTH r) = false /\
          match TOKEN_EXPIRY r with
          | Some t => py_clock w <= t
          | None => True
          end /\
          decrypt_record r (after_read u w) = (Ok (Some (Token d)), w')
    end.
Proof.
  destruct (read_ok_dec w) as [R|N].
  2:{ destruct (get_user_token_fault u w N) as (e & w' & H & Ht & Hl & _).
      exists None, w'. split; [exact H|]. split; [exact Ht|]. right. eauto. }
  destruct (fetchone (select u (table w))) as [r|] eqn:E.
  2:{ assert (E' : select u (table w) = [])
        by (destruct (select u (table w)); [reflexivity | discriminate]).
      exists None, (after_read u w). split.
      - rewrite (get_user_token_read u w R), E. reflexivity.
      - split; [reflexivity|]. left. auto. }
  destruct (flag_set (NEEDS_REAUTH r)) eqn:Fl.
  { exists (Some NeedsReauth), (after_read u w).
    split; [apply (get_user_token_flagged u w r R E Fl)|].
    split; [exact R|]. exists r. split; [reflexivity|]. left. auto. }
  assert (Fresh :
    match TOKEN_EXPIRY r with Some t => py_clock w <= t | None => True end ->
    exists res w',
      get_user_token u w = (Ok res, w') /\
      match res with
      | None =>
          table w' = table w /\
          exists e, log w' = log w ++ [("Error retrieving token"%string, e)]
      | Some NeedsReauth => False
      | Some (Token d) =>
          decrypt_record r (after_read u w) = (Ok (Some (Token d)), w')
      end).
  { intros Ex. rewrite (get_user_token_fresh u w r R E Fl Ex).
    unfold try_except.
    destruct (decrypt_record r (after_read u w)) as [[res|e] w1] eqn:D.
    - destruct (decrypt_record_run r _ _ _ D) as (_ & _ & Sh).
      exists res, w1. split; [reflexivity|].
      destruct res as [[|d]|]; try contradiction. reflexivity.
    - destruct (decrypt_record_run r _ _ _ D) as (O & _ & _).
      apply outside_vault_fields in O.
      destruct O as (Ot & _ & _ & Ol & _).
      unfold bind, st_error, ret. exists None. eexists.
      split; [reflexivity|]. cbn. rewrite Ot, Ol. split; [reflexivity|].
      exists e. reflexivity. }
  assert (Wrap :
    match TOKEN_EXPIRY r with Some t => py_clock w <= t | None => True end ->
    exists res w',
      get_user_token u w = (Ok res, w') /\
      match res with
      | None =>
          table w' = table w /\
          ((read_ok w /\ select u (table w) = [] /\ w' = after_read u w) \/
           exists e, log w' = log w ++ [("Error retrieving token"%string, e)])
      | Some NeedsReauth =>
          read_ok w /\
          exists r0, Some r = Some r0 /\
            ((flag_set (NEEDS_REAUTH r0) = true /\ w' = after_read u w) \/
             (flag_set (NEEDS_REAUTH r0) = false /\
              exists t, TOKEN_EXPIRY r0 = Some t /\ t < py_clock w /\
                _mark_token_for_reauth (USER_ID r0) (after_read u w)
                = (Ok tt, w')))
      | Some (Token d) =>
          read_ok w /\
          exists r0, Some r = Some r0 /\
            flag_set (NEEDS_REAUTH r0) = false /\
            match TOKEN_EXPIRY r0 with
            | Some t => py_clock w <= t
            | None => True
            end /\
            decrypt_record r0 (after_read u w) = (Ok (Some (Token d)), w')
      end).
  { intros Ex. destruct (Fresh Ex) as (res & w' & H & Sh).
    exists res, w'. split; [exact H|].
    destruct res as [[|d]|]; [contradiction| |].
    - split; [exact R|]. exists r. auto.
    - destruct Sh as (Ht & He). split; [exact Ht|]. right. exact He. }
  destruct (TOKEN_EXPIRY r) as [t|] eqn:Et; [|apply Wrap; exact I].
  destruct (Z.lt_ge_cases t (py_clock w)) as [Lt|Ge]; [|apply Wrap; exact Ge].
  destruct (get_user_token_expired u w r t R E Fl Et Lt) as (w' & H & Hm).
  exists (Some NeedsReauth), w'. split; [exact H|].
  split; [exact R|]. exists r. split; [reflexivity|]. right.
  split; [exact Fl|]. exists t. auto.
Qed.

End WithVault.
End Lifecycle.

(* ===================================================================== *)
(** * Dictionaries and pages                                              *)
(* ===================================================================== *)

Module Pages.
Import Py Eff TokenManager Terms MoreTerms Codec Run Table Vault Store
  Lifecycle.
Local Open Scope eff_scope.

(** ** Dictionaries *)

Lemma eq_str_key k s : eq_str k s = key_eqb k (VStr s).
Proof. destruct k; reflexivity. Qed.

Lemma contains_dict d k :
  contains (VDict d) k =
  Ok (match dict_get d (VStr k) with Some _ => true | None => false end).
Proof.
  cbn [contains]. f_equal.
  induction d as [|[k' v] d IH]; cbn [existsb dict_get fst]; [reflexivity|].
  rewrite eq_str_key. destruct (key_eqb k' (VStr k)); [reflexivity | exact IH].
Qed.

Lemma dict_get_set d k v x :
  dict_get d k = Some v -> dict_get (dict_set d k x) k = Some x.
Proof.
  induction d as [|[k' v'] d IH]; cbn [dict_get dict_set]; [discriminate|].
  destruct (key_eqb k' k) eqn:E; cbn [dict_get]; rewrite E; auto.
Qed.

Lemma dict_set_restore d k v x :
  dict_get d k = Some v -> dict_set (dict_set d k x) k v = d.
Proof.
  induction d as [|[k' v'] d IH]; cbn [dict_get dict_set]; [discriminate|].
  destruct (key_eqb k' k) eqn:E; cbn [dict_set]; rewrite E.
  - intros H. injection H as ->. reflexivity.
  - intros H. rewrite (IH H). reflexivity.
Qed.

(** Assigning to a key leaves the keys and their order as they were when
    the key was there, and the value of every other key in any case. *)
Lemma dict_set_keys d k v x :
  dict_get d k = Some v -> map fst (dict_set d k x) = map fst d.
Proof.
  induction d as [|[k' v'] d IH]; cbn [dict_get dict_set]; [discriminate|].
  destruct (key_eqb k' k) eqn:E; cbn [map fst]; [reflexivity|].
  intros H. rewrite (IH H). reflexivity.
Qed.

(** ** Inversion of the combinators *)

Lemma bind_returns {A B} (c : M A) (k : A -> M B) w b w2 :
  bind c k w = (Ok b, w2) ->
  exists a w1, c w = (Ok a, w1) /\ k a w1 = (Ok b, w2).
Proof.
  unfold bind. destruct (c w) as [[a|e] w1]; intros E.
  - exists a, w1. split; [reflexivity | exact E].
  - discriminate.
Qed.

Lemma ok_inj {A} (a b : A) : Ok a = Ok b -> a = b.
Proof. congruence. Qed.

Lemma some_inj {A} (a b : A) : Some a = Some b -> a = b.
Proof. congruence. Qed.

Lemma lift_returns {A} (r : result A) w a w' :
  lift r w = (Ok a, w') -> r = Ok a /\ w' = w.
Proof. unfold lift. intros E. injection E as -> ->. auto. Qed.

Lemma for_each_returns {A B} (f : A -> M B) l w bs w' :
  for_each f l w = (Ok bs, w') ->
  Forall2 (fun a b => exists w1 w2, f a w1 = (Ok b, w2)) l bs.
Proof.
  revert w bs w'. induction l as [|a l IH]; cbn [for_each]; intros w bs w' E.
  - unfold ret in E. injection E as <- _. constructor.
  - apply bind_returns in E. destruct E as (b & w1 & Ea & E).
    apply bind_returns in E. destruct E as (bs' & w2 & El & E).
    unfold ret in E. injection E as <- _.
    constructor; [eauto | eapply IH; exact El].
Qed.

Section WithVault.
Context {F : Fernet} {S : Schema}.

(** ** The vault on one value *)

(** What [encrypt_token] returns is the Fernet token of the UTF-8 of a
    string. *)
Lemma encrypt_token_returns v w enc w' :
  encrypt_token v w = (Ok enc, w') ->
  exists s data r,
    v = VStr s /\ utf8_encode s = Ok data /\
    enc = VStr (fernet_encrypt r data).
Proof.
  unfold encrypt_token, bind, lift, fernet_encrypt_call, emit, ret.
  destruct v as [| | |s| |]; cbn [encode]; try discriminate.
  destruct (utf8_encode s) as [data|e] eqn:E; [|discriminate]. cbn.
  assert (H : forall r, decode (fernet_encrypt r data)
                        = Ok (fernet_encrypt r data)).
  { intros r. unfold decode.
    rewrite (utf8_decode_ascii _ (fernet_token_ascii r data)). reflexivity. }
  destruct (entropy _) as [|r en]; rewrite H; intros X;
    injection X as <- _; do 3 eexists;
    (split; [reflexivity | split; [exact E | reflexivity]]).
Qed.

(** The Fernet token of an encoded string decrypts to the string. *)
Lemma decrypt_fernet_token s data r w :
  utf8_encode s = Ok data ->
  fst (decrypt_token (VStr (fernet_encrypt r data)) w) = Ok (VStr s).
Proof.
  intros E. rewrite decrypt_token_fst. cbn [encode].
  rewrite (utf8_encode_ascii _ (fernet_token_ascii r data)).
  rewrite (fernet_decrypt_encrypt r data (utf8_encode_bytes s data E)).
  unfold decode. rewrite (utf8_decode_encode s data E). reflexivity.
Qed.

(** ** The vault on one page *)

Lemma encrypt_page_returns d w e w' :
  encrypt_page (VDict d) w = (Ok e, w') -> encrypted_form (VDict d) e.
Proof.
  unfold encrypt_page. change (lit "access_token") with token_key.
  intros E.
  apply bind_returns in E. destruct E as (pc & w1 & E1 & E).
  apply lift_returns in E1. destruct E1 as (E1 & ->).
  apply ok_inj in E1. subst pc.
  apply bind_returns in E. destruct E as (has & w2 & E2 & E).
  apply lift_returns in E2. destruct E2 as (E2 & ->).
  rewrite contains_dict in E2. apply ok_inj in E2. subst has.
  exists d. split; [reflexivity|].
  destruct (dict_get d (VStr token_key)) as [old|] eqn:G.
  - right.
    apply bind_returns in E. destruct E as (old' & w3 & E3 & E).
    apply lift_returns in E3. destruct E3 as (E3 & ->).
    unfold subscript in E3. rewrite G in E3. apply ok_inj in E3. subst old'.
    apply bind_returns in E. destruct E as (enc & w4 & E4 & E).
    destruct (encrypt_token_returns _ _ _ _ E4) as (s & data & r & -> & U & ->).
    apply lift_returns in E. destruct E as (E & _).
    unfold set_item in E. apply ok_inj in E. subst e.
    exists s, data, r. auto.
  - left. unfold ret in E. apply pair_equal_spec in E. destruct E as (E & _).
    apply ok_inj in E. auto.
Qed.

(** Decrypting the stored form of a page gives the page back. *)
Lemma decrypt_page_encrypted p e w :
  encrypted_form p e -> fst (decrypt_page e w) = Ok p.
Proof.
  intros (d & -> & [(G & ->) | (s & data & r & G & U & ->)]).
  - unfold decrypt_page, bind, lift. cbn [dict].
    rewrite contains_dict. change (lit "access_token") with token_key.
    rewrite G. reflexivity.
  - unfold decrypt_page. unfold bind at 1. unfold lift at 1. cbn [dict].
    unfold bind at 1. unfold lift at 1. rewrite contains_dict.
    change (lit "access_token") with token_key.
    rewrite (dict_get_set _ _ _ _ G).
    unfold bind at 1. unfold lift at 1. cbn [subscript].
    rewrite (dict_get_set _ _ _ _ G).
    unfold bind.
    pose proof (decrypt_fernet_token s data r w U) as D.
    destruct (decrypt_token (VStr (fernet_encrypt r data)) w) as [[x|ex] w1];
      cbn [fst] in D; [|discriminate].
    injection D as ->. unfold lift. cbn [set_item fst].
    rewrite (dict_set_restore _ _ _ _ G). reflexivity.
Qed.

Lemma decrypt_each_encrypted ps es :
  Forall2 encrypted_form ps es ->
  forall w, fst (for_each decrypt_page es w) = Ok ps.
Proof.
  induction 1 as [|p e ps es Hpe _ IH]; intros w; [reflexivity|].
  cbn [for_each]. unfold bind at 1.
  pose proof (decrypt_page_encrypted p e w Hpe) as D.
  destruct (decrypt_page e w) as [[x|ex] w1]; cbn [fst] in D; [|discriminate].
  injection D as ->. unfold bind at 1. specialize (IH w1).
  destruct (for_each decrypt_page es w1) as [[xs|ex] w2]; cbn [fst] in IH;
    [|discriminate].
  injection IH as ->. reflexivity.
Qed.

Lemma encrypt_each_returns ps w es w' :
  forallb is_dict ps = true ->
  for_each encrypt_page ps w = (Ok es, w') ->
  Forall2 encrypted_form ps es.
Proof.
  intros D E. apply for_each_returns in E.
  revert D. induction E as [|p e ps es (w1 & w2 & Hp) _ IH]; intros D.
  - constructor.
  - cbn [forallb] in D. apply andb_true_iff in D. destruct D as (Dp & D).
    destruct p; try discriminate.
    constructor; [eapply encrypt_page_returns; exact Hp | exact (IH D)].
Qed.

(** What [encrypt_pages] made of dictionaries, [decrypt_pages] undoes;
    falsy pages are stored as [NULL] and come back as [None]. *)
Lemma decrypt_encrypt_pages ps w ep w' :
  forallb is_dict ps = true ->
  encrypt_pages (VList ps) w = (Ok ep, w') ->
  (match ps with [] => ep = None | _ => exists es, ep = Some (VList es) /\
                                         Forall2 encrypted_form ps es end) /\
  forall w2,
    fst (decrypt_pages (match ep with Some v => v | None => VNone end) w2)
    = Ok (pages_back (VList ps)).
Proof.
  intros D E. unfold encrypt_pages in E. destruct ps as [|p ps].
  - cbn in E. unfold ret in E. injection E as <- _. split; reflexivity.
  - cbn [truthy] in E.
    apply bind_returns in E. destruct E as (items & w1 & E1 & E).
    apply lift_returns in E1. destruct E1 as (E1 & ->).
    cbn in E1. injection E1 as <-.
    apply bind_returns in E. destruct E as (es & w2 & E2 & E).
    unfold ret in E. injection E as <- _.
    pose proof (encrypt_each_returns _ _ _ _ D E2) as Hf.
    split; [eauto|]. intros w3.
    inversion Hf as [|p0 e0 ps0 es0 Hpe Hrest]; subst.
    unfold decrypt_pages, pages_back. cbn [truthy iterate].
    unfold bind at 1. unfold lift at 1. unfold bind.
    pose proof (decrypt_each_encrypted _ _ Hf w3) as Dd.
    destruct (for_each decrypt_page (e0 :: es0) w3) as [[xs|ex] w4];
      cbn [fst] in Dd; [|discriminate].
    injection Dd as ->. reflexivity.
Qed.

Lemma decrypt_encrypt_pages_shape pages w ep w' :
  pages_shape pages = true ->
  encrypt_pages pages w = (Ok ep, w') ->
  forall w2,
    fst (decrypt_pages (match ep with Some v => v | None => VNone end) w2)
    = Ok (pages_back pages).
Proof.
  intros Sh E w2.
  assert (Falsy : truthy pages = false ->
            fst (decrypt_pages (match ep with Some v => v | None => VNone end)
                   w2) = Ok (pages_back pages)).
  { intros T. unfold encrypt_pages, pages_back in *. rewrite T in *.
    unfold ret in E. apply pair_equal_spec in E. destruct E as (E & _).
    apply ok_inj in E. subst ep. reflexivity. }
  destruct pages as [|b|n|s|ps|d];
    try (apply Falsy; unfold pages_shape in Sh;
         apply negb_true_iff in Sh; exact Sh).
  apply (decrypt_encrypt_pages ps w ep w' Sh E).
Qed.

(** ** What the two loops make of any pages *)



Lemma dict_is_dict e v : dict e = Ok v -> exists d, v = VDict d.
Proof.
  assert (Seq : forall x,
            match iterate x with
            | Ok l => match dict_of_pairs [] l with
                      | Ok d => Ok (VDict d)
                      | Raise e => Raise e
                      end
            | Raise e => Raise e
            end = Ok v -> exists d, v = VDict d).
  { intros x. destruct (iterate x) as [l|]; [|discriminate].
    destruct (dict_of_pairs [] l); [|discriminate].
    intros E. apply ok_inj in E. eauto. }
  unfold dict. destruct e; try apply Seq.
  intros E. apply ok_inj in E. eauto.
Qed.

Lemma decrypt_page_form e w p w' :
  decrypt_page e w = (Ok p, w') -> decrypted_form e p.
Proof.
  unfold decrypt_page. change (lit "access_token") with token_key.
  intros E.
  apply bind_returns in E. destruct E as (pc & w1 & E1 & E).
  apply lift_returns in E1. destruct E1 as (E1 & ->).
  destruct (dict_is_dict e pc E1) as (d & ->).
  apply bind_returns in E. destruct E as (has & w2 & E2 & E).
  apply lift_returns in E2. destruct E2 as (E2 & ->).
  rewrite contains_dict in E2. apply ok_inj in E2. subst has.
  exists d. split; [exact E1|].
  destruct (dict_get d (VStr token_key)) as [old|] eqn:G.
  - apply bind_returns in E. destruct E as (old' & w3 & E3 & E).
    apply lift_returns in E3. destruct E3 as (E3 & ->).
    unfold subscript in E3. rewrite G in E3. apply ok_inj in E3. subst old'.
    apply bind_returns in E. destruct E as (x & w4 & E4 & E).
    apply lift_returns in E. destruct E as (E & _).
    unfold set_item in E. apply ok_inj in E. subst p.
    exists x. split; [|reflexivity].
    intros w0. rewrite (pure_decrypt_token old w0 w), E4. reflexivity.
  - unfold ret in E. apply pair_equal_spec in E. destruct E as (E & _).
    apply ok_inj in E. auto.
Qed.

Lemma decrypt_page_run e p w :
  decrypted_form e p -> fst (decrypt_page e w) = Ok p.
Proof.
  intros (d & Ed & H). unfold decrypt_page.
  change (lit "access_token") with token_key.
  unfold bind at 1. unfold lift at 1. rewrite Ed.
  unfold bind at 1. unfold lift at 1. rewrite contains_dict.
  destruct (dict_get d (VStr token_key)) as [old|] eqn:G.
  - destruct H as (x & Hx & ->).
    unfold bind at 1. unfold lift at 1. cbn [subscript]. rewrite G.
    unfold bind. specialize (Hx w).
    destruct (decrypt_token old w) as [[x'|ex] w1]; cbn [fst] in Hx;
      [|discriminate].
    apply ok_inj in Hx. subst x'. reflexivity.
  - subst p. reflexivity.
Qed.

Lemma decrypt_pages_form cell w pages w' :
  decrypt_pages cell w = (Ok pages, w') -> fetched_pages cell pages.
Proof.
  unfold decrypt_pages, fetched_pages. destruct (truthy cell).
  - intros E.
    apply bind_returns in E. destruct E as (items & w1 & E1 & E).
    apply lift_returns in E1. destruct E1 as (E1 & ->).
    apply bind_returns in E. destruct E as (ps & w2 & E2 & E).
    unfold ret in E. apply pair_equal_spec in E. destruct E as (E & _).
    apply ok_inj in E. subst pages.
    exists items, ps. split; [exact E1|]. split; [reflexivity|].
    apply for_each_returns in E2. clear E1.
    induction E2 as [|e p es ps' (wa & wb & Hp) _ IH];
      [constructor|].
    constructor; [exact (decrypt_page_form e wa p wb Hp) | exact IH].
  - unfold ret. intros E. apply pair_equal_spec in E. destruct E as (E & _).
    apply ok_inj in E. auto.
Qed.

Lemma decrypt_pages_run cell pages w :
  fetched_pages cell pages -> fst (decrypt_pages cell w) = Ok pages.
Proof.
  unfold decrypt_pages, fetched_pages. destruct (truthy cell).
  - intros (items & ps & Ei & -> & Hf).
    unfold bind at 1. unfold lift at 1. rewrite Ei. unfold bind.
    assert (Each : forall w0, fst (for_each decrypt_page items w0) = Ok ps).
    { clear Ei. induction Hf as [|e p es ps' Hep _ IH]; intros w0;
        [reflexivity|].
      cbn [for_each]. unfold bind at 1.
      pose proof (decrypt_page_run e p w0 Hep) as D.
      destruct (decrypt_page e w0) as [[x|ex] w1]; cbn [fst] in D;
        [|discriminate].
      apply ok_inj in D. subst x. unfold bind at 1. specialize (IH w1).
      destruct (for_each decrypt_page es w1) as [[xs|ex] w2];
        cbn [fst] in IH; [|discriminate].
      apply ok_inj in IH. subst xs. reflexivity. }
    specialize (Each w).
    destruct (for_each decrypt_page items w) as [[xs|ex] w1];
      cbn [fst] in Each; [|discriminate].
    apply ok_inj in Each. subst xs. reflexivity.
  - intros ->. reflexivity.
Qed.

(** The stored form of a dictionary decrypts to the dictionary. *)
Lemma encrypted_decrypted p e :
  encrypted_form p e -> decrypted_form e p.
Proof.
  intros (d & -> & [(G & ->) | (s & data & r & G & U & ->)]).
  - exists d. split; [reflexivity|]. rewrite G. reflexivity.
  - eexists. split; [reflexivity|]. rewrite (dict_get_set _ _ _ _ G).
    exists (VStr s). split; [intros w; apply (decrypt_fernet_token s data r w U)|].
    rewrite (dict_set_restore _ _ _ _ G). reflexivity.
Qed.

End WithVault.
End Pages.

(* ===================================================================== *)
(** * The contract of the store                                           *)
(* ===================================================================== *)

Module Contract.
Import Py Eff TokenManager Terms MoreTerms Codec Run Table Vault Store
  Lifecycle Pages.
Local Open Scope eff_scope.

Section WithVault.
Context {F : Fernet} {S : Schema}.

(** The three methods keep the table keyed by user, whatever they return:
    "exactly one record per user" is an invariant of the store, from the
    empty table on. *)
Lemma methods_keep_table_keyed u m tok exp pages w :
  keyed (table w) ->
  keyed (table (snd (store_user_token u m tok exp pages w))) /\
  keyed (table (snd (_mark_token_for_reauth u w))) /\
  keyed (table (snd (get_user_token u w))).
Proof.
  intros K. split; [|split].
  - destruct (store_user_token_run u m tok exp pages w)
      as (b & w' & E & _ & _ & _ & _ & Hcase).
    rewrite E. cbn [snd].
    assert (W : written u m tok exp pages w w' -> keyed (table w')).
    { intros (? & ? & ? & ? & ? & ? & ? & ? & _ & _ & _ & _ & Ht & _).
      rewrite Ht. apply merge_keyed, K. }
    destruct Hcase as [(_ & Hw & _) | (_ & e & _ & [Ht | (Hw & _)])]; auto.
    rewrite Ht. exact K.
  - destruct (mark_run u w) as (w' & E & _ & _ & _ & Hcase).
    rewrite E. cbn [snd].
    destruct Hcase as [(_ & _ & _ & Ht & _) | (i & e & _ & _ & Ht & _)];
      rewrite Ht; [apply update_reauth_keyed|]; exact K.
  - destruct (get_user_token_cases u w) as (res & w' & E & Sh).
    rewrite E. cbn [snd]. destruct res as [[|d]|].
    + destruct Sh as (_ & r & _ & [(_ & ->) | (_ & t & _ & _ & Em)]);
        [exact K|].
      destruct (mark_run (USER_ID r) (after_read u w))
        as (w2 & E2 & _ & _ & _ & Hcase).
      rewrite Em in E2. injection E2 as <-.
      destruct Hcase as [(_ & _ & _ & Ht & _) | (i & e & _ & _ & Ht & _)];
        rewrite Ht; [apply update_reauth_keyed|]; exact K.
    + destruct Sh as (_ & r & _ & _ & _ & D).
      destruct (decrypt_record_run r _ _ _ D) as (O & _).
      apply outside_vault_fields in O. destruct O as (Ot & _).
      rewrite Ot. exact K.
    + destruct Sh as (Ht & _). rewrite Ht. exact K.
Qed.

(** C6, as the code has it.  [store_user_token] returns a boolean on every
    input and in every world: no exception leaves it.  [True] is
    returned only when every step went through, [conn.close()]
    included, and then the [MERGE] has run with the encrypted token, the
    computed expiry and the encrypted pages ([written]).  [False] is
    returned with the exception logged.  A failure to encrypt the token
    or the pages, and a fault of the connection, of the cursor or of the
    [MERGE] itself, give [False] with the table as it was; so when the
    fourth driver call, [conn.close()], does not fail, [False] means
    that nothing was written.  A fault of [conn.close()] gives [False]
    as well, and it is the one case in which [False] comes after the
    [MERGE] has run. *)
Theorem store_user_token_never_raises u m tok exp pages w :
  exists b w',
    store_user_token u m tok exp pages w = (Ok b, w') /\
    (b = true ->
       written u m tok exp pages w w' /\ log w' = log w /\
       fault_at w 3 = None) /\
    (b = false ->
       exists e,
         log w' = log w ++ [("Error storing token"%string, e)] /\
         (table w' = table w \/
          (written u m tok exp pages w w' /\ fault_at w 3 = Some e))) /\
    (b = false -> fault_at w 3 = None -> table w' = table w) /\
    (forall e, fault_at w 3 = Some e -> b = false) /\
    (forall e, encode tok = Raise e -> b = false /\ table w' = table w) /\
    ((forall wa, exists e, fst (encrypt_pages pages wa) = Raise e) ->
       b = false /\ table w' = table w) /\
    (forall i e, (i < 3)%nat -> fault_at w i = Some e ->
       b = false /\ table w' = table w).
Proof.
  destruct (store_user_token_run u m tok exp pages w)
    as (b & w' & E & _ & _ & _ & _ & Hcase).
  exists b, w'. split; [exact E|].
  assert (NoEnc : forall e, encode tok = Raise e ->
                            ~ written u m tok exp pages w w').
  { intros e He (enc & ? & ? & ? & wa & wb & ? & ? & Henc & _).
    destruct (encrypt_token_ok _ _ _ _ Henc) as (data & Hd). congruence. }
  assert (NoPages : (forall wa, exists e, fst (encrypt_pages pages wa) = Raise e)
                    -> ~ written u m tok exp pages w w').
  { intros Hp (? & ? & ? & ep & ? & ? & wc & wd & _ & _ & _ & Hep & _).
    destruct (Hp wc) as (e & He). rewrite Hep in He. discriminate. }
  assert (NoFault : forall i e, (i < 3)%nat -> fault_at w i = Some e ->
                                ~ written u m tok exp pages w w').
  { intros i e Hi He (? & ? & ? & ? & ? & ? & ? & ? & _ & _ & _ & _ & _
                      & X0 & X1 & X2).
    destruct i as [|[|[|i]]]; try congruence. lia. }
  destruct Hcase as [(-> & Hw & Hc & Hl) | (-> & e & Hl & Ht)].
  - split; [auto|]. split; [discriminate|]. split; [discriminate|].
    split; [intros e He; congruence|].
    split; [intros e He; destruct (NoEnc e He Hw)|].
    split; [intros Hp; destruct (NoPages Hp Hw)|].
    intros i e Hi He. destruct (NoFault i e Hi He Hw).
  - split; [discriminate|]. split; [eauto|].
    split.
    { intros _ Hc. destruct Ht as [Ht | (_ & Hf)]; [exact Ht | congruence]. }
    split; [reflexivity|].
    assert (G : ~ written u m tok exp pages w w' ->
                false = false /\ table w' = table w).
    { intros N. split; [reflexivity|].
      destruct Ht as [Ht | (Hw & _)]; [exact Ht | destruct (N Hw)]. }
    split; [intros e0 He; apply G; eauto|].
    split; [intros Hp; apply G; auto|].
    intros i e0 Hi He. apply G. eauto.
Qed.

(** C3.  A call of [store_user_token] that returns [True] with a
    lifetime of [l] seconds leaves for the user at least one row, and in
    every row of the user the expiry is the clock read by that call plus
    [l] seconds.  When [l <= 0], a fetch of the same table at any
    strictly later time answers the marker [{'needs_reauth': True}] as
    soon as the read itself goes through (whether or not the flag can
    then be written), and in no case a decrypted record. *)
Theorem zero_lifetime_needs_reauth u m tok (l : Z) pages w w1 :
  store_user_token u m tok (VInt l) pages w = (Ok true, w1) ->
  (select u (table w1) <> [] /\
   forall r, In r (select u (table w1)) ->
             TOKEN_EXPIRY r = Some (py_clock w + l * 1000000)) /\
  (l <= 0 ->
   forall w2, table w2 = table w1 -> py_clock w < py_clock w2 ->
     (read_ok w2 ->
      exists w3, get_user_token u w2 = (Ok (Some NeedsReauth), w3)) /\
     (forall res w3, get_user_token u w2 = (Ok res, w3) ->
                     res = None \/ res = Some NeedsReauth)).
Proof.
  intros E.
  destruct (store_user_token_true _ _ _ _ _ _ _ E)
    as ((enc & delta & t & ep & wa & wb & wc & wd & _ & Hd & Ha & _ & Ht & _)
        & _).
  assert (Hdelta : delta = l * 1000000).
  { cbn in Hd. destruct (Z.abs (l / 86400) <=? 999999999);
      [injection Hd as <-; reflexivity | discriminate]. }
  assert (Hexp : t = py_clock w + l * 1000000).
  { unfold datetime_add in Ha. rewrite Hdelta in Ha.
    destruct (_ && _); [injection Ha as <-; reflexivity | discriminate]. }
  subst delta t.
  assert (Rows : select u (table w1) <> [] /\
                 forall r, In r (select u (table w1)) ->
                           TOKEN_EXPIRY r = Some (py_clock w + l * 1000000)).
  { rewrite Ht, select_merge. destruct (select u (table w)) as [|r0 rows].
    - split; [discriminate|]. intros r [<-|[]]. reflexivity.
    - split; [discriminate|]. intros r Hin. apply in_map_iff in Hin.
      destruct Hin as (? & <- & _). reflexivity. }
  split; [exact Rows|].
  intros Hl w2 Et Hlater.
  assert (HRow : forall r, fetchone (select u (table w2)) = Some r ->
                          TOKEN_EXPIRY r = Some (py_clock w + l * 1000000)).
  { intros r Hr. apply (proj2 Rows). rewrite <- Et.
    destruct (select u (table w2)); [discriminate|].
    injection Hr as ->. left. reflexivity. }
  assert (Inv : forall res w3, get_user_token u w2 = (Ok res, w3) ->
                               res = None \/ res = Some NeedsReauth).
  { intros res w3 H.
    destruct (get_user_token_cases u w2) as (res' & w3' & H' & Sh).
    rewrite H in H'. injection H' as <- <-.
    destruct res as [[|d]|]; auto.
    destruct Sh as (_ & r & Hr & _ & Fr & _).
    rewrite (HRow r Hr) in Fr. lia. }
  split; [|exact Inv].
  intros R.
  destruct (get_user_token_cases u w2) as (res & w3 & H & Sh).
  destruct (Inv res w3 H) as [-> | ->]; [|eauto].
  exfalso. destruct Sh as (_ & [(_ & Hn & _) | (e & He)]).
  - rewrite Et in Hn. destruct Rows as (NE & _). contradiction.
  - destruct (fetchone (select u (table w2))) as [r|] eqn:Hr.
    2:{ destruct (select u (table w2)) eqn:Es; [|discriminate].
        rewrite Et in Es. destruct Rows as (NE & _). contradiction. }
    destruct (flag_set (NEEDS_REAUTH r)) eqn:Fl.
    + rewrite (get_user_token_flagged u w2 r R Hr Fl) in H. discriminate.
    + destruct (get_user_token_expired u w2 r _ R Hr Fl (HRow r eq_refl))
        as (w4 & H4 & _); [lia|].
      rewrite H in H4. discriminate.
Qed.



(** C8.  A fetch returns in every world: [None], the marker, or a
    record; no exception leaves it.  It answers [None] for a user with no
    row, and [None] when the read meets a fault of the driver.  When the
    stored token does not decrypt, the answer is [None] or the marker.  A
    record is answered only by a run in which nothing failed (nothing was
    logged) and nothing was written. *)
Theorem get_user_token_degrades u w :
  exists res w',
    get_user_token u w = (Ok res, w') /\
    (select u (table w) = [] -> res = None) /\
    (~ read_ok w -> res = None) /\
    (forall r e,
       fetchone (select u (table w)) = Some r ->
       fst (decrypt_token (ACCESS_TOKEN r) w) = Raise e ->
       res = None \/ res = Some NeedsReauth) /\
    (forall d, res = Some (Token d) -> log w' = log w /\ table w' = table w).
Proof.
  destruct (get_user_token_cases u w) as (res & w' & H & Sh).
  exists res, w'. split; [exact H|].
  destruct res as [[|d]|].
  - destruct Sh as (R & r & Hr & _).
    split; [intros E; rewrite E in Hr; discriminate|].
    split; [intros N; destruct (N R)|].
    split; [auto | discriminate].
  - destruct Sh as (R & r & Hr & Fl & Ex & D).
    destruct (decrypt_record_run r _ _ _ D) as (O & _ & Hd & _).
    apply outside_vault_fields in O. destruct O as (Ot & _ & _ & Ol & _).
    split; [intros E; rewrite E in Hr; discriminate|].
    split; [intros N; destruct (N R)|].
    split.
    + intros r0 e Hr0 He. rewrite Hr in Hr0. injection Hr0 as <-.
      rewrite (pure_decrypt_token (ACCESS_TOKEN r) w (after_read u w)) in He.
      rewrite Hd in He. discriminate.
    + intros _ _. split; [exact Ol | exact Ot].
  - split; [reflexivity|]. split; [reflexivity|].
    split; [auto | discriminate].
Qed.

(** C9.  [_mark_token_for_reauth] returns in every world, whatever the
    driver does.  Row by row, the table afterwards differs from the table
    before in the flag of the rows of the user at most.  A fault of the
    driver is logged.  Once an application has run its [UPDATE], every
    row of the user has the flag [TRUE] (the rows of the user are the
    rows that were there, flagged), a fetch of that table answers the
    marker at every reading of the clock, and a second application
    leaves the table as the first one left it.  And inside a fetch that
    finds the record expired, the answer is the marker whatever happens
    to the update. *)
Theorem mark_token_for_reauth_idempotent u w :
  exists w1,
    _mark_token_for_reauth u w = (Ok tt, w1) /\
    Forall2 (only_flag u) (table w) (table w1) /\
    (forall i e, (i < 4)%nat -> fault_at w i = Some e ->
       exists e', log w1
                  = log w ++ [("Error marking token for reauth"%string, e')]) /\
    (fault_at w 0 = None -> fault_at w 1 = None -> fault_at w 2 = None ->
     table w1 = update_reauth u (table w) /\
     select u (table w1) = map flagged (select u (table w)) /\
     (forall r, In r (select u (table w1)) -> NEEDS_REAUTH r = Some true) /\
     (forall u', u' <> u -> select u' (table w1) = select u' (table w)) /\
     (select u (table w) <> [] ->
      forall w2 now, table w2 = table w1 -> read_ok w2 ->
        get_user_token u (with_py_clock now w2)
        = (Ok (Some NeedsReauth), after_read u (with_py_clock now w2))) /\
     forall w1', table w1' = table w1 ->
       exists w2, _mark_token_for_reauth u w1' = (Ok tt, w2) /\
                  table w2 = table w1) /\
    (forall w0 r t,
       read_ok w0 -> fetchone (select u (table w0)) = Some r ->
       flag_set (NEEDS_REAUTH r) = false ->
       TOKEN_EXPIRY r = Some t -> t < py_clock w0 ->
       exists w', get_user_token u w0 = (Ok (Some NeedsReauth), w')).
Proof.
  assert (Same : forall t, Forall2 (only_flag u) t t).
  { induction t as [|r t IH]; constructor; [|exact IH].
    unfold only_flag. repeat split; auto. }
  assert (Upd : forall t, Forall2 (only_flag u) t (update_reauth u t)).
  { induction t as [|r t IH]; cbn; constructor; [|exact IH].
    unfold only_flag. destruct (str_eqb (USER_ID r) u) eqn:E; cbn.
    - apply str_eqb_eq in E. repeat split; auto.
    - repeat split; auto. }
  destruct (mark_run u w) as (w1 & E & _ & _ & _ & Hcase).
  exists w1. split; [exact E|].
  split; [|split; [|split]].
  - destruct Hcase as [(_ & _ & _ & Ht & _) | (i & e & _ & _ & Ht & _)];
      rewrite Ht; auto.
  - intros i e Hi He.
    destruct Hcase as [(X0 & X1 & X2 & _ & _ & Hl) | (j & e' & _ & _ & _ & _ & Hl)];
      [|eauto].
    destruct i as [|[|[|[|i]]]]; try congruence; [|lia].
    rewrite He in Hl. eauto.
  - intros X0 X1 X2.
    assert (Ht : table w1 = update_reauth u (table w)).
    { destruct Hcase as [(_ & _ & _ & Ht & _) | (i & e & Hi & He & _)];
        [exact Ht|].
      destruct i as [|[|[|i]]]; try congruence. lia. }
    assert (Hs : select u (table w1) = map flagged (select u (table w)))
      by (rewrite Ht; apply select_update_reauth).
    split; [exact Ht|]. split; [exact Hs|].
    split.
    { intros r Hin. rewrite Hs in Hin. apply in_map_iff in Hin.
      destruct Hin as (r0 & <- & _). reflexivity. }
    split.
    { intros u' NE. rewrite Ht. apply select_update_reauth_other. exact NE. }
    split.
    { intros NE w2 now Et R2.
      destruct (select u (table w)) as [|r0 rows] eqn:Es; [contradiction|].
      apply (get_user_token_flagged u (with_py_clock now w2) (flagged r0));
        [exact R2 | | reflexivity].
      change (table (with_py_clock now w2)) with (table w2).
      rewrite Et, Hs. reflexivity. }
    intros w1' Et.
    destruct (mark_run u w1') as (w2 & E2 & _ & _ & _ & Hcase2).
    exists w2. split; [exact E2|].
    destruct Hcase2 as [(_ & _ & _ & Ht2 & _) | (i & e & _ & _ & Ht2 & _)].
    + rewrite Ht2, Et, Ht. apply update_reauth_idem.
    + rewrite Ht2. exact Et.
  - intros w0 r t R Hr Fl Et Lt.
    destruct (get_user_token_expired u w0 r t R Hr Fl Et Lt) as (w' & H & _).
    eauto.
Qed.

(** C10.  When the record of the user has the flag unset and no expiry
    ([TOKEN_EXPIRY] is [NULL]), a fetch never answers the marker,
    whatever the clock says, and never touches the table.  When the read
    goes through and the stored token and the tokens of the stored pages
    decrypt, it answers the decrypted record: the ids of the row, the
    decryption of [ACCESS_TOKEN], the pages of [PAGES] each with its
    [access_token] decrypted ([None] when the cell is empty),
    [token_expiry] [None] and [needs_reauth] [False].  And a record it
    answers is that one. *)
Theorem no_expiry_never_expires u w r :
  fetchone (select u (table w)) = Some r ->
  flag_set (NEEDS_REAUTH r) = false ->
  TOKEN_EXPIRY r = None ->
  (forall res w',
     get_user_token u w = (Ok res, w') ->
     res <> Some NeedsReauth /\ table w' = table w) /\
  (read_ok w ->
   forall tok pages,
     fst (decrypt_token (ACCESS_TOKEN r) w) = Ok tok ->
     fetched_pages (pages_cell (PAGES r)) pages ->
     exists w',
       get_user_token u w =
       (Ok (Some (Token {|
          tok_user_id := USER_ID r;
          tok_meta_user_id := META_USER_ID r;
          tok_access_token := tok;
          tok_token_expiry := None;
          tok_pages := pages;
          tok_needs_reauth := false |})), w')) /\
  (forall d w',
     get_user_token u w = (Ok (Some (Token d)), w') ->
     tok_user_id d = USER_ID r /\ tok_meta_user_id d = META_USER_ID r /\
     fst (decrypt_token (ACCESS_TOKEN r) w) = Ok (tok_access_token d) /\
     tok_token_expiry d = None /\ tok_needs_reauth d = false /\
     fetched_pages (pages_cell (PAGES r)) (tok_pages d)).
Proof.
  intros Hr Fl Ex. split; [|split].
  - intros res w' H.
    destruct (get_user_token_cases u w) as (res' & w'' & H' & Sh).
    rewrite H in H'. injection H' as <- <-.
    destruct res as [[|d]|].
    + exfalso. destruct Sh as (_ & r0 & Hr0 & Hc).
      rewrite Hr in Hr0. injection Hr0 as <-.
      destruct Hc as [(Fl' & _) | (_ & t & Et & _)]; congruence.
    + split; [discriminate|].
      destruct Sh as (_ & r0 & _ & _ & _ & D).
      destruct (decrypt_record_run r0 _ _ _ D) as (O & _).
      apply outside_vault_fields in O. destruct O as (Ot & _). exact Ot.
    + split; [discriminate|]. destruct Sh as (Ht & _). exact Ht.
  - intros R tok pages Htok Hform.
    pose proof (decrypt_pages_run _ _ w Hform) as Hpages.
    assert (Fr : match TOKEN_EXPIRY r with
                 | Some t => py_clock w <= t
                 | None => True
                 end) by (rewrite Ex; exact I).
    rewrite (get_user_token_fresh u w r R Hr Fl Fr).
    unfold try_except, decrypt_record, bind.
    rewrite (pure_decrypt_token (ACCESS_TOKEN r) w (after_read u w)) in Htok.
    destruct (decrypt_token (ACCESS_TOKEN r) (after_read u w))
      as [[tok'|e] wa]; cbn [fst] in Htok; [|discriminate].
    injection Htok as ->.
    rewrite (pure_decrypt_pages (pages_cell (PAGES r)) w wa) in Hpages.
    destruct (decrypt_pages (pages_cell (PAGES r)) wa)
      as [[pages'|e] wb]; cbn [fst] in Hpages; [|discriminate].
    injection Hpages as ->. rewrite Ex. unfold ret. eauto.
  - intros d w' H.
    destruct (get_user_token_cases u w) as (res' & w'' & H' & Sh).
    rewrite H in H'. apply pair_equal_spec in H'. destruct H' as (H' & <-).
    apply ok_inj in H'. subst res'.
    destruct Sh as (_ & r0 & Hr0 & _ & _ & D).
    rewrite Hr in Hr0. apply some_inj in Hr0. subst r0.
    unfold decrypt_record in D.
    apply bind_returns in D. destruct D as (tok & wa & Dt & D).
    apply bind_returns in D. destruct D as (pages & wb & Dp & D).
    unfold ret in D. apply pair_equal_spec in D. destruct D as (D & _).
    apply ok_inj in D. apply some_inj in D.
    assert (Ed : d = {| tok_user_id := USER_ID r;
                        tok_meta_user_id := META_USER_ID r;
                        tok_access_token := tok;
                        tok_token_expiry := TOKEN_EXPIRY r;
                        tok_pages := pages;
                        tok_needs_reauth := false |}) by congruence.
    subst d.
    cbn [tok_user_id tok_meta_user_id tok_access_token tok_token_expiry
         tok_pages tok_needs_reauth]. rewrite Ex.
    split; [reflexivity|]. split; [reflexivity|].
    split.
    { rewrite (pure_decrypt_token (ACCESS_TOKEN r) w (after_read u w)), Dt.
      reflexivity. }
    split; [reflexivity|]. split; [reflexivity|].
    exact (decrypt_pages_form _ _ _ _ Dp).
Qed.

End WithVault.

(** ** The theorems at work on a small deployment *)

(** [store_user_token("u1", "fb123", "tok-abc", lifetime, [page_one])] *)
Definition demo_store (lifetime : Z) : M bool :=
  @store_user_token demo_fernet demo_schema u1 (VStr (lit "fb123"))
    (VStr (lit "tok-abc")) (VInt lifetime) (VList [page_one]).

Definition stored_zero : World := snd (demo_store 0 world0).


Lemma zero_lifetime_witness :
  demo_store 0 world0 = (Ok true, stored_zero) /\
  exists w3,
    @get_user_token demo_fernet demo_schema u1 (with_py_clock 1 stored_zero)
    = (Ok (Some NeedsReauth), w3).
Proof.
  assert (H : demo_store 0 world0 = (Ok true, stored_zero))
    by (vm_compute; reflexivity).
  split; [exact H|].
  refine (proj1 (proj2 (@zero_lifetime_needs_reauth demo_fernet demo_schema
            u1 _ _ 0 _ world0 stored_zero H)
          (Z.le_refl 0) (with_py_clock 1 stored_zero) eq_refl _) _).
  - reflexivity.
  - repeat split.
Defined.




(** [False], and yet the record is saved: [conn.close()] fails after the
    [MERGE] has run, the call answers [False], the table holds the row
    and the next fetch returns the token. *)
Lemma store_false_counterexample :
  table world_close_fails = [] /\
  fst (demo_store 3600 world_close_fails) = Ok false /\
  List.length (select u1 (table (snd (demo_store 3600 world_close_fails))))
  = 1%nat /\
  fst (@get_user_token demo_fernet demo_schema u1
         (with_py_clock 1
            (with_db_script [] (snd (demo_store 3600 world_close_fails)))))
  = Ok (Some (Token {|
      tok_user_id := u1;
      tok_meta_user_id := VStr (lit "fb123");
      tok_access_token := VStr (lit "tok-abc");
      tok_token_expiry := Some 3600000000;
      tok_pages := VList [page_one];
      tok_needs_reauth := false |})).
Proof. vm_compute. repeat split. Qed.

Lemma no_expiry_witness :
  fetchone (@select u1 (table (with_table [row_with_pages] world0)))
  = Some row_with_pages /\
  flag_set (NEEDS_REAUTH row_with_pages) = false /\
  TOKEN_EXPIRY row_with_pages = None /\
  exists w',
    @get_user_token demo_fernet demo_schema u1
      (with_py_clock 99 (with_table [row_with_pages] world0))
    = (Ok (Some (Token {|
         tok_user_id := u1;
         tok_meta_user_id := VStr (lit "fb123");
         tok_access_token := VStr (lit "tok-abc");
         tok_token_expiry := None;
         tok_pages := VList [page_one];
         tok_needs_reauth := false |})), w').
Proof.
  split; [reflexivity|]. split; [reflexivity|]. split; [reflexivity|].
  assert (R : read_ok (with_py_clock 99 (with_table [row_with_pages] world0)))
    by (repeat split).
  assert (T : fst (@decrypt_token demo_fernet (ACCESS_TOKEN row_with_pages)
                     (with_py_clock 99 (with_table [row_with_pages] world0)))
              = Ok (VStr (lit "tok-abc")))
    by (vm_compute; reflexivity).
  assert (P : @fetched_pages demo_fernet
                (@pages_cell demo_schema (PAGES row_with_pages))
                (VList [page_one])).
  { exists [page_one_stored], [page_one].
    split; [reflexivity|]. split; [reflexivity|].
    constructor; [|constructor].
    eexists. split; [vm_compute; reflexivity|].
    exists (VStr (lit "page-secret")).
    split; [intros w; vm_compute; reflexivity | vm_compute; reflexivity]. }
  exact (proj1 (proj2 (@no_expiry_never_expires demo_fernet demo_schema u1
                         (with_py_clock 99
                            (with_table [row_with_pages] world0))
                         row_with_pages eq_refl eq_refl eq_refl))
           R (VStr (lit "tok-abc")) (VList [page_one]) T P).
Defined.

(** The scenario of the specification: store, then fetch. *)
Example fetch_after_store :
  fst (@get_user_token demo_fernet demo_schema u1
         (with_py_clock 1 (snd (demo_store 3600 world0))))
  = Ok (Some (Token {|
      tok_user_id := u1;
      tok_meta_user_id := VStr (lit "fb123");
      tok_access_token := VStr (lit "tok-abc");
      tok_token_expiry := Some 3600000000;
      tok_pages := VList [page_one];
      tok_needs_reauth := false |})).
Proof. vm_compute. reflexivity. Qed.

Example fetch_after_negative_lifetime :
  let noon := 63900000000000000 in
  fst (@get_user_token demo_fernet demo_schema u1
         (snd (demo_store (-10) (with_py_clock noon world0))))
  = Ok (Some NeedsReauth).
Proof. vm_compute. reflexivity. Qed.

Example fetch_unknown_user :
  fst (@get_user_token demo_fernet demo_schema (lit "unknown_user") world0)
  = Ok None.
Proof. vm_compute. reflexivity. Qed.

(** The connection cannot be opened: [False], and the table is as it
    was. *)
Example store_connection_down :
  let w := with_db_script [Some (DatabaseError 250001)] world0 in
  fst (demo_store 3600 w) = Ok false /\
  table (snd (demo_store 3600 w)) = [].
Proof. vm_compute. split; reflexivity. Qed.

(** A token with a lone surrogate cannot be encoded: [False]. *)
Example store_unencodable_token :
  fst (@store_user_token demo_fernet demo_schema u1 VNone
         (VStr [0xD800]) (VInt 60) VNone world0) = Ok false.
Proof. vm_compute. reflexivity. Qed.

End Contract.

(* ===================================================================== *)
(** * The OAuth flow                                                      *)
(* ===================================================================== *)

Module Flow.
Import Py Eff TokenManager MetaAuth Terms Codec Run Table Vault Store Lifecycle
  Contract.
Local Open Scope eff_scope.

Lemma requests_get_eq url params w :
  requests_get url params w =
  (answer (hd_error (http_script w)), sent (EvGet url params) w).
Proof.
  destruct w as [t pc dc ds hs en lg tr].
  unfold requests_get, bind, emit, sent. cbn.
  destruct hs as [|[e|st b] hs]; reflexivity.
Qed.

Section WithSelf.
Context {F : Fernet} {S : Schema} (self : MetaAuth.t).

Lemma exchange_code_for_token_eq code w :
  exchange_code_for_token self code w =
  (stage_json (hd_error (http_script w)), sent (get_code self code) w).
Proof.
  unfold exchange_code_for_token, bind. rewrite requests_get_eq.
  unfold stage_json, raise_for_status, json, get_code.
  destruct (answer _) as [r|e]; [|reflexivity].
  destruct (_ && _); [reflexivity|]. unfold ret.
  destruct (body r); reflexivity.
Qed.

Lemma get_long_lived_token_eq tok w :
  get_long_lived_token self tok w =
  (stage_json (hd_error (http_script w)), sent (get_long_lived self tok) w).
Proof.
  unfold get_long_lived_token, bind. rewrite requests_get_eq.
  unfold stage_json, raise_for_status, json, get_long_lived.
  destruct (answer _) as [r|e]; [|reflexivity].
  destruct (_ && _); [reflexivity|]. unfold ret.
  destruct (body r); reflexivity.
Qed.

Lemma get_user_info_eq tok w :
  get_user_info tok w =
  (stage_json (hd_error (http_script w)), sent (get_me tok) w).
Proof.
  unfold get_user_info, bind. rewrite requests_get_eq.
  unfold stage_json, raise_for_status, json, get_me.
  destruct (answer _) as [r|e]; [|reflexivity].
  destruct (_ && _); [reflexivity|]. unfold ret.
  destruct (body r); reflexivity.
Qed.

Lemma get_pages_eq tok w :
  get_pages tok w =
  (stage_pages (hd_error (http_script w)), sent (get_accounts tok) w).
Proof.
  unfold get_pages, bind. rewrite requests_get_eq.
  unfold stage_pages, json, get_accounts.
  destruct (answer _) as [r|e]; [|reflexivity].
  destruct (status_code r =? 200); [|reflexivity].
  destruct (body r) as [v|]; [|reflexivity].
  unfold ret, lift. reflexivity.
Qed.

Lemma hd_tl_1 {A} (s : list A) : hd_error (tl s) = nth_error s 1.
Proof. destruct s as [|? [|? ?]]; reflexivity. Qed.

Lemma hd_tl_2 {A} (s : list A) : hd_error (tl (tl s)) = nth_error s 2.
Proof. destruct s as [|? [|? [|? ?]]]; reflexivity. Qed.

Lemma hd_tl_3 {A} (s : list A) : hd_error (tl (tl (tl s))) = nth_error s 3.
Proof. destruct s as [|? [|? [|? [|? ?]]]]; reflexivity. Qed.

(** The flow is its remote half followed by one call of
    [store_user_token]; an exception of the remote half is logged and
    answered with [None]. *)
Lemma complete_oauth_flow_eq u code w :
  complete_oauth_flow self u code w =
  match remote self code (http_script w) with
  | (gets, Raise e) =>
      (Ok None,
       with_log (log w ++ [("Error completing OAuth flow"%string, e)])
         (sent_all gets w))
  | (gets, Ok a) =>
      match store_user_token u (acc_meta_user_id a) (acc_token a)
              (acc_expires_in a) (acc_pages a) (sent_all gets w) with
      | (Ok true, w2) =>
          (Ok (Some {| user_info := acc_user_info a;
                       pages := acc_pages a |}), w2)
      | (Ok false, w2) => (Ok None, w2)
      | (Raise e, w2) =>
          (Ok None,
           with_log (log w2 ++ [("Error completing OAuth flow"%string, e)]) w2)
      end
  end.
Proof.
  unfold complete_oauth_flow, try_except, remote.
  unfold bind at 1. rewrite exchange_code_for_token_eq.
  change (hd_error (http_script w)) with (nth_error (http_script w) 0).
  destruct (stage_json (nth_error (http_script w) 0)) as [td|e];
    [|reflexivity].
  unfold bind at 1. unfold lift at 1.
  destruct (subscript td (lit "access_token")) as [at1|e]; [|reflexivity].
  unfold bind at 1. rewrite get_long_lived_token_eq.
  change (http_script (sent (get_code self code) w))
    with (tl (http_script w)).
  rewrite hd_tl_1.
  destruct (stage_json (nth_error (http_script w) 1)) as [ld|e];
    [|reflexivity].
  unfold bind at 1. unfold lift at 1.
  destruct (subscript ld (lit "access_token")) as [lt|e]; [|reflexivity].
  unfold bind at 1. unfold lift at 1.
  destruct (subscript ld (lit "expires_in")) as [ex|e]; [|reflexivity].
  unfold bind at 1. rewrite get_user_info_eq.
  change (http_script (sent (get_long_lived self at1)
                         (sent (get_code self code) w)))
    with (tl (tl (http_script w))).
  rewrite hd_tl_2.
  destruct (stage_json (nth_error (http_script w) 2)) as [ui|e];
    [|reflexivity].
  unfold bind at 1. unfold lift at 1.
  destruct (subscript ui (lit "id")) as [id|e]; [|reflexivity].
  unfold bind at 1. rewrite get_pages_eq.
  change (http_script (sent (get_me lt)
                         (sent (get_long_lived self at1)
                            (sent (get_code self code) w))))
    with (tl (tl (tl (http_script w)))).
  rewrite hd_tl_3.
  destruct (stage_pages (nth_error (http_script w) 3)) as [pg|e];
    [|reflexivity].
  unfold bind at 1. cbn [acc_meta_user_id acc_token acc_expires_in acc_pages
                         acc_user_info sent_all fold_left].
  destruct (store_user_token u id lt ex pg _) as [[[|]|e] w2]; reflexivity.
Qed.

Lemma sent_all_fields evs w :
  table (sent_all evs w) = table w /\ log (sent_all evs w) = log w /\
  py_clock (sent_all evs w) = py_clock w /\
  db_clock (sent_all evs w) = db_clock w /\
  db_script (sent_all evs w) = db_script w /\
  trace (sent_all evs w) = trace w ++ evs.
Proof.
  revert w. induction evs as [|ev evs IH]; intros w; cbn [sent_all fold_left].
  - rewrite app_nil_r. repeat split.
  - destruct (IH (sent ev w)) as (Ht & Hl & Hp & Hd & Hs & Htr).
    unfold sent_all in *. rewrite Ht, Hl, Hp, Hd, Hs, Htr. cbn.
    rewrite <- app_assoc. repeat split.
Qed.

(** The remote half makes requests only: one per stage entered, four
    when every stage went through. *)
Lemma remote_gets code s :
  forallb is_get (fst (remote self code s)) = true /\
  match snd (remote self code s) with
  | Ok _ => List.length (fst (remote self code s)) = 4%nat
  | Raise _ => (List.length (fst (remote self code s)) <= 4)%nat
  end.
Proof.
  unfold remote.
  repeat match goal with
    | |- context [stage_json ?o] => destruct (stage_json o)
    | |- context [stage_pages ?o] => destruct (stage_pages o)
    | |- context [subscript ?v ?k] => destruct (subscript v k)
    end; cbn; split; (reflexivity || lia).
Qed.

(** When [get_pages] raises, the remote half raises. *)
Lemma remote_pages_raise code s e :
  stage_pages (nth_error s 3) = Raise e ->
  exists e', snd (remote self code s) = Raise e'.
Proof.
  intros E. unfold remote. rewrite E.
  repeat match goal with
    | |- context [stage_json ?o] => destruct (stage_json o)
    | |- context [subscript ?v ?k] => destruct (subscript v k)
    end; cbn; eauto.
Qed.

(** C2, as the code has it.  Every flow returns.  Its trace is the
    requests of the remote half followed by at most one call of
    [store_user_token]: none when a stage raised, and then the answer is
    [None] and the table is as it was; exactly one, after the four
    requests and with the accumulated token, lifetime, identity and
    pages, when all four stages went through, followed by the vault calls
    and the [MERGE] of that call only.  When [get_pages] raises (no
    reply, or a 200 reply whose body is not JSON or has no [get]), a
    stage raised.  A reply to [get_pages] with a status other than 200 is
    not a failure of the stage: the page list is empty and the flow goes
    on. *)
Theorem flow_persists_once_at_the_end u code w :
  exists res w' gets tail,
    complete_oauth_flow self u code w = (Ok res, w') /\
    trace w' = trace w ++ gets ++ tail /\
    forallb is_get gets = true /\
    ((tail = [] /\ res = None /\ table w' = table w /\
      exists e, snd (remote self code (http_script w)) = Raise e) \/
     (exists a tr,
        snd (remote self code (http_script w)) = Ok a /\
        List.length gets = 4%nat /\
        tail = EvUpsert u (acc_meta_user_id a) (acc_token a)
                 (acc_expires_in a) (acc_pages a) :: tr /\
        forallb store_event tr = true)) /\
    (forall e, stage_pages (nth_error (http_script w) 3) = Raise e ->
       tail = [] /\ res = None /\ table w' = table w) /\
    (forall st b, nth_error (http_script w) 3 = Some (Reply st b) ->
       st <> 200 ->
       stage_pages (nth_error (http_script w) 3) = Ok (VList [])).
Proof.
  rewrite complete_oauth_flow_eq.
  pose proof (remote_gets code (http_script w)) as (Hg & Hlen).
  pose proof (remote_pages_raise code (http_script w)) as Hpr.
  assert (Non200 : forall st b,
            nth_error (http_script w) 3 = Some (Reply st b) -> st <> 200 ->
            stage_pages (nth_error (http_script w) 3) = Ok (VList [])).
  { intros st b E NE. rewrite E. unfold stage_pages. cbn.
    destruct (Z.eqb_spec st 200); [contradiction | reflexivity]. }
  destruct (remote self code (http_script w)) as [gets [a|e]];
    cbn [fst snd] in *.
  - destruct (sent_all_fields gets w) as (Ft & Fl & Fp & Fd & Fs & Ftr).
    destruct (store_user_token_run u (acc_meta_user_id a) (acc_token a)
                (acc_expires_in a) (acc_pages a) (sent_all gets w))
      as (b & w2 & E & _ & _ & _ & (tr & Htr & Hev) & _).
    rewrite E.
    exists (if b then Some {| user_info := acc_user_info a;
                              pages := acc_pages a |} else None),
           w2, gets,
           (EvUpsert u (acc_meta_user_id a) (acc_token a)
              (acc_expires_in a) (acc_pages a) :: tr).
    split; [destruct b; reflexivity|].
    split; [rewrite Htr, Ftr, <- app_assoc; reflexivity|].
    split; [exact Hg|].
    split; [right; exists a, tr; auto|].
    split; [|exact Non200].
    intros e He. destruct (Hpr e He) as (e' & He'). discriminate.
  - destruct (sent_all_fields gets w) as (Ft & Fl & Fp & Fd & Fs & Ftr).
    exists None. eexists. exists gets, [].
    split; [reflexivity|]. cbn.
    split; [rewrite app_nil_r; exact Ftr|].
    split; [exact Hg|].
    split; [left; eauto|].
    split; [auto | exact Non200].
Qed.

(** C7, as the code has it.  Every flow returns, and the answer is the
    dictionary of [user_info] and [pages], or [None].  When a stage of
    the remote half raises (no reply; a 4xx or 5xx reply, or a body that
    is not JSON, or an answer without the expected key, in the first
    three stages; [get_pages] raising), the flow has made the requests up
    to that stage and no other, the exception is logged under "Error
    completing OAuth flow", nothing is stored and the answer is [None].
    When the four stages go through, the answer is the dictionary if
    [store_user_token] returned [True], and [None] (logged by the store)
    if it returned [False].  The first stage to raise ends the remote
    half with the requests made so far. *)
Theorem flow_answers_none_on_failure u code w :
  exists res w',
    complete_oauth_flow self u code w = (Ok res, w') /\
    match remote self code (http_script w) with
    | (gets, Raise e) =>
        res = None /\ table w' = table w /\
        trace w' = trace w ++ gets /\
        log w' = log w ++ [("Error completing OAuth flow"%string, e)]
    | (gets, Ok a) =>
        (res = Some {| user_info := acc_user_info a; pages := acc_pages a |}
         /\ written u (acc_meta_user_id a) (acc_token a) (acc_expires_in a)
              (acc_pages a) (sent_all gets w) w' /\
         log w' = log w) \/
        (res = None /\
         exists e, log w' = log w ++ [("Error storing token"%string, e)])
    end /\
    (forall e, stage_json (nth_error (http_script w) 0) = Raise e ->
       remote self code (http_script w) = ([get_code self code], Raise e)) /\
    (forall td e, stage_json (nth_error (http_script w) 0) = Ok td ->
       subscript td (lit "access_token") = Raise e ->
       remote self code (http_script w) = ([get_code self code], Raise e)) /\
    (forall td tok e, stage_json (nth_error (http_script w) 0) = Ok td ->
       subscript td (lit "access_token") = Ok tok ->
       stage_json (nth_error (http_script w) 1) = Raise e ->
       remote self code (http_script w)
       = ([get_code self code; get_long_lived self tok], Raise e)).
Proof.
  rewrite complete_oauth_flow_eq.
  assert (Stages :
    (forall e, stage_json (nth_error (http_script w) 0) = Raise e ->
       remote self code (http_script w) = ([get_code self code], Raise e)) /\
    (forall td e, stage_json (nth_error (http_script w) 0) = Ok td ->
       subscript td (lit "access_token") = Raise e ->
       remote self code (http_script w) = ([get_code self code], Raise e)) /\
    (forall td tok e, stage_json (nth_error (http_script w) 0) = Ok td ->
       subscript td (lit "access_token") = Ok tok ->
       stage_json (nth_error (http_script w) 1) = Raise e ->
       remote self code (http_script w)
       = ([get_code self code; get_long_lived self tok], Raise e))).
  { split; [|split].
    - intros e E. unfold remote. rewrite E. reflexivity.
    - intros td e E1 E2. unfold remote. rewrite E1, E2. reflexivity.
    - intros td tok e E1 E2 E3. unfold remote. rewrite E1, E2, E3.
      reflexivity. }
  destruct (remote self code (http_script w)) as [gets [a|e]].
  - destruct (sent_all_fields gets w) as (Ft & Fl & Fp & Fd & Fs & Ftr).
    destruct (store_user_token_run u (acc_meta_user_id a) (acc_token a)
                (acc_expires_in a) (acc_pages a) (sent_all gets w))
      as (b & w2 & E & _ & _ & _ & _ & Hcase).
    rewrite E.
    exists (if b then Some {| user_info := acc_user_info a;
                              pages := acc_pages a |} else None), w2.
    split; [destruct b; reflexivity|]. split; [|exact Stages].
    destruct Hcase as [(-> & Hw & _ & Hl) | (-> & e & Hl & _)].
    + left. rewrite Hl, Fl. auto.
    + right. split; [reflexivity|]. exists e. rewrite Hl, Fl. reflexivity.
  - destruct (sent_all_fields gets w) as (Ft & Fl & Fp & Fd & Fs & Ftr).
    exists None. eexists. split; [reflexivity|]. split; [|exact Stages].
    cbn [with_log table trace log]. auto.
Qed.

End WithSelf.

(** ** The flow on concrete replies *)

(** [complete_oauth_flow("u1", "code")] on the replies [s]. *)
Definition demo_flow (s : list reply)
  : result (option flow_result) * World :=
  @complete_oauth_flow demo_fernet demo_schema demo_app u1
    (VStr (lit "code")) (with_http_script s world0).

(** The resource-enumeration stage failed in the specification's sense (a
    5xx reply), and yet a record was persisted for the user. *)
Lemma flow_atomicity_counterexample :
  spec_remote_failure (nth_error replies_pages_500 3) = true /\
  table (with_http_script replies_pages_500 world0) = [] /\
  exists r,
    table (snd (demo_flow replies_pages_500)) = [r] /\
    USER_ID r = u1 /\ PAGES r = None.
Proof.
  split; [reflexivity|]. split; [reflexivity|].
  eexists. split; [vm_compute; reflexivity|]. split; reflexivity.
Qed.

(** A 5xx reply at the fourth stage does not abort the flow: it answers
    the dictionary.  And a first stage and a second stage that fail for
    the same cause leave the same answer and the same log, although one
    flow stopped after one request and the other after two: nothing the
    caller gets identifies the stage. *)
Lemma flow_error_counterexample :
  (spec_remote_failure (nth_error replies_pages_500 3) = true /\
   exists r, fst (demo_flow replies_pages_500) = Ok (Some r)) /\
  (fst (demo_flow [no_token_reply])
   = fst (demo_flow [short_lived_reply; no_token_reply]) /\
   log (snd (demo_flow [no_token_reply]))
   = log (snd (demo_flow [short_lived_reply; no_token_reply])) /\
   List.length (trace (snd (demo_flow [no_token_reply]))) = 1%nat /\
   List.length (trace (snd (demo_flow [short_lived_reply; no_token_reply])))
   = 2%nat).
Proof.
  split.
  - split; [reflexivity|]. eexists. vm_compute. reflexivity.
  - repeat split; vm_compute; reflexivity.
Qed.

(** The accounts endpoint is down: [get_pages] raises, the flow answers
    [None] after four requests and stores nothing. *)
Example flow_pages_down :
  fst (demo_flow replies_pages_down) = Ok None /\
  table (snd (demo_flow replies_pages_down)) = [] /\
  forallb (fun ev => negb (is_upsert ev))
    (trace (snd (demo_flow replies_pages_down))) = true /\
  List.length (trace (snd (demo_flow replies_pages_down))) = 4%nat /\
  log (snd (demo_flow replies_pages_down))
  = [("Error completing OAuth flow"%string, ConnectionError)].
Proof. vm_compute. repeat split. Qed.

(** All four stages answer: the dictionary, and one row. *)
Example flow_succeeds :
  let s := [short_lived_reply; long_lived_reply; identity_reply;
            Reply 200 (Some (VDict [(VStr (lit "data"), VList [page_one])]))] in
  fst (demo_flow s)
  = Ok (Some {| user_info :=
                  VDict [(VStr (lit "id"), VStr (lit "fb123"));
                         (VStr (lit "name"), VStr (lit "Ada"))];
                pages := VList [page_one] |}) /\
  List.length (table (snd (demo_flow s))) = 1%nat.
Proof. vm_compute. split; reflexivity. Qed.

End Flow.

(* ===================================================================== *)
(** * Storing and fetching                                                *)
(* ===================================================================== *)

Module RoundTrip.
Import Py Eff TokenManager Terms MoreTerms Codec Run Table Vault Store
  Lifecycle Pages Contract.
Local Open Scope eff_scope.

Section WithVault.
Context {F : Fernet} {S : Schema}.

(** ** Fetching a fresh record *)

(** A record that is neither flagged nor expired, read without a fault
    and decrypted without one, is what the fetch returns. *)
Lemma get_user_token_decrypts u w r tok pages :
  read_ok w ->
  fetchone (select u (table w)) = Some r ->
  flag_set (NEEDS_REAUTH r) = false ->
  match TOKEN_EXPIRY r with Some t => py_clock w <= t | None => True end ->
  fst (decrypt_token (ACCESS_TOKEN r) w) = Ok tok ->
  fst (decrypt_pages (pages_cell (PAGES r)) w) = Ok pages ->
  exists w',
    get_user_token u w =
    (Ok (Some (Token {|
       tok_user_id := USER_ID r;
       tok_meta_user_id := META_USER_ID r;
       tok_access_token := tok;
       tok_token_expiry := TOKEN_EXPIRY r;
       tok_pages := pages;
       tok_needs_reauth := false |})), w') /\
    keeps outside_vault (after_read u w) w' /\
    grows vault_event (after_read u w) w'.
Proof.
  intros R Hr Fl Fr Htok Hpages.
  rewrite (get_user_token_fresh u w r R Hr Fl Fr).
  unfold try_except.
  destruct (decrypt_record r (after_read u w)) as [[res|e] w1] eqn:D.
  - destruct (decrypt_record_run r _ _ _ D) as (O & G & _).
    exists w1. split; [|split; assumption]. f_equal.
    revert D. unfold decrypt_record, bind.
    rewrite (pure_decrypt_token (ACCESS_TOKEN r) w (after_read u w)) in Htok.
    destruct (decrypt_token (ACCESS_TOKEN r) (after_read u w))
      as [[tok'|e] wa]; cbn [fst] in Htok; [|discriminate].
    apply ok_inj in Htok. subst tok'.
    rewrite (pure_decrypt_pages (pages_cell (PAGES r)) w wa) in Hpages.
    destruct (decrypt_pages (pages_cell (PAGES r)) wa)
      as [[pages'|e] wb]; cbn [fst] in Hpages; [|discriminate].
    apply ok_inj in Hpages. subst pages'.
    unfold ret. intros E. apply pair_equal_spec in E. destruct E as (E & _).
    symmetry. exact E.
  - exfalso. revert D. unfold decrypt_record, bind.
    rewrite (pure_decrypt_token (ACCESS_TOKEN r) w (after_read u w)) in Htok.
    destruct (decrypt_token (ACCESS_TOKEN r) (after_read u w))
      as [[tok'|e'] wa]; cbn [fst] in Htok; [|discriminate].
    rewrite (pure_decrypt_pages (pages_cell (PAGES r)) w wa) in Hpages.
    destruct (decrypt_pages (pages_cell (PAGES r)) wa)
      as [[pages'|e'] wb]; cbn [fst] in Hpages; [|discriminate].
    unfold ret. discriminate.
Qed.

(** The row a fetch finds is a row of the user asked for. *)
Lemma fetchone_user u t r :
  fetchone (select u t) = Some r -> USER_ID r = u.
Proof.
  unfold fetchone, select. intros E.
  assert (In r (filter (fun r => str_eqb (USER_ID r) u) t)).
  { destruct (filter _ t); [discriminate|]. injection E as ->. left.
    reflexivity. }
  apply filter_In in H. destruct H as (_ & H). apply str_eqb_eq. exact H.
Qed.

(** A successful store followed by a fetch of the same table. *)
Lemma store_then_fetch u m tok exp pages w w1 w2 :
  (forall v, variant_cell v = v) ->
  pages_shape pages = true ->
  store_user_token u m tok exp pages w = (Ok true, w1) ->
  select u (table w) <> [] \/ flag_set default_needs_reauth = false ->
  table w2 = table w1 ->
  read_ok w2 ->
  exists delta,
    timedelta_seconds exp = Ok delta /\
    (py_clock w2 <= py_clock w + delta ->
     exists w3,
       get_user_token u w2 =
       (Ok (Some (Token {|
          tok_user_id := u;
          tok_meta_user_id := m;
          tok_access_token := tok;
          tok_token_expiry := Some (py_clock w + delta);
          tok_pages := pages_back pages;
          tok_needs_reauth := false |})), w3)).
Proof.
  intros Hv Sh E Hflag Et R.
  destruct (store_user_token_true _ _ _ _ _ _ _ E)
    as ((enc & delta & t & ep & wa & wb & wc & wd
         & Henc & Hd & Ha & Hep & Ht & _) & _).
  assert (Hx : t = py_clock w + delta).
  { unfold datetime_add in Ha.
    destruct (_ && _); [apply ok_inj in Ha; auto | discriminate]. }
  subst t. exists delta. split; [exact Hd|]. intros Hnow.
  assert (Hrow : exists r,
            fetchone (select u (table w2)) = Some r /\
            USER_ID r = u /\ META_USER_ID r = m /\ ACCESS_TOKEN r = enc /\
            TOKEN_EXPIRY r = Some (py_clock w + delta) /\ PAGES r = ep /\
            flag_set (NEEDS_REAUTH r) = false).
  { rewrite Et, Ht, select_merge.
    destruct (select u (table w)) as [|r0 rows].
    - eexists. split; [reflexivity|]. cbn.
      destruct Hflag as [C|C]; [contradiction|]. repeat split; auto.
    - eexists. split; [reflexivity|]. cbn. repeat split; auto. }
  destruct Hrow as (r & Hr & Hu & Hm & Htok & Hexp & Hpg & Hfl).
  destruct (get_user_token_decrypts u w2 r tok (pages_back pages) R Hr Hfl)
    as (w3 & H & _).
  - rewrite Hexp. exact Hnow.
  - rewrite Htok. apply (decrypt_encrypt_token _ _ _ _ Henc).
  - rewrite Hpg.
    replace (pages_cell ep)
      with (match ep with Some v => v | None => VNone end)
      by (destruct ep; cbn; [rewrite Hv|]; reflexivity).
    apply (decrypt_encrypt_pages_shape _ _ _ _ Sh Hep).
  - exists w3. rewrite H, Hu, Hm, Hexp. reflexivity.
Qed.

(** X1.  What a successful [store_user_token] wrote is what the next
    fetch returns.  When the call returned [True] for pages that are
    nothing or a list of dictionaries, the flag of the row is not set
    (the user had a row, or the column defaults to unset), the connector
    hands a [PAGES] cell back as the document written, and the read goes
    through before the expiry: the fetch answers the record with the
    provider user id, the access token and the pages that were passed
    (falsy pages come back as [None]), the expiry computed at the write,
    and [needs_reauth] [False]. *)
Theorem fetch_returns_what_was_stored u m tok exp pages w w1 w2 :
  (forall v, variant_cell v = v) ->
  pages_shape pages = true ->
  store_user_token u m tok exp pages w = (Ok true, w1) ->
  select u (table w) <> [] \/ flag_set default_needs_reauth = false ->
  table w2 = table w1 ->
  read_ok w2 ->
  exists delta,
    timedelta_seconds exp = Ok delta /\
    (py_clock w2 <= py_clock w + delta ->
     exists w3,
       get_user_token u w2 =
       (Ok (Some (Token {|
          tok_user_id := u;
          tok_meta_user_id := m;
          tok_access_token := tok;
          tok_token_expiry := Some (py_clock w + delta);
          tok_pages := pages_back pages;
          tok_needs_reauth := false |})), w3)).
Proof. apply store_then_fetch. Qed.

(** X2.  Every list of pages the accounts endpoint can send (dictionaries
    whose [access_token], if any, is an encodable string) is accepted by
    [encrypt_pages] in every world, and stored page by page in encrypted
    form; [decrypt_pages] gives the list back exactly. *)
Theorem pages_roundtrip ps w :
  ps <> [] ->
  forallb page_ok ps = true ->
  exists es w',
    encrypt_pages (VList ps) w = (Ok (Some (VList es)), w') /\
    Forall2 encrypted_form ps es /\
    forall w2, fst (decrypt_pages (VList es) w2) = Ok (VList ps).
Proof.
  intros NE Hok.
  assert (Each : forall ps w, forallb page_ok ps = true ->
                   exists es w', for_each encrypt_page ps w = (Ok es, w')).
  { clear. induction ps as [|p ps IH]; intros w Hok.
    - exists [], w. reflexivity.
    - cbn [forallb] in Hok. apply andb_true_iff in Hok.
      destruct Hok as (Hp & Hok).
      assert (Hpage : exists e w1, encrypt_page p w = (Ok e, w1)).
      { destruct p as [| | | | |d]; try discriminate. cbn [page_ok] in Hp.
        unfold encrypt_page. unfold bind at 1. unfold lift at 1. cbn [copy].
        unfold bind at 1. unfold lift at 1. rewrite contains_dict.
        change (lit "access_token") with token_key.
        destruct (dict_get d (VStr token_key)) as [old|] eqn:G;
          [|unfold ret; eauto].
        unfold bind at 1. unfold lift at 1. unfold subscript. rewrite G.
        destruct old as [| | |s| |]; try discriminate.
        assert (V : valid_utf8 s).
        { apply Forall_forall. intros c Hc.
          rewrite forallb_forall in Hp. auto. }
        destruct (utf8_roundtrip s V) as (data & U & _).
        destruct (encrypt_token_run s data w U) as (r & w1 & Hr).
        unfold bind. rewrite Hr. unfold lift, set_item. eauto. }
      destruct Hpage as (e & w1 & He).
      destruct (IH w1 Hok) as (es & w2 & Hes).
      exists (e :: es), w2. cbn [for_each].
      unfold bind at 1. rewrite He. unfold bind at 1. rewrite Hes.
      reflexivity. }
  destruct (Each ps w Hok) as (es & w' & Hes).
  assert (D : forallb is_dict ps = true).
  { rewrite forallb_forall in *. intros p Hp. specialize (Hok p Hp).
    destruct p; try discriminate. reflexivity. }
  assert (E : encrypt_pages (VList ps) w = (Ok (Some (VList es)), w')).
  { unfold encrypt_pages. destruct ps as [|p ps]; [contradiction|].
    cbn [truthy iterate]. unfold bind at 1. unfold lift at 1.
    unfold bind. rewrite Hes. reflexivity. }
  exists es, w'. split; [exact E|].
  destruct (decrypt_encrypt_pages ps w _ w' D E) as (Hform & Hback).
  destruct ps as [|p ps]; [contradiction|].
  destruct Hform as (es' & Ees & Hf). apply some_inj in Ees.
  injection Ees as <-.
  split; [exact Hf|]. intros w2. specialize (Hback w2). exact Hback.
Qed.

(** X3.  Only ciphertext reaches the table.  After a [store_user_token]
    that returned [True], the access token passed was an encodable
    string, [ACCESS_TOKEN] of every row of the user is the Fernet token
    of its UTF-8 encoding, and [PAGES] holds, page by page, the pages
    passed with the Fernet token of each [access_token] in its place
    (nothing else of a page is changed), or [NULL] when there were no
    pages. *)
Theorem stored_secrets_are_fernet_tokens u m tok exp ps w w1 :
  forallb is_dict ps = true ->
  store_user_token u m tok exp (VList ps) w = (Ok true, w1) ->
  exists s data r,
    tok = VStr s /\ utf8_encode s = Ok data /\
    select u (table w1) <> [] /\
    forall row, In row (select u (table w1)) ->
      ACCESS_TOKEN row = VStr (fernet_encrypt r data) /\
      match ps with
      | [] => PAGES row = None
      | _ => exists es, PAGES row = Some (VList es) /\
                        Forall2 encrypted_form ps es
      end.
Proof.
  intros D E.
  destruct (store_user_token_true _ _ _ _ _ _ _ E)
    as ((enc & delta & t & ep & wa & wb & wc & wd
         & Henc & _ & _ & Hep & Ht & _) & _).
  destruct (encrypt_token_returns _ _ _ _ Henc) as (s & data & r & -> & U & ->).
  destruct (decrypt_encrypt_pages ps wc ep wd D Hep) as (Hform & _).
  exists s, data, r. split; [reflexivity|]. split; [exact U|].
  rewrite Ht, select_merge.
  destruct (select u (table w)) as [|r0 rows].
  - split; [discriminate|]. intros row [<-|[]]. cbn. auto.
  - split; [discriminate|]. intros row Hin. apply in_map_iff in Hin.
    destruct Hin as (? & <- & _). cbn. auto.
Qed.

(** X4.  A lifetime that is not a number of seconds, or that puts the
    expiry outside the dates [datetime] can hold, is rejected: the call
    returns [False], the exception is logged and the table is as it
    was. *)
Theorem store_rejects_bad_lifetime u m tok exp pages w :
  match exp with
  | VInt l => py_clock w + l * 1000000 < 0 \/
              datetime_end <= py_clock w + l * 1000000
  | VBool _ => False
  | _ => True
  end ->
  exists w' e,
    store_user_token u m tok exp pages w = (Ok false, w') /\
    table w' = table w /\
    log w' = log w ++ [("Error storing token"%string, e)].
Proof.
  intros Bad.
  destruct (store_user_token_run u m tok exp pages w)
    as (b & w' & E & _ & _ & _ & _ & Hcase).
  assert (N : ~ written u m tok exp pages w w').
  { intros (enc & delta & t & ep & wa & wb & wc & wd
            & _ & Hd & Ha & _).
    destruct exp as [|b0|l|s|l0|d]; cbn in Hd; try discriminate;
      try contradiction.
    destruct (Z.abs (l / 86400) <=? 999999999); [|discriminate].
    apply ok_inj in Hd. subst delta. unfold datetime_add in Ha.
    destruct (Z.leb_spec 0 (py_clock w + l * 1000000));
      destruct (Z.ltb_spec (py_clock w + l * 1000000) datetime_end);
      cbn in Ha; try discriminate; lia. }
  destruct Hcase as [(_ & Hw & _) | (-> & e & Hl & [Ht | (Hw & _)])];
    try contradiction.
  exists w', e. auto.
Qed.

(** X5.  [store_user_token] touches the rows of its user only, and never
    removes a row: whatever it returns, the rows of every other user are
    the ones that were there, and the user has at least as many rows as
    before. *)
Theorem store_leaves_other_users u m tok exp pages w :
  exists b w',
    store_user_token u m tok exp pages w = (Ok b, w') /\
    (forall u', u' <> u -> select u' (table w') = select u' (table w)) /\
    (List.length (select u (table w)) <= List.length (select u (table w')))%nat.
Proof.
  destruct (store_user_token_run u m tok exp pages w)
    as (b & w' & E & _ & _ & _ & _ & Hcase).
  exists b, w'. split; [exact E|].
  assert (W : written u m tok exp pages w w' ->
            (forall u', u' <> u -> select u' (table w') = select u' (table w))
            /\ (List.length (select u (table w))
                <= List.length (select u (table w')))%nat).
  { intros (? & ? & ? & ? & ? & ? & ? & ? & _ & _ & _ & _ & Ht & _).
    rewrite Ht. split.
    - intros u' NE. apply select_merge_other. exact NE.
    - rewrite select_merge. destruct (select u (table w)) as [|r0 rows].
      + cbn. lia.
      + rewrite length_map. lia. }
  destruct Hcase as [(_ & Hw & _) | (_ & e & _ & [Ht | (Hw & _)])]; auto.
  rewrite Ht. split; [reflexivity | lia].
Qed.

(** X6.  A fetch is a read but for one thing.  Whatever it returns, every
    row of the table afterwards is the row that was there, except that
    the flag of rows of the user asked for may have been set. *)
Theorem fetch_changes_the_flag_only u w :
  exists res w',
    get_user_token u w = (Ok res, w') /\
    Forall2 (only_flag u) (table w) (table w').
Proof.
  assert (Same : forall t, Forall2 (only_flag u) t t).
  { induction t as [|r t IH]; constructor; [|exact IH].
    unfold only_flag. repeat split; auto. }
  assert (Upd : forall t, Forall2 (only_flag u) t (update_reauth u t)).
  { induction t as [|r t IH]; cbn; constructor; [|exact IH].
    unfold only_flag. destruct (str_eqb (USER_ID r) u) eqn:E; cbn.
    - apply str_eqb_eq in E. repeat split; auto.
    - repeat split; auto. }
  destruct (get_user_token_cases u w) as (res & w' & H & Sh).
  exists res, w'. split; [exact H|].
  destruct res as [[|d]|].
  - destruct Sh as (_ & r & Hr & [(_ & ->) | (_ & t & _ & _ & Em)]);
      [apply Same|].
    rewrite (fetchone_user _ _ _ Hr) in Em.
    destruct (mark_run u (after_read u w)) as (w2 & E2 & _ & _ & _ & Hcase).
    rewrite Em in E2. injection E2 as <-.
    destruct Hcase as [(_ & _ & _ & Ht & _) | (i & e & _ & _ & Ht & _)];
      rewrite Ht; [apply Upd | apply Same].
  - destruct Sh as (_ & r & _ & _ & _ & D).
    destruct (decrypt_record_run r _ _ _ D) as (O & _).
    apply outside_vault_fields in O. destruct O as (Ot & _).
    rewrite Ot. apply Same.
  - destruct Sh as (Ht & _). rewrite Ht. apply Same.
Qed.

Lemma fault_at_after_read u w i :
  fault_at (after_read u w) i = fault_at w (4 + i).
Proof.
  unfold fault_at, after_read. cbn.
  destruct (db_script w) as [|? [|? [|? [|? ?]]]]; try reflexivity;
    destruct i; reflexivity.
Qed.

(** X7.  Expiry is remembered.  When a fetch finds the record past its
    expiry and its [UPDATE] goes through, the rows of the user are
    flagged in the table; from then on a fetch whose read goes through
    answers the marker at every reading of the clock, also one that is
    before the expiry. *)
Theorem expiry_is_remembered u w r t :
  read_ok w ->
  fetchone (select u (table w)) = Some r ->
  flag_set (NEEDS_REAUTH r) = false ->
  TOKEN_EXPIRY r = Some t -> t < py_clock w ->
  fault_at w 4 = None -> fault_at w 5 = None -> fault_at w 6 = None ->
  exists w',
    get_user_token u w = (Ok (Some NeedsReauth), w') /\
    table w' = update_reauth u (table w) /\
    forall w2 now,
      table w2 = table w' -> read_ok w2 ->
      get_user_token u (with_py_clock now w2)
      = (Ok (Some NeedsReauth), after_read u (with_py_clock now w2)).
Proof.
  intros R Hr Fl Et Lt X4 X5 X6.
  destruct (get_user_token_expired u w r t R Hr Fl Et Lt) as (w' & H & Hm).
  rewrite (fetchone_user _ _ _ Hr) in Hm.
  destruct (mark_run u (after_read u w)) as (w1 & E1 & _ & _ & _ & Hcase).
  rewrite Hm in E1. injection E1 as <-.
  assert (Ht : table w' = update_reauth u (table w)).
  { destruct Hcase as [(_ & _ & _ & Ht & _) | (i & e & Hi & He & _)];
      [exact Ht|].
    rewrite fault_at_after_read in He.
    destruct i as [|[|[|i]]]; cbn in He; try congruence. lia. }
  exists w'. split; [exact H|]. split; [exact Ht|].
  intros w2 now Et2 R2.
  assert (Hsel : fetchone (select u (table w2)) = Some (flagged r)).
  { rewrite Et2, Ht, select_update_reauth.
    unfold fetchone in *. destruct (select u (table w)); [discriminate|].
    injection Hr as ->. reflexivity. }
  apply (get_user_token_flagged u (with_py_clock now w2) (flagged r));
    [exact R2 | exact Hsel | reflexivity].
Qed.

End WithVault.
End RoundTrip.

(* ===================================================================== *)
(** * The other methods                                                   *)
(* ===================================================================== *)

Module Rest.
Import Py Eff TokenManager MetaAuth Utils MetaAuthRest App Terms MoreTerms
  Codec Run Table Vault Store Lifecycle Contract Flow Pages RoundTrip.
Local Open Scope eff_scope.

(** ** [store_existing_token] *)

Section WithVault.
Context {F : Fernet} {S : Schema}.

(** The method is its two requests, the product of the lifetime, and one
    call of [store_user_token] whose answer it returns; an exception on
    the way is logged and answered with [False]. *)
Lemma store_existing_token_eq u tok days w :
  store_existing_token u tok days w =
  match checked tok (http_script w) with
  | (gets, Raise e) =>
      (Ok false,
       with_log (log w ++ [("Error storing existing token"%string, e)])
         (sent_all gets w))
  | (gets, Ok (meta_user_id, pages)) =>
      match seconds_of_days days with
      | Raise e =>
          (Ok false,
           with_log (log w ++ [("Error storing existing token"%string, e)])
             (sent_all gets w))
      | Ok expires_in =>
          match store_user_token u meta_user_id tok expires_in pages
                  (sent_all gets w) with
          | (Ok b, w2) => (Ok b, w2)
          | (Raise e, w2) =>
              (Ok false,
               with_log
                 (log w2 ++ [("Error storing existing token"%string, e)]) w2)
          end
      end
  end.
Proof.
  unfold store_existing_token, try_except, checked, seconds_of_days.
  unfold bind at 1. rewrite get_user_info_eq.
  change (hd_error (http_script w)) with (nth_error (http_script w) 0).
  destruct (stage_json (nth_error (http_script w) 0)) as [ui|e];
    [|reflexivity].
  unfold bind at 1. unfold lift at 1.
  destruct (subscript ui (lit "id")) as [id|e]; [|reflexivity].
  unfold bind at 1. rewrite get_pages_eq.
  change (http_script (sent (get_me tok) w)) with (tl (http_script w)).
  rewrite hd_tl_1.
  destruct (stage_pages (nth_error (http_script w) 1)) as [pg|e];
    [|reflexivity].
  unfold bind at 1. unfold lift at 1.
  destruct (mul days 24) as [a|e]; [|reflexivity].
  unfold bind at 1. unfold lift at 1.
  destruct (mul a 60) as [b|e]; [|reflexivity].
  unfold bind at 1. unfold lift at 1.
  destruct (mul b 60) as [c|e]; [|reflexivity].
  unfold bind at 1. cbn [sent_all fold_left].
  destruct (store_user_token u id tok c pg _) as [[b0|e] w2]; reflexivity.
Qed.

(** A number of days gives that many times 86400 seconds; nothing and
    dictionaries give nothing. *)
Lemma seconds_of_days_int d :
  seconds_of_days (VInt d) = Ok (VInt (d * 86400)).
Proof. unfold seconds_of_days, mul. do 2 f_equal. lia. Qed.

(** X8.  [store_existing_token] returns a boolean in every world.  When
    the identity lookup raises (no reply, a 4xx or 5xx reply, a body that
    is not JSON or has no [id]: the token is not valid), exactly one
    request has been made, the pages are never asked for, nothing is
    stored, the exception is logged and the answer is [False].  In every
    case at most two requests are made, and [store_user_token] is called
    at most once, after them. *)
Theorem store_existing_token_checks_the_token u tok days w :
  exists b w' gets tail,
    store_existing_token u tok days w = (Ok b, w') /\
    trace w' = trace w ++ gets ++ tail /\
    gets = fst (checked tok (http_script w)) /\
    forallb is_get gets = true /\ (List.length gets <= 2)%nat /\
    (tail = [] \/
     exists m exp pages tr,
       tail = EvUpsert u m tok exp pages :: tr /\
       forallb store_event tr = true) /\
    (forall e,
       (stage_json (nth_error (http_script w) 0) = Raise e \/
        exists ui, stage_json (nth_error (http_script w) 0) = Ok ui /\
                   subscript ui (lit "id") = Raise e) ->
       b = false /\ gets = [get_me tok] /\ tail = [] /\
       table w' = table w /\
       log w' = log w ++ [("Error storing existing token"%string, e)]).
Proof.
  rewrite store_existing_token_eq.
  assert (First : forall e,
    (stage_json (nth_error (http_script w) 0) = Raise e \/
     exists ui, stage_json (nth_error (http_script w) 0) = Ok ui /\
                subscript ui (lit "id") = Raise e) ->
    checked tok (http_script w) = ([get_me tok], Raise e)).
  { intros e [E | (ui & E1 & E2)]; unfold checked.
    - rewrite E. reflexivity.
    - rewrite E1, E2. reflexivity. }
  assert (Gets : forallb is_get (fst (checked tok (http_script w))) = true /\
                 (List.length (fst (checked tok (http_script w))) <= 2)%nat).
  { unfold checked.
    repeat match goal with
      | |- context [stage_json ?o] => destruct (stage_json o)
      | |- context [stage_pages ?o] => destruct (stage_pages o)
      | |- context [subscript ?v ?k] => destruct (subscript v k)
      end; cbn; split; (reflexivity || lia). }
  destruct Gets as (Hg & Hlen).
  destruct (checked tok (http_script w)) as [gets [[m pages]|e]] eqn:C;
    cbn [fst] in *.
  - destruct (sent_all_fields gets w) as (Ft & Fl & _ & _ & _ & Ftr).
    destruct (seconds_of_days days) as [exp|e].
    + destruct (store_user_token_run u m tok exp pages (sent_all gets w))
        as (b & w2 & E & _ & _ & _ & (tr & Htr & Hev) & _).
      rewrite E.
      exists b, w2, gets, (EvUpsert u m tok exp pages :: tr).
      split; [reflexivity|].
      split; [rewrite Htr, Ftr, <- app_assoc; reflexivity|].
      split; [reflexivity|]. split; [exact Hg|]. split; [exact Hlen|].
      split; [right; exists m, exp, pages, tr; split; [reflexivity | exact Hev]|].
      intros e He. specialize (First e He). discriminate.
    + exists false. eexists. exists gets, [].
      split; [reflexivity|]. cbn [with_log table trace log].
      split; [rewrite app_nil_r; exact Ftr|].
      split; [reflexivity|]. split; [exact Hg|]. split; [exact Hlen|].
      split; [auto|].
      intros e' He. specialize (First e' He). discriminate.
  - destruct (sent_all_fields gets w) as (Ft & Fl & _ & _ & _ & Ftr).
    exists false. eexists. exists gets, [].
    split; [reflexivity|]. cbn [with_log table trace log].
    split; [rewrite app_nil_r; exact Ftr|].
    split; [reflexivity|]. split; [exact Hg|]. split; [exact Hlen|].
    split; [auto|].
    intros e' He. specialize (First e' He).
    injection First as <- <-. auto.
Qed.

(** X9.  When [store_existing_token] returns [True] for a lifetime of
    [d] days, both requests were answered, the user has a row, and every
    row of the user expires [d * 86400] seconds after the clock read by
    the call (60 days when [expiry_days] is left to its default) and
    holds a ciphertext that decrypts to the token that was passed. *)
Theorem store_existing_token_lifetime u tok (d : Z) w w' :
  store_existing_token u tok (VInt d) w = (Ok true, w') ->
  (exists m pages,
     snd (checked tok (http_script w)) = Ok (m, pages)) /\
  select u (table w') <> [] /\
  forall r, In r (select u (table w')) ->
    TOKEN_EXPIRY r = Some (py_clock w + d * 86400 * 1000000) /\
    forall w2, fst (decrypt_token (ACCESS_TOKEN r) w2) = Ok tok.
Proof.
  rewrite store_existing_token_eq, seconds_of_days_int.
  destruct (checked tok (http_script w)) as [gets [[m pages]|e]];
    [|discriminate].
  destruct (sent_all_fields gets w) as (Ft & _ & Fp & Fd & _ & _).
  destruct (store_user_token u m tok (VInt (d * 86400)) pages
              (sent_all gets w)) as [[b|e] w2] eqn:E; [|discriminate].
  intros X. injection X as -> ->.
  destruct (store_user_token_true _ _ _ _ _ _ _ E)
    as ((enc & delta & t & ep & wa & wb & wc & wd
         & Henc & Hd & Ha & _ & Ht & _) & _).
  assert (Hdelta : delta = d * 86400 * 1000000).
  { cbn in Hd. destruct (Z.abs (d * 86400 / 86400) <=? 999999999);
      [apply ok_inj in Hd; auto | discriminate]. }
  assert (Hexp : t = py_clock w + d * 86400 * 1000000).
  { unfold datetime_add in Ha. rewrite Hdelta, Fp in Ha.
    destruct (_ && _); [apply ok_inj in Ha; auto | discriminate]. }
  subst delta t. split; [cbn; eauto|].
  rewrite Ht, select_merge, Ft.
  destruct (select u (table w)) as [|r0 rows].
  - split; [discriminate|]. intros r [<-|[]]. cbn.
    split; [reflexivity | apply (decrypt_encrypt_token _ _ _ _ Henc)].
  - split; [discriminate|]. intros r Hin. apply in_map_iff in Hin.
    destruct Hin as (? & <- & _). cbn.
    split; [reflexivity | apply (decrypt_encrypt_token _ _ _ _ Henc)].
Qed.

End WithVault.
End Rest.

(* ===================================================================== *)
(** * [get_instagram_accounts]                                            *)
(* ===================================================================== *)

Module Accounts.
Import Py Eff TokenManager MetaAuth MetaAuthRest Terms MoreTerms
  Run Store Flow Pages RoundTrip.
Local Open Scope eff_scope.

(** ** The loop *)

(** What the body of the loop makes of a page it can handle. *)
Lemma account_of_page_ok p :
  account_page_ok p = true ->
  if has_account p
  then exists a, account_of_page p = Ok (Some a) /\ account_with_page_id p a
  else account_of_page p = Ok None.
Proof.
  destruct p as [| | | | |d]; try discriminate.
  unfold account_page_ok, has_account, account_of_page.
  rewrite contains_dict. cbn [subscript]. fold account_key.
  destruct (dict_get d (VStr account_key)) as [acc|] eqn:G; [|reflexivity].
  destruct acc as [| | | | |acc]; try discriminate.
  destruct (dict_get d (VStr (lit "id"))) as [pid|] eqn:I; [|discriminate].
  intros _. cbn [set_item]. eexists. split; [reflexivity|].
  exists d, acc, pid. auto.
Qed.

(** Over pages it can handle the loop appends, in order, the account of
    every page that has one. *)
Lemma collect_accounts_ok ps :
  forallb account_page_ok ps = true ->
  exists accs,
    Forall2 account_with_page_id (filter has_account ps) accs /\
    forall acc, collect_accounts ps acc = Ok (acc ++ accs).
Proof.
  induction ps as [|p ps IH]; cbn [forallb filter collect_accounts].
  - intros _. exists []. split; [constructor|].
    intros acc. rewrite app_nil_r. reflexivity.
  - intros H. apply andb_prop in H. destruct H as (Hp & Hps).
    destruct (IH Hps) as (accs & Hf & Hc).
    pose proof (account_of_page_ok p Hp) as Hb.
    destruct (has_account p).
    + destruct Hb as (a & -> & Ha). exists (a :: accs).
      split; [constructor; assumption|].
      intros acc. rewrite Hc, <- app_assoc. reflexivity.
    + rewrite Hb. exists accs. auto.
Qed.

(** A page with an account and no [id] stops the loop, whatever was
    collected before it. *)
Lemma collect_accounts_stops good d rest acc :
  forallb account_page_ok good = true ->
  has_account (VDict d) = true ->
  dict_get d (VStr (lit "id")) = None ->
  collect_accounts (good ++ VDict d :: rest) acc
  = Raise (KeyError (lit "id")).
Proof.
  intros Hg Ha Hi. revert acc.
  induction good as [|p good IH]; intros acc; cbn [app collect_accounts].
  - unfold account_of_page. rewrite contains_dict. cbn [subscript].
    unfold has_account in Ha. fold account_key.
    destruct (dict_get d (VStr account_key)); [|discriminate].
    rewrite Hi. reflexivity.
  - cbn [forallb] in Hg. apply andb_prop in Hg. destruct Hg as (Hp & Hg).
    pose proof (account_of_page_ok p Hp) as Hb.
    destruct (has_account p).
    + destruct Hb as (a & -> & _). apply (IH Hg).
    + rewrite Hb. apply (IH Hg).
Qed.

Section WithVault.
Context {F : Fernet} {S : Schema}.

(** The method is one request and what [instagram_result] makes of the
    reply; an exception is logged and answered with the empty list. *)
Lemma get_instagram_accounts_eq tok w :
  get_instagram_accounts tok w =
  match instagram_result (hd_error (http_script w)) with
  | Ok accounts => (Ok accounts, sent (get_instagram tok) w)
  | Raise e =>
      (Ok [],
       with_log
         (log w ++ [("Error fetching Instagram accounts"%string, e)])
         (sent (get_instagram tok) w))
  end.
Proof.
  unfold get_instagram_accounts, try_except, instagram_result.
  unfold bind at 1. rewrite requests_get_eq. fold (get_instagram tok).
  unfold stage_json, raise_for_status, json.
  destruct (answer _) as [r|e]; [|reflexivity].
  unfold bind at 1.
  destruct (_ && _); [reflexivity|]. unfold ret at 1.
  unfold bind at 1.
  destruct (body r) as [v|]; [|reflexivity]. unfold ret at 1.
  unfold bind at 1, lift at 1.
  destruct (get_default v (lit "data") (VList [])) as [pg|e]; [|reflexivity].
  unfold bind at 1, lift at 1.
  destruct (iterate pg) as [items|e]; [|reflexivity].
  unfold lift.
  destruct (collect_accounts items []); reflexivity.
Qed.

(** X10.  [get_instagram_accounts] returns a list in every world, after
    exactly one request, to the accounts endpoint with the token it was
    given; it takes one reply and touches neither the table nor the
    clocks.  When anything in its [try] raises (no reply, a 4xx or 5xx
    status, a body that is not JSON or not a dictionary, a page the loop
    cannot handle) the answer is the empty list and the exception is
    logged; otherwise nothing is logged. *)
Theorem get_instagram_accounts_never_raises tok w :
  exists accounts w',
    get_instagram_accounts tok w = (Ok accounts, w') /\
    trace w' = trace w ++ [get_instagram tok] /\
    http_script w' = tl (http_script w) /\
    table w' = table w /\ py_clock w' = py_clock w /\
    db_script w' = db_script w /\
    match instagram_result (hd_error (http_script w)) with
    | Ok l => accounts = l /\ log w' = log w
    | Raise e =>
        accounts = [] /\
        log w' = log w ++ [("Error fetching Instagram accounts"%string, e)]
    end.
Proof.
  rewrite get_instagram_accounts_eq.
  destruct (instagram_result _) as [l|e]; do 2 eexists;
    (split; [reflexivity|]); destruct w; cbn; auto 10.
Qed.

(** X11.  When the reply has a status that is not 4xx or 5xx and its body
    is a JSON dictionary whose [data] is a list of pages, each a
    dictionary that either has no [instagram_business_account] or has
    one that is a dictionary together with an [id], the method returns,
    in the order of the pages, the account of every page that has one,
    with the [id] of its page added under [page_id]; pages without an
    account are skipped. *)
Theorem get_instagram_accounts_of_pages tok w st d pages :
  hd_error (http_script w) = Some (Reply st (Some (VDict d))) ->
  (400 <=? st) && (st <? 600) = false ->
  dict_get d (VStr (lit "data")) = Some (VList pages) ->
  forallb account_page_ok pages = true ->
  exists accounts w',
    get_instagram_accounts tok w = (Ok accounts, w') /\
    Forall2 account_with_page_id (filter has_account pages) accounts /\
    log w' = log w.
Proof.
  intros Hr Hst Hd Hp.
  destruct (collect_accounts_ok pages Hp) as (accs & Hf & Hc).
  rewrite get_instagram_accounts_eq, Hr.
  unfold instagram_result, stage_json, answer. cbn [status_code body].
  rewrite Hst. cbn [get_default]. rewrite Hd. cbn [iterate].
  rewrite (Hc []). cbn [app].
  do 2 eexists. split; [reflexivity|]. split; [exact Hf|].
  destruct w; reflexivity.
Qed.

(** X12.  The accounts are all or nothing: one page that has an
    [instagram_business_account] but no [id] makes the method return the
    empty list, also when the pages before it had accounts, and log the
    [KeyError]. *)
Theorem get_instagram_accounts_all_or_nothing tok w st d good bad rest :
  hd_error (http_script w) = Some (Reply st (Some (VDict d))) ->
  (400 <=? st) && (st <? 600) = false ->
  dict_get d (VStr (lit "data")) = Some (VList (good ++ VDict bad :: rest)) ->
  forallb account_page_ok good = true ->
  has_account (VDict bad) = true ->
  dict_get bad (VStr (lit "id")) = None ->
  exists w',
    get_instagram_accounts tok w = (Ok [], w') /\
    log w' =
    log w ++ [("Error fetching Instagram accounts"%string,
               KeyError (lit "id"))].
Proof.
  intros Hr Hst Hd Hg Ha Hi.
  rewrite get_instagram_accounts_eq, Hr.
  unfold instagram_result, stage_json, answer. cbn [status_code body].
  rewrite Hst. cbn [get_default]. rewrite Hd. cbn [iterate].
  rewrite (collect_accounts_stops good bad rest [] Hg Ha Hi).
  eexists. split; [reflexivity|]. destruct w; reflexivity.
Qed.

End WithVault.
End Accounts.

(* ===================================================================== *)
(** * Credentials and the authorisation URL                               *)
(* ===================================================================== *)

Module Config.
Import Py Eff MetaAuth Utils MetaAuthRest Terms MoreTerms Pages RoundTrip.

(** ** [get_config] and [MetaAuth.__init__] *)

(** A variable of the environment wins over the secrets, which are not
    even read. *)
Lemma get_config_environ cfg key default v :
  environ_get (environ cfg) key = Some v ->
  get_config cfg key default = Ok (VStr v).
Proof. unfold get_config. intros ->. reflexivity. Qed.

(** Without the variable the answer is the secret, or the default when
    the secrets have no such key. *)
Lemma get_config_secret cfg key default v :
  environ_get (environ cfg) key = None ->
  get_config cfg key default = Ok v ->
  secrets cfg key = Ok v \/
  (v = default /\ exists e, secrets cfg key = Raise e).
Proof.
  unfold get_config. intros ->.
  destruct (secrets cfg key) as [x|e]; intros H.
  - left. exact H.
  - right. destruct e; try discriminate; apply ok_inj in H; eauto.
Qed.

Lemma credential_of cfg key v :
  get_config cfg key VNone = Ok v -> truthy v = true -> credential cfg key v.
Proof.
  intros G T. split; [exact T|].
  destruct (environ_get (environ cfg) key) as [s|] eqn:E.
  - rewrite (get_config_environ _ _ _ _ E) in G. apply ok_inj in G.
    subst v. split; [reflexivity|]. intros ->. discriminate.
  - destruct (get_config_secret _ _ _ _ E G) as [H | (-> & _)];
      [exact H | discriminate].
Qed.

(** X13.  A [MetaAuth] is constructed only from three truthy
    credentials.  Each is the variable of the environment when that is
    set, and then it is a non-empty string, and otherwise the value the
    secrets hold under the key.  So a variable set to the empty string
    is never replaced by the secret: construction fails, whatever the
    secrets hold. *)
Theorem init_needs_three_credentials cfg :
  (forall self, init cfg = Ok self ->
     credential cfg (lit "META_APP_ID") (app_id self) /\
     credential cfg (lit "META_APP_SECRET") (app_secret self) /\
     credential cfg (lit "REDIRECT_URI") (redirect_uri self)) /\
  (forall key,
     In key [lit "META_APP_ID"; lit "META_APP_SECRET"; lit "REDIRECT_URI"] ->
     environ_get (environ cfg) key = Some [] ->
     exists e, init cfg = Raise e).
Proof.
  split.
  - intros self. unfold init.
    destruct (get_config cfg (lit "META_APP_ID") VNone) as [a|e] eqn:Ga;
      [|discriminate].
    destruct (get_config cfg (lit "META_APP_SECRET") VNone) as [b|e] eqn:Gb;
      [|discriminate].
    destruct (get_config cfg (lit "REDIRECT_URI") VNone) as [c|e] eqn:Gc;
      [|discriminate].
    destruct (truthy a) eqn:Ta; [|discriminate].
    destruct (truthy b) eqn:Tb; [|discriminate].
    destruct (truthy c) eqn:Tc; [|discriminate].
    cbn [andb negb]. intros H. apply ok_inj in H. subst self.
    cbn [app_id app_secret redirect_uri].
    auto using credential_of.
  - intros key Hin He. unfold init.
    pose proof (get_config_environ cfg key VNone [] He) as G.
    destruct (get_config cfg (lit "META_APP_ID") VNone) as [a|e] eqn:Ga;
      [|eauto].
    destruct (get_config cfg (lit "META_APP_SECRET") VNone) as [b|e] eqn:Gb;
      [|eauto].
    destruct (get_config cfg (lit "REDIRECT_URI") VNone) as [c|e] eqn:Gc;
      [|eauto].
    assert (Falsy : truthy a && truthy b && truthy c = false).
    { destruct Hin as [<-|[<-|[<-|[]]]].
      - rewrite Ga in G. apply ok_inj in G. subst a. reflexivity.
      - rewrite Gb in G. apply ok_inj in G. subst b.
        destruct (truthy a); reflexivity.
      - rewrite Gc in G. apply ok_inj in G. subst c.
        destruct (truthy a), (truthy b); reflexivity. }
    rewrite Falsy. cbn [negb]. eauto.
Qed.

(** ** [generate_auth_url] *)

Section WithFormat.
Context {Fmt : Format}.

Lemma generate_auth_url_eq self state :
  generate_auth_url self state =
  before_state self ++ py_str state ++ after_state.
Proof.
  unfold generate_auth_url, before_state, after_state.
  cbn [map join fst snd]. rewrite !py_str_string.
  repeat rewrite <- app_assoc. reflexivity.
Qed.

(** X14.  The URL carries the state as it is, between a prefix made of
    the endpoint, the application id and the redirect URI, and the fixed
    list of scopes: nothing of it is escaped.  Two states give the same
    URL only when they are equal, and the application secret has no part
    in the URL. *)
Theorem generate_auth_url_carries_the_state self :
  (forall s,
     generate_auth_url self (VStr s) = before_state self ++ s ++ after_state) /\
  (forall s1 s2,
     generate_auth_url self (VStr s1) = generate_auth_url self (VStr s2) ->
     s1 = s2) /\
  (forall other state,
     app_id other = app_id self ->
     redirect_uri other = redirect_uri self ->
     generate_auth_url other state = generate_auth_url self state).
Proof.
  split; [|split].
  - intros s. rewrite generate_auth_url_eq, py_str_string. reflexivity.
  - intros s1 s2. rewrite !generate_auth_url_eq, !py_str_string.
    intros H. apply app_inv_head in H. apply app_inv_tail in H. exact H.
  - intros other state Ha Hr. rewrite !generate_auth_url_eq.
    unfold before_state. rewrite Ha, Hr. reflexivity.
Qed.

End WithFormat.
End Config.

(* ===================================================================== *)
(** * [make_api_call]                                                     *)
(* ===================================================================== *)

Module ApiCall.
Import Py Eff TokenManager MetaAuth MetaAuthRest App Terms MoreTerms
  Run Store Lifecycle Flow Pages RoundTrip.
Local Open Scope eff_scope.

(** ** What a fetch leaves alone *)

Ltac frames :=
  repeat lazymatch goal with
    | |- stable ?R (bind _ _) => apply (@stable_bind R _); [|intros ?]
    | |- stable ?R (ret _) => apply (@stable_ret R _)
    | |- stable ?R (lift _) => apply (@stable_lift R _)
    | |- stable ?R (raise _) => apply (@stable_raise R _)
    | |- stable ?R (try_except _ _) => apply (@stable_try R _); [|intros ?]
    | |- stable ?R (if _ then _ else _) => apply (@stable_if R)
    | |- stable ?R (match ?x with _ => _ end) => destruct x
    end.

Lemma db_call_replies : stable (keeps http_script) db_call.
Proof. prim. Qed.

Lemma db_call_quiet P : stable (grows P) db_call.
Proof. intros w. apply keeps_trace_grows. revert w. prim. Qed.

Lemma st_error_replies msg e : stable (keeps http_script) (st_error msg e).
Proof. prim. Qed.

Lemma st_error_quiet P msg e : stable (grows P) (st_error msg e).
Proof. intros w. apply keeps_trace_grows. revert w. prim. Qed.

Lemma datetime_now_quiet P : stable (grows P) datetime_now.
Proof. intros w. apply keeps_trace_grows. revert w. prim. Qed.

Section WithVault.
Context {F : Fernet} {S : Schema}.

Lemma execute_replies q : stable (keeps http_script) (execute q).
Proof.
  intros w. unfold keeps. rewrite execute_eq.
  destruct (fault_at w 0); [destruct w; reflexivity|].
  destruct q; destruct w; reflexivity.
Qed.

Lemma execute_quiet q : stable (grows no_get) (execute q).
Proof.
  intros w. rewrite execute_eq.
  destruct (fault_at w 0).
  - exists []. rewrite app_nil_r. destruct w; auto.
  - exists [EvSql q]. destruct q; destruct w; auto.
Qed.

Lemma vault_is_quiet w w' : grows vault_event w w' -> grows no_get w w'.
Proof.
  apply grows_weaken. intros [ | | | | ]; cbn; intros; congruence.
Qed.

Lemma mark_replies u : stable (keeps http_script) (_mark_token_for_reauth u).
Proof.
  unfold _mark_token_for_reauth, _get_snowflake_connection, connect, cursor,
    close.
  frames;
    first [apply db_call_replies | apply execute_replies
          | apply st_error_replies].
Qed.

Lemma mark_quiet u : stable (grows no_get) (_mark_token_for_reauth u).
Proof.
  unfold _mark_token_for_reauth, _get_snowflake_connection, connect, cursor,
    close.
  frames;
    first [apply db_call_quiet | apply execute_quiet | apply st_error_quiet].
Qed.

Lemma outside_replies {A} (c : M A) :
  stable (keeps outside_vault) c -> stable (keeps http_script) c.
Proof.
  intros H w. specialize (H w). unfold keeps, outside_vault in *.
  congruence.
Qed.

(** A fetch takes no reply. *)
Lemma get_user_token_replies u : stable (keeps http_script) (get_user_token u).
Proof.
  unfold get_user_token, _get_snowflake_connection, connect, cursor, close.
  frames;
    first [ apply db_call_replies | apply execute_replies
          | apply st_error_replies | apply mark_replies
          | apply (outside_replies _ (decrypt_token_outside _))
          | apply (outside_replies _ (decrypt_pages_outside _))
          | (intros w; reflexivity) ].
Qed.

(** A fetch makes no request. *)
Lemma get_user_token_quiet u : stable (grows no_get) (get_user_token u).
Proof.
  unfold get_user_token, _get_snowflake_connection, connect, cursor, close.
  frames;
    first [ apply db_call_quiet | apply execute_quiet
          | apply st_error_quiet | apply mark_quiet
          | apply datetime_now_quiet
          | (intros w; apply vault_is_quiet; apply decrypt_token_grows)
          | (intros w; apply vault_is_quiet; apply decrypt_pages_grows) ].
Qed.

(** ** The call *)

(** The call is a fetch; without a usable record it stops there, and
    with one it makes one request and takes one reply. *)
Lemma make_api_call_eq u endpoint params s :
  make_api_call u endpoint params s =
  match get_user_token u (world s) with
  | (Raise e, w1) => (Raise e, {| world := w1; shown := shown s |})
  | (Ok token_data, w1) =>
      if authentication_required token_data then
        (Ok None,
         {| world := w1;
            shown := shown s ++ ["Authentication required"%string] |})
      else
        match access_token_of token_data with
        | Raise e => (Raise e, {| world := w1; shown := shown s |})
        | Ok token =>
            match stage_json (hd_error (http_script w1)) with
            | Ok v =>
                (Ok (Some v),
                 {| world := sent (api_get endpoint params token) w1;
                    shown := shown s |})
            | Raise e =>
                (Ok None,
                 {| world :=
                      with_log (log w1 ++ [("API call failed"%string, e)])
                        (sent (api_get endpoint params token) w1);
                    shown := shown s |})
            end
        end
  end.
Proof.
  unfold make_api_call, bind_app at 1, run at 1.
  destruct (get_user_token u (world s)) as [[td|e] w1]; [|reflexivity].
  destruct (authentication_required td); [reflexivity|].
  unfold bind_app, run, Eff.lift. cbn [world shown].
  destruct (access_token_of td) as [token|e]; [|reflexivity].
  unfold try_except, Eff.bind at 1. rewrite requests_get_eq.
  fold (api_get endpoint params token).
  unfold stage_json, raise_for_status, json.
  destruct (answer _) as [r|e]; [|reflexivity].
  unfold Eff.bind at 1.
  destruct (_ && _); [reflexivity|]. unfold Eff.ret at 1.
  unfold Eff.bind at 1.
  destruct (body r) as [v|]; reflexivity.
Qed.

(** X15.  [make_api_call] returns in every session, and calls the Graph
    API only with a token it decrypted from a usable record.  Either no
    request is made and no reply taken, the answer is [None] and
    "Authentication required" is shown; or the driver answered the read,
    the first row of the user is not flagged and not past its expiry,
    and exactly one request is made, after the fetch, to the endpoint
    under the Graph URL, with the caller's parameters and the decryption
    of the [ACCESS_TOKEN] of that row as [access_token]; the answer is
    then the JSON body of the first reply, or [None] and a logged
    "API call failed" when the request fails.  The table is never
    changed by the second case. *)
Theorem make_api_call_sends_the_stored_token u endpoint params s :
  exists r s' tr,
    make_api_call u endpoint params s = (Ok r, s') /\
    trace (world s') = trace (world s) ++ tr /\
    ((forallb no_get tr = true /\ r = None /\
      http_script (world s') = http_script (world s) /\
      shown s' = shown s ++ ["Authentication required"%string])
     \/
     (exists row token tr0,
        read_ok (world s) /\
        fetchone (select u (table (world s))) = Some row /\
        flag_set (NEEDS_REAUTH row) = false /\
        match TOKEN_EXPIRY row with
        | Some t => py_clock (world s) <= t
        | None => True
        end /\
        (forall w2, fst (decrypt_token (ACCESS_TOKEN row) w2) = Ok token) /\
        tr = tr0 ++ [api_get endpoint params token] /\
        forallb no_get tr0 = true /\
        http_script (world s') = tl (http_script (world s)) /\
        table (world s') = table (world s) /\
        shown s' = shown s /\
        match stage_json (hd_error (http_script (world s))) with
        | Ok v => r = Some v /\ log (world s') = log (world s)
        | Raise e =>
            r = None /\
            log (world s') =
            log (world s) ++ [("API call failed"%string, e)]
        end)).
Proof.
  rewrite make_api_call_eq.
  pose proof (get_user_token_replies u (world s)) as Hh.
  pose proof (get_user_token_quiet u (world s)) as (tr0 & Htr & Hq).
  destruct (get_user_token_cases u (world s)) as (res & w1 & E & Hcase).
  rewrite E in *. cbn [snd] in *. unfold keeps in Hh.
  destruct res as [[|d]|].
  - cbn [authentication_required]. do 2 eexists. exists tr0.
    split; [reflexivity|]. cbn [world shown]. split; [exact Htr|]. left. auto.
  - destruct Hcase as (R & row & Hrow & Hflag & Hexp & Hdec).
    destruct (decrypt_record_run _ _ _ _ Hdec)
      as (Ko & _ & Hd1 & _ & Hn & _).
    assert (Hback : forall w2, fst (decrypt_token (ACCESS_TOKEN row) w2)
                               = Ok (tok_access_token d)).
    { intros w2. rewrite <- Hd1. apply pure_decrypt_token. }
    destruct (outside_vault_fields _ _ Ko) as (Tab & _ & _ & Log & _).
    cbn [authentication_required access_token_of]. rewrite Hn, Hh.
    destruct (stage_json (hd_error (http_script (world s)))) as [v|e];
      do 2 eexists; exists (tr0 ++ [api_get endpoint params (tok_access_token d)]);
      (split; [reflexivity|]); cbn [world shown];
      (split; [destruct w1; cbn in *; rewrite Htr, app_assoc; reflexivity|]);
      right; exists row, (tok_access_token d), tr0;
      (split; [exact R|]); (split; [exact Hrow|]); (split; [exact Hflag|]);
      (split; [exact Hexp|]); (split; [exact Hback|]);
      (split; [reflexivity|]); (split; [exact Hq|]);
      (split; [destruct w1; cbn in *; congruence|]);
      (split; [destruct w1; cbn in *; congruence|]);
      (split; [reflexivity|]);
      split; [reflexivity | destruct w1; cbn in *; congruence
             | reflexivity | destruct w1; cbn in *; congruence].
  - cbn [authentication_required]. do 2 eexists. exists tr0.
    split; [reflexivity|]. cbn [world shown]. split; [exact Htr|]. left. auto.
Qed.

End WithVault.
End ApiCall.

(* ===================================================================== *)
(** * From one method to the next                                         *)
(* ===================================================================== *)

Module Journeys.
Import Py Eff TokenManager MetaAuth MetaAuthRest App Terms MoreTerms
  Run Store Lifecycle Flow Pages RoundTrip Rest ApiCall.
Local Open Scope eff_scope.

Section WithVault.
Context {F : Fernet} {S : Schema}.

(** X16.  What the flow stored is what a later fetch returns, on a table
    whose [PAGES] column is read back as it was stored, when the pages
    the flow got are a list of dictionaries or nothing, and the user
    already had a row or the [NEEDS_REAUTH] column defaults to false.
    After a [complete_oauth_flow] that returned a result, the four
    requests had gone through, the result holds the user information
    and the pages they gave, and a fetch of the table it left (the
    driver answering, the clock not past the expiry) returns the
    long-lived token of the second reply, not the short-lived one of
    the first, with the provider's user id, the pages, and the expiry
    [expires_in] seconds after the clock read by the flow. *)
Theorem flow_then_fetch self u code w res w1 w2 :
  (forall v, variant_cell v = v) ->
  complete_oauth_flow self u code w = (Ok (Some res), w1) ->
  pages_shape (pages res) = true ->
  select u (table w) <> [] \/ flag_set default_needs_reauth = false ->
  table w2 = table w1 ->
  read_ok w2 ->
  exists a delta,
    snd (remote self code (http_script w)) = Ok a /\
    user_info res = acc_user_info a /\ pages res = acc_pages a /\
    timedelta_seconds (acc_expires_in a) = Ok delta /\
    (py_clock w2 <= py_clock w + delta ->
     exists w3,
       get_user_token u w2 =
       (Ok (Some (Token {|
          tok_user_id := u;
          tok_meta_user_id := acc_meta_user_id a;
          tok_access_token := acc_token a;
          tok_token_expiry := Some (py_clock w + delta);
          tok_pages := pages_back (acc_pages a);
          tok_needs_reauth := false |})), w3)).
Proof.
  intros Hv E Sh Hflag Et R. rewrite complete_oauth_flow_eq in E.
  destruct (remote self code (http_script w)) as [gets [a|e]];
    [|discriminate].
  destruct (sent_all_fields gets w) as (Ft & _ & Fp & _).
  destruct (store_user_token u (acc_meta_user_id a) (acc_token a)
              (acc_expires_in a) (acc_pages a) (sent_all gets w))
    as [[[|]|e] wx] eqn:St; try discriminate.
  apply pair_equal_spec in E. destruct E as (E & ->).
  apply ok_inj in E. apply some_inj in E. subst res.
  cbn [pages user_info] in *. rewrite <- Ft in Hflag.
  destruct (store_then_fetch _ _ _ _ _ _ _ w2 Hv Sh St Hflag Et R)
    as (delta & Hd & Hfetch).
  exists a, delta. rewrite Fp in Hfetch. cbn [snd]. auto.
Qed.

(** X17.  The token a user pasted is the one the Graph API is called
    with, on a table whose [PAGES] column is read back as it was stored,
    when the pages the accounts endpoint gave are a list of dictionaries
    or nothing, and the user already had a row or the [NEEDS_REAUTH]
    column defaults to false.  After a [store_existing_token] that
    returned [True] for [d] days, a [make_api_call] on the table it left
    (the driver answering, the clock within the [d] days) makes exactly
    one request, after its fetch, and that request carries the pasted
    token as [access_token].  "Authentication required" is not shown.
    The answer is the JSON body of the reply, with nothing logged, when
    the request goes through, and [None] with "API call failed" logged
    when it does not. *)
Theorem pasted_token_is_the_one_sent u tok (d : Z) w w1 endpoint params s :
  (forall v, variant_cell v = v) ->
  store_existing_token u tok (VInt d) w = (Ok true, w1) ->
  (forall m pages, snd (checked tok (http_script w)) = Ok (m, pages) ->
                   pages_shape pages = true) ->
  select u (table w) <> [] \/ flag_set default_needs_reauth = false ->
  table (world s) = table w1 ->
  read_ok (world s) ->
  py_clock (world s) <= py_clock w + d * 86400 * 1000000 ->
  exists r s' tr0,
    make_api_call u endpoint params s = (Ok r, s') /\
    trace (world s') =
    trace (world s) ++ tr0 ++ [api_get endpoint params tok] /\
    forallb no_get tr0 = true /\
    shown s' = shown s /\
    match stage_json (hd_error (http_script (world s))) with
    | Ok v => r = Some v /\ log (world s') = log (world s)
    | Raise e =>
        r = None /\
        log (world s') = log (world s) ++ [("API call failed"%string, e)]
    end.
Proof.
  intros Hv E Sh Hflag Et R Hc.
  rewrite store_existing_token_eq, seconds_of_days_int in E.
  destruct (checked tok (http_script w)) as [gets [[m pages]|e]];
    [|discriminate].
  specialize (Sh m pages eq_refl).
  destruct (sent_all_fields gets w) as (Ft & _ & Fp & _).
  destruct (store_user_token u m tok (VInt (d * 86400)) pages
              (sent_all gets w)) as [[b|e] wx] eqn:St; [|discriminate].
  apply pair_equal_spec in E. destruct E as (E & ->).
  apply ok_inj in E. subst b. rewrite <- Ft in Hflag.
  destruct (store_then_fetch _ _ _ _ _ _ _ (world s) Hv Sh St Hflag Et R)
    as (delta & Hd & Hfetch).
  assert (Hdelta : delta = d * 86400 * 1000000).
  { cbn in Hd. destruct (Z.abs (d * 86400 / 86400) <=? 999999999);
      [apply ok_inj in Hd; auto | discriminate]. }
  subst delta. rewrite Fp in Hfetch. destruct (Hfetch Hc) as (w3 & G).
  pose proof (get_user_token_quiet u (world s)) as (tr0 & Htr & Hq).
  pose proof (get_user_token_replies u (world s)) as Hh.
  rewrite G in Htr, Hh. cbn [snd] in Htr, Hh. unfold keeps in Hh.
  assert (Hl : log w3 = log (world s)).
  { destruct (get_user_token_cases u (world s)) as (res & w3' & G' & Sh').
    rewrite G in G'. apply pair_equal_spec in G'. destruct G' as (G' & <-).
    apply ok_inj in G'. subst res.
    destruct Sh' as (_ & r0 & _ & _ & _ & D).
    destruct (decrypt_record_run _ _ _ _ D) as (Ko & _).
    destruct (outside_vault_fields _ _ Ko) as (_ & _ & _ & Log & _).
    rewrite Log. destruct (world s); reflexivity. }
  rewrite make_api_call_eq, G.
  cbn [authentication_required access_token_of tok_needs_reauth
       tok_access_token].
  rewrite Hh.
  destruct (stage_json (hd_error (http_script (world s)))) as [v|e];
    do 2 eexists; exists tr0; (split; [reflexivity|]); cbn [world shown];
    (split; [destruct w3; cbn in *; rewrite Htr, app_assoc; reflexivity|]);
    (split; [exact Hq|]); (split; [reflexivity|]);
    (split; [reflexivity|]); destruct w3; cbn in *; congruence.
Qed.

End WithVault.
End Journeys.

(* ===================================================================== *)
(** * The other methods on a small deployment                             *)
(* ===================================================================== *)

Module Worked.
Import Py Eff TokenManager MetaAuth Utils MetaAuthRest App Terms MoreTerms
  Vault Contract Flow Pages RoundTrip Rest Accounts Config ApiCall Journeys.
Local Open Scope eff_scope.

(** The table after [store_user_token("u1", "fb123", "tok-abc", 3600,
    [page_one])] on the empty deployment. *)
Definition stored_hour : World := snd (demo_store 3600 world0).

(** A row past its expiry, read at a later clock. *)
Definition world_expired : World :=
  with_py_clock 2000 (with_table [row_expired] world0).

(** [store_existing_token("u1", "tok-abc")], the two requests answered. *)
Definition world_existing : World := with_http_script replies_existing world0.

Definition demo_existing : M bool :=
  @store_existing_token demo_fernet demo_schema u1 (VStr (lit "tok-abc"))
    (VInt 60).

Definition stored_existing : World := snd (demo_existing world_existing).

(** The page opened on the table that call left, one reply waiting. *)
Definition session_existing : Session := {|
  world := with_http_script [identity_reply] (with_py_clock 7 stored_existing);
  shown := []
|}.

Definition world_flow : World := with_http_script replies_flow world0.

(** What the flow returns on these replies, and the world it leaves. *)
Definition flow_answer : flow_result := {|
  user_info := VDict [(VStr (lit "id"), VStr (lit "fb123"));
                      (VStr (lit "name"), VStr (lit "Ada"))];
  pages := VList [page_one]
|}.

Definition stored_flow : World :=
  snd (@complete_oauth_flow demo_fernet demo_schema demo_app u1
         (VStr (lit "code")) world_flow).

Lemma fetch_returns_what_was_stored_witness :
  demo_store 3600 world0 = (Ok true, stored_hour) /\
  exists delta,
    timedelta_seconds (VInt 3600) = Ok delta /\
    (py_clock (with_py_clock 5 stored_hour) <= py_clock world0 + delta ->
     exists w3,
       @get_user_token demo_fernet demo_schema u1 (with_py_clock 5 stored_hour)
       = (Ok (Some (Token {|
            tok_user_id := u1;
            tok_meta_user_id := VStr (lit "fb123");
            tok_access_token := VStr (lit "tok-abc");
            tok_token_expiry := Some (py_clock world0 + delta);
            tok_pages := pages_back (VList [page_one]);
            tok_needs_reauth := false |})), w3)).
Proof.
  assert (H : demo_store 3600 world0 = (Ok true, stored_hour))
    by (vm_compute; reflexivity).
  split; [exact H|].
  refine (@fetch_returns_what_was_stored demo_fernet demo_schema u1
            (VStr (lit "fb123")) (VStr (lit "tok-abc")) (VInt 3600)
            (VList [page_one]) world0 stored_hour (with_py_clock 5 stored_hour)
            (fun v => eq_refl) eq_refl H (or_intror eq_refl) eq_refl _).
  repeat split.
Defined.

Lemma pages_roundtrip_witness :
  exists es w',
    @encrypt_pages demo_fernet (VList [page_one; page_plain]) world0
    = (Ok (Some (VList es)), w') /\
    Forall2 (@encrypted_form demo_fernet) [page_one; page_plain] es /\
    forall w2,
      fst (@decrypt_pages demo_fernet (VList es) w2)
      = Ok (VList [page_one; page_plain]).
Proof.
  refine (@pages_roundtrip demo_fernet [page_one; page_plain] world0 _ _).
  - discriminate.
  - vm_compute; reflexivity.
Defined.

Lemma stored_secrets_are_fernet_tokens_witness :
  demo_store 3600 world0 = (Ok true, stored_hour) /\
  exists s data r,
    VStr (lit "tok-abc") = VStr s /\ utf8_encode s = Ok data /\
    select u1 (table stored_hour) <> [] /\
    forall row, In row (select u1 (table stored_hour)) ->
      ACCESS_TOKEN row = VStr (@fernet_encrypt demo_fernet r data) /\
      exists es, PAGES row = Some (VList es) /\
                 Forall2 (@encrypted_form demo_fernet) [page_one] es.
Proof.
  assert (H : demo_store 3600 world0 = (Ok true, stored_hour))
    by (vm_compute; reflexivity).
  split; [exact H|].
  exact (@stored_secrets_are_fernet_tokens demo_fernet demo_schema u1
           (VStr (lit "fb123")) (VStr (lit "tok-abc")) (VInt 3600) [page_one] world0 stored_hour eq_refl H).
Defined.

Lemma store_rejects_bad_lifetime_witness :
  exists w' e,
    demo_store (-1) world0 = (Ok false, w') /\
    table w' = table world0 /\
    log w' = log world0 ++ [("Error storing token"%string, e)].
Proof.
  refine (@store_rejects_bad_lifetime demo_fernet demo_schema u1
            (VStr (lit "fb123")) (VStr (lit "tok-abc")) (VInt (-1))
            (VList [page_one]) world0 _).
  left. reflexivity.
Defined.

Lemma expiry_is_remembered_witness :
  exists w',
    @get_user_token demo_fernet demo_schema u1 world_expired
    = (Ok (Some NeedsReauth), w') /\
    table w' = @update_reauth u1 (table world_expired) /\
    forall w2 now,
      table w2 = table w' -> read_ok w2 ->
      @get_user_token demo_fernet demo_schema u1 (with_py_clock now w2)
      = (Ok (Some NeedsReauth), after_read u1 (with_py_clock now w2)).
Proof.
  refine (@expiry_is_remembered demo_fernet demo_schema u1 world_expired
            row_expired 1000 _ eq_refl eq_refl eq_refl eq_refl
            eq_refl eq_refl eq_refl).
  repeat split.
Defined.

Lemma store_existing_token_lifetime_witness :
  default_expiry_days = VInt 60 /\
  @store_existing_token demo_fernet demo_schema u1 (VStr (lit "tok-abc"))
    (VInt 60) world_existing = (Ok true, stored_existing) /\
  select u1 (table stored_existing) <> [] /\
  forall r, In r (select u1 (table stored_existing)) ->
    TOKEN_EXPIRY r = Some (py_clock world_existing + 60 * 86400 * 1000000) /\
    forall w2,
      fst (@decrypt_token demo_fernet (ACCESS_TOKEN r) w2)
      = Ok (VStr (lit "tok-abc")).
Proof.
  assert (H : @store_existing_token demo_fernet demo_schema u1
                (VStr (lit "tok-abc")) (VInt 60) world_existing
              = (Ok true, stored_existing))
    by (vm_compute; reflexivity).
  split; [reflexivity|]. split; [exact H|].
  exact (proj2 (@store_existing_token_lifetime demo_fernet demo_schema u1
                  (VStr (lit "tok-abc")) 60 world_existing stored_existing
                  H)).
Defined.

Lemma get_instagram_accounts_of_pages_witness :
  exists accounts w',
    get_instagram_accounts (VStr (lit "tok-abc"))
      (with_http_script [accounts_reply [page_with_account; page_plain]]
         world0)
    = (Ok accounts, w') /\
    Forall2 account_with_page_id
      (filter has_account [page_with_account; page_plain]) accounts /\
    log w' = [].
Proof.
  exact (get_instagram_accounts_of_pages (VStr (lit "tok-abc"))
           (with_http_script [accounts_reply [page_with_account; page_plain]]
              world0)
           200 _ [page_with_account; page_plain]
           eq_refl eq_refl eq_refl eq_refl).
Defined.

Lemma get_instagram_accounts_all_or_nothing_witness :
  exists w',
    get_instagram_accounts (VStr (lit "tok-abc"))
      (with_http_script
         [accounts_reply ([page_with_account] ++ VDict page_without_id :: [])]
         world0)
    = (Ok [], w') /\
    log w' =
    [("Error fetching Instagram accounts"%string, KeyError (lit "id"))].
Proof.
  exact (get_instagram_accounts_all_or_nothing (VStr (lit "tok-abc"))
           (with_http_script
              [accounts_reply
                 ([page_with_account] ++ VDict page_without_id :: [])]
              world0)
           200 _ [page_with_account] page_without_id []
           eq_refl eq_refl eq_refl eq_refl eq_refl eq_refl).
Defined.

Lemma init_needs_three_credentials_witness :
  secrets cfg_empty_id (lit "META_APP_ID") = Ok (VStr (lit "from-secrets")) /\
  (exists e, init cfg_empty_id = Raise e) /\
  credential cfg_mixed (lit "META_APP_ID") (VStr (lit "app")) /\
  credential cfg_mixed (lit "META_APP_SECRET") (VStr (lit "from-secrets")).
Proof.
  split; [reflexivity|]. split.
  - exact (proj2 (init_needs_three_credentials cfg_empty_id)
             (lit "META_APP_ID") (or_introl eq_refl) eq_refl).
  - pose proof (proj1 (init_needs_three_credentials cfg_mixed) _ eq_refl)
      as (H1 & H2 & _).
    split; [exact H1 | exact H2].
Defined.

Lemma flow_then_fetch_witness :
  @complete_oauth_flow demo_fernet demo_schema demo_app u1
    (VStr (lit "code")) world_flow = (Ok (Some flow_answer), stored_flow) /\
  exists a delta,
    snd (remote demo_app (VStr (lit "code")) (http_script world_flow)) = Ok a /\
    user_info flow_answer = acc_user_info a /\
    pages flow_answer = acc_pages a /\
    timedelta_seconds (acc_expires_in a) = Ok delta /\
    (py_clock (with_py_clock 9 stored_flow) <= py_clock world_flow + delta ->
     exists w3,
       @get_user_token demo_fernet demo_schema u1 (with_py_clock 9 stored_flow)
       = (Ok (Some (Token {|
            tok_user_id := u1;
            tok_meta_user_id := acc_meta_user_id a;
            tok_access_token := acc_token a;
            tok_token_expiry := Some (py_clock world_flow + delta);
            tok_pages := pages_back (acc_pages a);
            tok_needs_reauth := false |})), w3)).
Proof.
  assert (H : @complete_oauth_flow demo_fernet demo_schema demo_app u1
                (VStr (lit "code")) world_flow
              = (Ok (Some flow_answer), stored_flow))
    by (vm_compute; reflexivity).
  assert (Sh : pages_shape (pages flow_answer) = true)
    by (vm_compute; reflexivity).
  assert (Fl : select u1 (table world_flow) <> [] \/
               flag_set (@default_needs_reauth demo_schema) = false)
    by (right; vm_compute; reflexivity).
  assert (Et : table (with_py_clock 9 stored_flow) = table stored_flow)
    by (vm_compute; reflexivity).
  assert (R : read_ok (with_py_clock 9 stored_flow))
    by (vm_compute; repeat split).
  split; [exact H|].
  exact (@flow_then_fetch demo_fernet demo_schema demo_app u1
           (VStr (lit "code")) world_flow flow_answer stored_flow
           (with_py_clock 9 stored_flow) (fun v => eq_refl) H Sh Fl Et R).
Defined.

Lemma pasted_token_is_the_one_sent_witness :
  @store_existing_token demo_fernet demo_schema u1 (VStr (lit "tok-abc"))
    (VInt 60) world_existing = (Ok true, stored_existing) /\
  exists r s' tr0,
    @make_api_call demo_fernet demo_schema u1 "me/insights"
      [("metric", VStr (lit "reach"))]%string session_existing = (Ok r, s') /\
    trace (world s') =
    trace (world session_existing) ++ tr0 ++
    [api_get "me/insights" [("metric", VStr (lit "reach"))]%string
       (VStr (lit "tok-abc"))] /\
    forallb no_get tr0 = true /\
    shown s' = shown session_existing /\
    r = Some (VDict [(VStr (lit "id"), VStr (lit "fb123"));
                     (VStr (lit "name"), VStr (lit "Ada"))]) /\
    log (world s') = log (world session_existing).
Proof.
  assert (H : @store_existing_token demo_fernet demo_schema u1
                (VStr (lit "tok-abc")) (VInt 60) world_existing
              = (Ok true, stored_existing))
    by (vm_compute; reflexivity).
  assert (Sh : forall m pages,
             snd (checked (VStr (lit "tok-abc")) (http_script world_existing))
             = Ok (m, pages) -> pages_shape pages = true).
  { intros m pages E. vm_compute in E. injection E as _ <-.
    vm_compute; reflexivity. }
  assert (Fl : select u1 (table world_existing) <> [] \/
               flag_set (@default_needs_reauth demo_schema) = false)
    by (right; vm_compute; reflexivity).
  assert (Et : table (world session_existing) = table stored_existing)
    by (vm_compute; reflexivity).
  assert (R : read_ok (world session_existing))
    by (vm_compute; repeat split).
  assert (Hc : py_clock (world session_existing)
               <= py_clock world_existing + 60 * 86400 * 1000000)
    by (vm_compute; discriminate).
  split; [exact H|].
  destruct (@pasted_token_is_the_one_sent demo_fernet demo_schema u1
              (VStr (lit "tok-abc")) 60 world_existing stored_existing
              "me/insights" [("metric", VStr (lit "reach"))]%string
              session_existing (fun v => eq_refl) H Sh Fl Et R Hc)
    as (r & s' & tr0 & Hcall & Htr & Hq & Hshown & Hans).
  exists r, s', tr0.
  split; [exact Hcall|]. split; [exact Htr|]. split; [exact Hq|].
  split; [exact Hshown | exact Hans].
Defined.

(** ** The methods run *)

(** An invalid token: the identity lookup answers 401, nothing is asked
    for after it and nothing is stored. *)
Example existing_token_rejected :
  let w := with_http_script [Reply 401 None; accounts_reply [page_one]]
             world0 in
  fst (demo_existing w) = Ok false /\
  table (snd (demo_existing w)) = [] /\
  trace (snd (demo_existing w)) = [get_me (VStr (lit "tok-abc"))] /\
  log (snd (demo_existing w))
  = [("Error storing existing token"%string, HTTPError 401)].
Proof. vm_compute. repeat split. Qed.

(** No record for the user: the page asks for authentication and makes
    no request. *)
Example api_call_without_record :
  let s := {| world := with_http_script [identity_reply] world0;
              shown := [] |} in
  let r := @make_api_call demo_fernet demo_schema u1 "me" [] s in
  fst r = Ok None /\
  shown (snd r) = ["Authentication required"%string] /\
  http_script (world (snd r)) = [identity_reply] /\
  forallb no_get (trace (world (snd r))) = true.
Proof. vm_compute. repeat split. Qed.

End Worked.
